(** * Guess Your Sneaker file generator

    A shallow embedding of [globals.py], [shoepair.py], [generator.py],
    [run.py], [jordans.py] and [gys-generator.py], followed by the
    properties of the exclusion filter, the file numbering, the catalog
    extractor, the descriptor store, the item resolver, the prompt,
    [execute] and the script of jordans.py.

    Python values that travel through JSON are values of [json], and the
    values a user can type as literals are values of [pyobj]; every
    function with an effect (console, files, browser windows) is a
    computation in the monad [M], which threads a [world] and may raise a
    Python exception.  The libraries the program calls (the [re] engine, the
    [json] codec, the pages a browser window loads, the pages [requests]
    fetches, the [int] and [ast.literal_eval] readers, [repr]) and the
    paths [open] refuses are interfaces, given as type classes; the modules
    [sample] and [sample_text] implement them, to run the program on
    concrete inputs, and the JSON codec of [sample] is proved to read back
    what it writes. *)

From Stdlib Require Import ZArith Lia Ascii.
From Stdlib Require Import Floats.SpecFloat.
From stdpp Require Import base gmap strings list pretty.

Set Warnings "-register-all".

(** ** Python values *)

(** The exceptions the modelled code can raise. *)
Inductive exn :=
| KeyError (key : string)
| TypeError
| ValueError
| JSONDecodeError
| ReError
| SyntaxError
| FileNotFoundError
| IsADirectoryError
| PermissionError
| EOFError
| WebDriverException.

(** Result of evaluating an expression: a value or a raised exception. *)
Inductive outcome (A : Type) :=
| Ok (a : A)
| Raise (e : exn).
Arguments Ok {A} a.
Arguments Raise {A} e.

(** What [json.loads] produces and [json.dump] accepts.  A [dict] keeps its
    keys in insertion order. *)
Inductive json :=
| JNull
| JBool (b : bool)
| JInt (n : Z)
| JFloat (f : spec_float)
| JStr (s : string)
| JList (l : list json)
| JDict (d : list (string * json)).

(** [d[key]] on the bindings of a dict. *)
Fixpoint dict_get (key : string) (d : list (string * json)) : option json :=
  match d with
  | [] => None
  | (k, v) :: d' => if String.eqb k key then Some v else dict_get key d'
  end.

(** [key in d] on the bindings of a dict. *)
Definition dict_has (key : string) (d : list (string * json)) : bool :=
  match dict_get key d with Some _ => true | None => false end.

(** [obj[key]] for a string key: only a dict can be subscripted by a string,
    and a missing key is a [KeyError]. *)
Definition getitem (obj : json) (key : string) : outcome json :=
  match obj with
  | JDict d =>
      match dict_get key d with
      | Some v => Ok v
      | None => Raise (KeyError key)
      end
  | _ => Raise TypeError
  end.

(** What [ast.literal_eval] can produce, and so what
    [prompt_execution_values] can hand to [json.dump]: the values of [json]
    and, besides them, complex numbers, bytes, [Ellipsis], tuples, sets, and
    dicts whose keys are not strs.  The elements of a set are listed in
    some order; nothing the program does depends on it. *)
Inductive pyobj :=
| PNone
| PBool (b : bool)
| PInt (n : Z)
| PFloat (f : spec_float)
| PComplex (real imag : spec_float)
| PStr (s : string)
| PBytes (s : string)
| PEllipsis
| PList (l : list pyobj)
| PTuple (l : list pyobj)
| PSet (l : list pyobj)
| PDict (d : list (pyobj * pyobj)).

(** A value of [json] as a Python value. *)
Fixpoint py_of_json (v : json) : pyobj :=
  match v with
  | JNull => PNone
  | JBool b => PBool b
  | JInt n => PInt n
  | JFloat f => PFloat f
  | JStr s => PStr s
  | JList l => PList (map py_of_json l)
  | JDict d => PDict (map (λ kv, (PStr (fst kv), py_of_json (snd kv))) d)
  end.

(** [a + b] where [a] is a str: the right operand must be a str too. *)
Definition str_add (a : string) (b : json) : outcome string :=
  match b with
  | JStr s => Ok (a +:+ s)
  | _ => Raise TypeError
  end.

(** [needle in hay] on two strs. *)
Fixpoint str_contains (needle hay : string) : bool :=
  String.prefix needle hay
  || match hay with
     | EmptyString => false
     | String _ hay' => str_contains needle hay'
     end.

(** [all(f(c) for c in s)]. *)
Fixpoint string_forallb (f : ascii → bool) (s : string) : bool :=
  match s with
  | EmptyString => true
  | String c s' => f c && string_forallb f s'
  end.

(** ** Pages

    The view BeautifulSoup gives of a document: the [a] elements of
    [find_all("a")], the result list of [select] for each selector, and the
    text of each [script] element, all in document order. *)
Record element := Element {
  el_attrs : list (string * string);
  el_text : string
}.

Record page := Page {
  pg_anchors : list element;
  pg_select : string → list element;
  pg_scripts : list string
}.

Definition blank_page : page :=
  {| pg_anchors := []; pg_select := λ _, []; pg_scripts := [] |}.

(** ** Text sent to the console

    A printed line is a sequence of pieces: literal text, or [str(v)] of a
    value that is neither a str nor an int (its rendering is left
    symbolic). *)
Inductive piece :=
| Lit (s : string)
| Repr (v : json)
| ReprElements (l : list element).

(** ["{}".format(v)], that is [str(v)]. *)
Definition py_str (v : json) : list piece :=
  match v with
  | JStr s => [Lit s]
  | JInt n => [Lit (pretty n)]
  | _ => [Repr v]
  end.

Inductive out_event :=
| Print (line : list piece)
| Prompt (text : string).

(** [tag[attr]]: a missing attribute is a [KeyError]. *)
Fixpoint tag_getitem (attrs : list (string * string)) (attr : string) : outcome string :=
  match attrs with
  | [] => Raise (KeyError attr)
  | (k, v) :: attrs' => if String.eqb k attr then Ok v else tag_getitem attrs' attr
  end.

(** ** The world and the monad of effects *)

(** Open browser windows (by session number, with the page each one shows),
    the files on disk, the writes performed so far (oldest first), the
    console output (oldest first) and the lines still to be read from the
    console. *)
Record world := World {
  w_sessions : gmap nat page;
  w_files : gmap string string;
  w_written : list (string * string);
  w_out : list out_event;
  w_in : list string
}.

Definition M (A : Type) : Type := world → outcome A * world.

Definition M_ret_def {A} (a : A) : M A := λ w, (Ok a, w).

Definition M_bind_def {A B} (f : A → M B) (m : M A) : M B :=
  λ w, match m w with
       | (Ok a, w') => f a w'
       | (Raise e, w') => (Raise e, w')
       end.

#[global] Instance M_ret : MRet M := @M_ret_def.
#[global] Instance M_bind : MBind M := @M_bind_def.

Definition raise {A} (e : exn) : M A := λ w, (Raise e, w).

Definition lift {A} (o : outcome A) : M A := λ w, (o, w).

(** [try: body except E: handler] where [catches] recognises [E]. *)
Definition try_except {A} (body : M A) (catches : exn → bool) (handler : M A) : M A :=
  λ w, match body w with
       | (Ok a, w') => (Ok a, w')
       | (Raise e, w') => if catches e then handler w' else (Raise e, w')
       end.

Definition is_TypeError (e : exn) : bool :=
  match e with TypeError => true | _ => false end.

(** [print(...)] of one line. *)
Definition print (line : list piece) : M unit :=
  λ w, (Ok tt, {| w_sessions := w_sessions w; w_files := w_files w;
                  w_written := w_written w;
                  w_out := w_out w ++ [Print line]; w_in := w_in w |}).

(** [input(prompt)]: shows the prompt and reads one line. *)
Definition input (prompt : string) : M string :=
  λ w, let out := w_out w ++ [Prompt prompt] in
       match w_in w with
       | [] => (Raise EOFError,
                {| w_sessions := w_sessions w; w_files := w_files w;
                   w_written := w_written w; w_out := out; w_in := [] |})
       | line :: rest => (Ok line,
                {| w_sessions := w_sessions w; w_files := w_files w;
                   w_written := w_written w; w_out := out; w_in := rest |})
       end.

(** The paths that cannot be opened for writing: [open_error path] is the
    exception [open(path, "w")] raises, if it raises one.  It is a
    [FileNotFoundError] for the empty path and for a path in a directory
    that does not exist, an [IsADirectoryError] for the path of a
    directory, a [PermissionError] where writing is not allowed.  The
    program makes no directory and changes no permission, so the answer is
    the same all through a run. *)
Class Disk := { open_error : string → option exn }.

(** The world once the file at [path] holds [content]. *)
Definition put_file (path content : string) (w : world) : world :=
  {| w_sessions := w_sessions w;
     w_files := <[path := content]> (w_files w);
     w_written := w_written w ++ [(path, content)];
     w_out := w_out w; w_in := w_in w |}.

(** [f = open(path, "w"); f.write(content); f.close()]: [open] raises and
    nothing is written, or the file is replaced whole. *)
Definition write_file {disk : Disk} (path content : string) : M unit :=
  λ w, match open_error path with
       | Some e => (Raise e, w)
       | None => (Ok tt, put_file path content w)
       end.

(** [f = open(path); f.read()]. *)
Definition read_file (path : string) : M string :=
  λ w, match w_files w !! path with
       | Some content => (Ok content, w)
       | None => (Raise FileNotFoundError, w)
       end.

(** ** Browser windows (splinter) *)

(** The pages of the web: [web_get url] is the page a window shows after
    [visit(url)], or [None] when the visit fails. *)
Class Web := { web_get : string → option page }.

Definition with_sessions (s : gmap nat page) (w : world) : world :=
  {| w_sessions := s; w_files := w_files w; w_written := w_written w;
     w_out := w_out w; w_in := w_in w |}.

(** [Browser(headless=...)]: a new window, on the blank page. *)
Definition Browser : M nat :=
  λ w, let b := fresh (dom (w_sessions w)) in
       (Ok b, with_sessions (<[b := blank_page]> (w_sessions w)) w).

(** [browser.visit(url)]. *)
Definition visit {web : Web} (browser : nat) (url : string) : M unit :=
  λ w, match w_sessions w !! browser, web_get url with
       | Some _, Some p => (Ok tt, with_sessions (<[browser := p]> (w_sessions w)) w)
       | _, _ => (Raise WebDriverException, w)
       end.

(** [BSoup(browser.html, "html.parser")]. *)
Definition html (browser : nat) : M page :=
  λ w, match w_sessions w !! browser with
       | Some p => (Ok p, w)
       | None => (Raise WebDriverException, w)
       end.

(** [browser.quit()]. *)
Definition quit (browser : nat) : M unit :=
  λ w, (Ok tt, with_sessions (delete browser (w_sessions w)) w).

(** ** globals.py *)
Module globals.

Definition NULL_NAME_STRING : string := "NoNameFound".
Definition NULL_IMAGE_STRING : string := "NoImageURLFound".
Definition BASE_SITE : string := "https://www.flightclub.com".
Definition BASE_SEARCH_SITE : string := BASE_SITE +:+ "/catalogsearch/result/?q=".
Definition PRINT_INFO : bool := true.

Definition print_info (output : list piece) : M unit :=
  if PRINT_INFO
  then print ([Lit "-[---]- INFO: "; Lit " "] ++ output ++ [Lit " "; Lit " -[---]-"])
  else mret tt.

Definition print_warn (output : list piece) : M unit :=
  print ([Lit "-[!!!]- WARNING: "; Lit " "] ++ output ++ [Lit " "; Lit " -[!!!]-"]).

End globals.

(** ** shoepair.py *)
Module shoepair.
Section ShoePair.
Context {web : Web}.

(** An instance of [ShoePair]; [_excluded] is the class attribute. *)
Record ShoePair := mkShoePair { _name : string; _image : string }.

Definition _excluded : bool := false.
Definition is_excluded (self : ShoePair) : bool := _excluded.
Definition get_name (self : ShoePair) : string := _name self.
Definition get_image (self : ShoePair) : string := _image self.

(** The [for aelem in a_elements] loop of [_search]. *)
Fixpoint _search_loop (id : json) (browser : nat) (a_elements : list element) : M nat :=
  match a_elements with
  | [] => mret browser
  | aelem :: rest =>
      needle ← lift (str_add "-" id);
      href ← lift (tag_getitem (el_attrs aelem) "href");
      if str_contains needle href then
        nbrowser ← Browser;
        href' ← lift (tag_getitem (el_attrs aelem) "href");
        visit nbrowser href';;
        quit browser;;
        mret nbrowser
      else _search_loop id browser rest
  end.

Definition _search (id : json) : M nat :=
  globals.print_info (Lit "Searching for " :: py_str id);;
  browser ← Browser;
  url ← lift (str_add globals.BASE_SEARCH_SITE id);
  visit browser url;;
  bes ← html browser;
  _search_loop id browser (pg_anchors bes).

Definition _evaluate_soup_select (beautiful : page) (tag : string) : option element :=
  let elem := pg_select beautiful tag in
  match elem with
  | [] => None
  | e :: _ => Some e
  end.

(** The selector strings of [_get_shoe_image] and [_get_shoe_name]. *)
Definition image_selector : string :=
  "div[class='product-image product-img-box'] > img[class='product-img']".
Definition name_selector : string :=
  "div[class='mb-padding product-name hidden-phone'] > h1".

Definition _get_shoe_image (bs : nat) : M string :=
  soup ← html bs;
  let elem := _evaluate_soup_select soup image_selector in
  match elem with
  | None => mret globals.NULL_IMAGE_STRING
  | Some e => lift (tag_getitem (el_attrs e) "src")
  end.

Definition _get_shoe_name (bs : nat) : M string :=
  soup ← html bs;
  let sel_element := _evaluate_soup_select soup name_selector in
  match sel_element with
  | None => mret globals.NULL_NAME_STRING
  | Some e => mret (el_text e)
  end.

(** [ShoePair(id, excludetags)]. *)
Definition __init__ (id : json) (excludetags : list json) : M ShoePair :=
  brow ← _search id;
  name ← _get_shoe_name brow;
  image ← _get_shoe_image brow;
  globals.print_info [Lit "Constructed shoe with "; Lit "
Name: "; Lit name; Lit "
Img URL: "; Lit image];;
  quit brow;;
  mret {| _name := name; _image := image |}.

End ShoePair.
End shoepair.

(** ** The libraries behind generator.py *)

(** The flags of the [re] module that the program names. *)
Module re.
Definition IGNORECASE : Z := 2.
End re.

(** The [re] engine: [re_valid p] tells whether [p] compiles as a pattern,
    and for a pattern that does, [re_found p s flags] tells whether
    [re.search(p, s, flags)] returns a match.  With the flag
    [re.IGNORECASE] the letters of the pattern match in either case. *)
Class Regex := {
  re_valid : string → bool;
  re_found : string → string → Z → bool
}.

(** The truth value of [re.search(pattern, text, flags)]: a pattern that is
    not a str, or a text that is not a str, is a [TypeError]; a str that
    does not compile is an [re.error]. *)
Definition re_search {regex : Regex} (pattern text : json) (flags : Z) : outcome bool :=
  match pattern with
  | JStr p =>
      if re_valid p then
        match text with
        | JStr s => Ok (re_found p s flags)
        | _ => Raise TypeError
        end
      else Raise ReError
  | _ => Raise TypeError
  end.

(** The [json] codec: [json_dumps v] is the text [json.dumps] and
    [json.dump] write for [v]; [json_loads s] is [None] when decoding
    fails; [json_dump_left obj] is the text [json.dump(obj, f)] has written
    to [f] when it raises a [TypeError], for a value it cannot write. *)
Class JsonCodec := {
  json_dumps : json → string;
  json_loads : string → option json;
  json_dump_left : pyobj → string
}.

(** The key [json.dump] writes for a key of a dict: a str as it is, a
    float, a bool, [None] and an int as their JSON texts; any other key is
    a [TypeError]. *)
Definition dict_key {codec : JsonCodec} (key : pyobj) : option string :=
  match key with
  | PStr s => Some s
  | PFloat f => Some (json_dumps (JFloat f))
  | PBool true => Some "true"
  | PBool false => Some "false"
  | PNone => Some "null"
  | PInt n => Some (pretty n)
  | _ => None
  end.

(** The document [json.dump] writes for a value: a tuple as a list, the
    keys of a dict as strs; [None] when it raises a [TypeError], on a
    complex number, bytes, [Ellipsis], a set or a key it cannot write,
    wherever in the value. *)
Fixpoint json_of {codec : JsonCodec} (obj : pyobj) : option json :=
  match obj with
  | PNone => Some JNull
  | PBool b => Some (JBool b)
  | PInt n => Some (JInt n)
  | PFloat f => Some (JFloat f)
  | PStr s => Some (JStr s)
  | PList l | PTuple l =>
      JList <$> (fix items (l : list pyobj) : option (list json) :=
                   match l with
                   | [] => Some []
                   | o :: l' => v ← json_of o; vs ← items l'; Some (v :: vs)
                   end) l
  | PDict d =>
      JDict <$> (fix members (d : list (pyobj * pyobj)) : option (list (string * json)) :=
                   match d with
                   | [] => Some []
                   | (k, o) :: d' =>
                       key ← dict_key k; v ← json_of o; kvs ← members d';
                       Some ((key, v) :: kvs)
                   end) d
  | PComplex _ _ | PBytes _ | PEllipsis | PSet _ => None
  end.

(** [f = open(path, "w"); json.dump(obj, f); f.close()]: [open] raises and
    nothing is written; or the file is replaced by the text of [obj]; or
    [json.dump] raises a [TypeError] on a value it cannot write, and the
    file, emptied by [open], is left with what was written until then. *)
Definition dump_file {disk : Disk} {codec : JsonCodec} (path : string) (obj : pyobj)
    : M unit :=
  λ w, match open_error path with
       | Some e => (Raise e, w)
       | None =>
           match json_of obj with
           | Some v => (Ok tt, put_file path (json_dumps v) w)
           | None => (Raise TypeError, put_file path (json_dump_left obj) w)
           end
       end.

Definition loads {codec : JsonCodec} (s : string) : M json :=
  match json_loads s with
  | Some v => mret v
  | None => raise JSONDecodeError
  end.

(** [int(s)] and [ast.literal_eval(s)] on a str. *)
Class Readers := {
  py_int : string → outcome Z;
  literal_eval : string → outcome pyobj
}.

(** [regex.search(text)] for the pattern ['impressions': \[(.*?)\]] of
    [get_impressions_list], returning group 1.  After the literal prefix, the
    lazy group takes characters other than a newline up to the first closing
    bracket. *)
Fixpoint lazy_group_until_bracket (s : string) : option string :=
  match s with
  | EmptyString => None
  | String c s' =>
      if Ascii.eqb c "]" then Some EmptyString
      else if Ascii.eqb c "010" then None
      else String c <$> lazy_group_until_bracket s'
  end.

Definition impressions_prefix : string := "'impressions': [".

(** What the lazy group can hold: no closing bracket (it stops at the first
    one) and no newline (the dot does not match it). *)
Definition group_char (c : ascii) : bool :=
  negb (Ascii.eqb c "]") && negb (Ascii.eqb c "010").

Definition not_newline (c : ascii) : bool := negb (Ascii.eqb c "010").

Fixpoint drop_string (n : nat) (s : string) : string :=
  match n, s with
  | O, _ => s
  | S n', EmptyString => EmptyString
  | S n', String _ s' => drop_string n' s'
  end.

Definition impressions_match_here (s : string) : option string :=
  if String.prefix impressions_prefix s
  then lazy_group_until_bracket (drop_string (String.length impressions_prefix) s)
  else None.

Fixpoint impressions_regex_search (s : string) : option string :=
  match impressions_match_here s with
  | Some group1 => Some group1
  | None =>
      match s with
      | EmptyString => None
      | String _ s' => impressions_regex_search s'
      end
  end.

(** ** Values of any type, where the code expects a list or a number

    The values [execute] takes from a descriptor, and the catalog it takes
    from the page, have the types the file gave them. *)

(** The items [for x in v] goes through: the elements of a list, the
    characters of a str, the keys of a dict; any other value is not
    iterable. *)
Definition py_iter (v : json) : outcome (list json) :=
  match v with
  | JList l => Ok l
  | JStr s => Ok ((λ c, JStr (String c EmptyString)) <$> String.list_ascii_of_string s)
  | JDict d => Ok (JStr <$> d.*1)
  | _ => Raise TypeError
  end.

(** The float [1.0]; Python floats are binary64. *)
Definition float_one : spec_float := SFone 53 1024.

(** [v - 1]: a bool counts as the int 0 or 1. *)
Definition py_minus_one (v : json) : outcome json :=
  match v with
  | JInt n => Ok (JInt (n - 1))
  | JBool b => Ok (JInt (Z.b2z b - 1))
  | JFloat f => Ok (JFloat (SFsub 53 1024 f float_one))
  | _ => Raise TypeError
  end.

(** [v += 1]. *)
Definition py_plus_one (v : json) : outcome json :=
  match v with
  | JInt n => Ok (JInt (n + 1))
  | JBool b => Ok (JInt (Z.b2z b + 1))
  | JFloat f => Ok (JFloat (SFadd 53 1024 f float_one))
  | _ => Raise TypeError
  end.

(** [py_repr v] is [repr(v)], the text [str(v)] gives for a float, a list
    or a dict. *)
Class Reprs := { py_repr : json → string }.

(** [str(v)] as a text. *)
Definition str_text {reprs : Reprs} (v : json) : string :=
  match v with
  | JStr s => s
  | JInt n => pretty n
  | JNull => "None"
  | JBool true => "True"
  | JBool false => "False"
  | _ => py_repr v
  end.

(** [requests_get url] is the document
    [BSoup(requests.get(url).text, "html.parser")] when the request
    succeeds and [raise_for_status()] accepts its status, and otherwise the
    exception that [requests.get] or [raise_for_status] raises. *)
Class Http := { requests_get : json → outcome page }.

(** [decode_error_text s] is [str(je)] for the [JSONDecodeError] that
    [json.loads(s)] raises. *)
Class DecodeErrors := { decode_error_text : string → string }.

Definition is_JSONDecodeError (e : exn) : bool :=
  match e with JSONDecodeError => true | _ => false end.

(** ** generator.py *)
Module generator.
Section Generator.
Context {web : Web} {regex : Regex} {codec : JsonCodec} {readers : Readers}
        {disk : Disk}.

(** The [for etag in excludetags] loop of [create_shoe_pair]; [after] is the
    code that follows the loop. *)
Fixpoint create_shoe_pair_loop (name : json) (excludetags : list json)
    (after : M (option shoepair.ShoePair)) : M (option shoepair.ShoePair) :=
  match excludetags with
  | [] => after
  | etag :: rest =>
      found ← lift (re_search etag name re.IGNORECASE);
      if found : bool then
        globals.print_info
          ([Lit "Excluding '"] ++ py_str name ++ [Lit "', found with tag "] ++ py_str etag);;
        mret None
      else create_shoe_pair_loop name rest after
  end.

Definition create_shoe_pair (idobj : json) (excludetags : list json)
    : M (option shoepair.ShoePair) :=
  name ← lift (getitem idobj "name");
  create_shoe_pair_loop name excludetags
    (id ← lift (getitem idobj "id");
     shoe_pair ← shoepair.__init__ id excludetags;
     mret (Some shoe_pair)).

Definition create_file (dname name shoename imgval : string) : M unit :=
  write_file (dname +:+ name +:+ ".json")
    (json_dumps (JDict [("name", JStr shoename); ("img", JStr imgval)])).

(** The [for shoe in shoelist] loop of [create_all_files]. *)
Fixpoint create_all_files_loop (directory : string) (excludetags : list json)
    (shoelist : list json) (current_filenum : Z) : M Z :=
  match shoelist with
  | [] => mret current_filenum
  | shoe :: rest =>
      shoe_pair ← create_shoe_pair shoe excludetags;
      match shoe_pair with
      | Some shoe_pair =>
          let current_filenum := (current_filenum + 1)%Z in
          create_file directory (pretty current_filenum)
            (shoepair.get_name shoe_pair) (shoepair.get_image shoe_pair);;
          globals.print_info
            [Lit "Created file "; Lit (pretty current_filenum); Lit ".json"];;
          create_all_files_loop directory excludetags rest current_filenum
      | None => create_all_files_loop directory excludetags rest current_filenum
      end
  end.

Definition create_all_files (directory : string) (shoelist : list json)
    (excludetags : list json) (startnum : Z) : M Z :=
  create_all_files_loop directory excludetags shoelist (startnum - 1)%Z.

Definition impressions_fallback : json := JList [JDict [("name", JStr "NULL")]].

Definition get_impressions_list (bsoup : page) : M json :=
  let script_tag :=
    List.find (λ text, bool_decide (is_Some (impressions_regex_search text)))
              (pg_scripts bsoup) in
  match script_tag with
  | Some script_text =>
      match impressions_regex_search script_text with
      | Some group1 =>
          globals.print_info [Lit ("Found impressions list: " +:+ group1)];;
          loads ("[" +:+ group1 +:+ "]")
      | None => mret impressions_fallback
      end
  | None => mret impressions_fallback
  end.

Definition create_execution_file (name site dir : string) (exclude_list : pyobj)
    (start : Z) : M unit :=
  dump_file name
    (PDict [(PStr "site", PStr site); (PStr "dir", PStr dir);
            (PStr "exclude_list", exclude_list); (PStr "start", PInt start)]).

Definition read_execution_file (path : string) : M (string * option json) :=
  content ← read_file path;
  loaded ← loads content;
  print ([Lit "Loaded JSON: "; Lit " "] ++ py_str loaded);;
  match loaded with
  | JDict d =>
      if negb (dict_has "site" d) then mret ("Missing site value", None)
      else if negb (dict_has "dir" d) then mret ("Missing dir value", None)
      else if negb (dict_has "exclude_list" d) then mret ("Missing exclude_list value", None)
      else if negb (dict_has "start" d) then mret ("Missing start value", None)
      else mret ("", Some loaded)
  | _ => mret ("Loaded JSON should be a dict ( {} )!", None)
  end.

Definition prompt_execution_values : M unit :=
  ej_name ← input "Path to write to: ";
  site_dir ← input ("Site directory: " +:+ globals.BASE_SITE +:+ "/");
  let site := globals.BASE_SITE +:+ "/" +:+ site_dir in
  dir ← input "Directory to place shoe files: ";
  let dir := if String.eqb dir "" then "./" else dir in
  use_tags ← input "Use exclude tags (in list format e.g. '['a', 'b']? [y/N ]: ";
  exclude_list ←
    (if String.eqb use_tags "y" then
       tags ← input "List of exclude tags (separated by comma, requires quotations): ";
       lift (literal_eval ("[" +:+ tags +:+ "]"))
     else mret (PList []));
  start ←
    try_except
      (number ← input "Starting file number: "; lift (py_int number))
      is_TypeError
      (globals.print_warn [Lit "Invalid value, defaulting to 1"];; mret 1%Z);
  create_execution_file ej_name site dir exclude_list start.

(** *** Calls with arguments of any type

    [create_shoe_pair] and [create_all_files] above take their tags as a
    list and their numbers as ints, the types their signatures name, and
    [create_execution_file] the tags the prompt read and an int.
    [execute] and the script of jordans.py hand them what a descriptor
    file holds; the definitions below follow the same source lines for
    arguments of any type. *)
Context {http : Http} {reprs : Reprs} {decode_errors : DecodeErrors}.

Definition create_shoe_pair_dyn (idobj excludetags : json)
    : M (option shoepair.ShoePair) :=
  name ← lift (getitem idobj "name");
  tags ← lift (py_iter excludetags);
  create_shoe_pair_loop name tags
    (id ← lift (getitem idobj "id");
     shoe_pair ← shoepair.__init__ id tags;
     mret (Some shoe_pair)).

Fixpoint create_all_files_dyn_loop (directory : string) (excludetags : json)
    (shoelist : list json) (current_filenum : json) : M json :=
  match shoelist with
  | [] => mret current_filenum
  | shoe :: rest =>
      shoe_pair ← create_shoe_pair_dyn shoe excludetags;
      match shoe_pair with
      | Some shoe_pair =>
          current_filenum ← lift (py_plus_one current_filenum);
          create_file directory (str_text current_filenum)
            (shoepair.get_name shoe_pair) (shoepair.get_image shoe_pair);;
          globals.print_info
            [Lit "Created file "; Lit (str_text current_filenum); Lit ".json"];;
          create_all_files_dyn_loop directory excludetags rest current_filenum
      | None => create_all_files_dyn_loop directory excludetags rest current_filenum
      end
  end.

Definition create_all_files_dyn (directory : string) (shoelist excludetags startnum : json)
    : M json :=
  current_filenum ← lift (py_minus_one startnum);
  shoes ← lift (py_iter shoelist);
  create_all_files_dyn_loop directory excludetags shoes current_filenum.

Definition create_execution_file_dyn (name site dir : string) (exclude_list start : json)
    : M unit :=
  dump_file name
    (PDict [(PStr "site", PStr site); (PStr "dir", PStr dir);
            (PStr "exclude_list", py_of_json exclude_list);
            (PStr "start", py_of_json start)]).

(** *** execute *)

(** The [else] branch of [execute]: [inl r] when the call returns [r]
    there, [inr loaded] when it goes on with the descriptor.  The source
    asks for the path inside the [try]; [input] raises no
    [JSONDecodeError], so the handler is attached to the call that can.
    The handler shows the message of the exception, a function of the text
    that did not decode, which it finds in the file. *)
Definition execute_load (expath : option string) : M (json + json) :=
  expath ← match expath with
            | None => input "Path to execution JSON: "
            | Some path => mret path
            end;
  try_except
    (r ← read_execution_file expath;
     if negb (String.eqb r.1 "") then
       print [Lit "Error with execution JSON: "; Lit " "; Lit r.1];;
       mret (inl (JBool false))
     else mret (inr (default JNull r.2)))
    is_JSONDecodeError
    (text ← read_file expath;
     print [Lit "JSON Decode Error: "; Lit " "; Lit (decode_error_text text)];;
     mret (inl (JBool false))).

(** The code of [execute] from [print_info("Retrieving site...")] on. *)
Definition execute_generate (loaded : json) : M json :=
  globals.print_info [Lit "Retrieving site..."];;
  site ← lift (getitem loaded "site");
  list_soup ← lift (requests_get site);
  globals.print_info [Lit "Starting generation..."];;
  dir ← lift (getitem loaded "dir");
  shoelist ← get_impressions_list list_soup;
  exclude_list ← lift (getitem loaded "exclude_list");
  start ← lift (getitem loaded "start");
  lf ← create_all_files_dyn (str_text dir) shoelist exclude_list start;
  mret (JList [lf; JBool true]).

(** The body of [execute(expath)], where [nested] stands for the call
    [execute()] it makes after creating a descriptor.  The value returned
    is [False] or the list [[lf, True]]. *)
Definition execute_with (nested : M json) (expath : option string) : M json :=
  print [Lit "Guess Your Sneaker File Generator."];;
  gen_json ← match expath with
              | None =>
                  answer ← input "Create execution JSON file? [y/N]: ";
                  mret (if negb (String.eqb answer "y") then false else true)
              | Some _ => mret false
              end;
  early ← (if gen_json : bool then
             prompt_execution_values;;
             nested;;
             mret (inr JNull)
           else execute_load expath);
  match early with
  | inl returned => mret returned
  | inr loaded => execute_generate loaded
  end.

(** [execute(expath)], with room for [depth] nested calls of itself.  A
    nested call starts after a line has been read from the console, so a
    call with as much room as the console has lines never runs out of it
    ([execute_loop_room] below); the interpreter's own limit on nested
    calls is not modelled. *)
Fixpoint execute_loop (depth : nat) (expath : option string) : M json :=
  execute_with
    match depth with
    | O => raise EOFError
    | S depth' => execute_loop depth' None
    end
    expath.

Definition execute (expath : option string) : M json :=
  λ w, execute_loop (length (w_in w)) expath w.

End Generator.
End generator.

(** ** run.py *)
Module run.
Section Run.
Context {web : Web} {regex : Regex} {codec : JsonCodec} {readers : Readers}
        {disk : Disk} {http : Http} {reprs : Reprs} {decode_errors : DecodeErrors}.

(** The script, started with the command line [argv]. *)
Definition main (argv : list string) : M json :=
  match argv with
  | _ :: path :: _ => generator.execute (Some path)
  | _ => generator.execute None
  end.

End Run.
End run.

(** ** jordans.py *)
Module jordans.
Section Jordans.
Context {web : Web} {regex : Regex} {codec : JsonCodec} {readers : Readers}
        {disk : Disk} {http : Http} {reprs : Reprs} {decode_errors : DecodeErrors}.

Definition within_range (num minimum maximum : Z) : bool :=
  if (minimum <=? num)%Z && (num <=? maximum)%Z then true else false.

(** The text of [JORDANS_SITE] before its [{}], which ends it. *)
Definition JORDANS_SITE : string := "https://www.flightclub.com/air-jordans/air-jordan-".

(** [try: body except ...: handler].  The expression after [except] is the
    [Ellipsis] object, which is no exception class: when [body] raises,
    matching the exception against it raises a [TypeError], and [handler]
    does not run. *)
Definition try_except_Ellipsis {A} (body : M A) (handler : M unit) : M A :=
  λ w, match body w with
       | (Ok a, w') => (Ok a, w')
       | (Raise _, w') => (Raise TypeError, w')
       end.

(** [range(start, stop)]. *)
Definition range (start stop : Z) : list Z :=
  (λ i, (start + Z.of_nat i)%Z) <$> seq 0 (Z.to_nat (stop - start)).

(** The [for brand_num in range(...)] loop. *)
Fixpoint brands_loop (path : string) (loaded : json) (brands : list Z)
    (last_file_number : json) : M unit :=
  match brands with
  | [] => mret tt
  | brand_num :: rest =>
      globals.print_info
        [Lit "Preparing to generate next shoe files for Air Jordans ";
         Lit (pretty brand_num)];;
      dir ← lift (getitem loaded "dir");
      exclude_list ← lift (getitem loaded "exclude_list");
      generator.create_execution_file_dyn path (JORDANS_SITE +:+ pretty brand_num)
        (str_text dir) exclude_list last_file_number;;
      result ← generator.execute (Some path);
      unpacked ← lift (py_iter result);
      match unpacked with
      | [lf; success] =>
          last_file_number ← lift (py_plus_one lf);
          brands_loop path loaded rest last_file_number
      | _ => raise ValueError
      end
  end.

(** The script.  [raise None] raises a [TypeError], as [None] is no
    exception. *)
Definition main : M unit :=
  print [Lit "Air Jordans GYS shoe file generator."];;
  asked ← try_except_Ellipsis
    (low ← input "Min Jordans brand #(1-23): ";
     min_jordans ← lift (py_int low);
     high ← input "Max Jordans brand #(1-23): ";
     max_jordans ← lift (py_int high);
     (if negb (within_range min_jordans 1 23) || negb (within_range max_jordans 1 23)
         || (max_jordans <? min_jordans)%Z
      then raise TypeError else mret tt);;
     path ← input "Execution JSON file to use and modify: ";
     r ← generator.read_execution_file path;
     mret (min_jordans, max_jordans, path, r.2))
    (print [Lit "Error encountered, not dealing with it right now!"]);
  let '(min_jordans, max_jordans, path, loaded) := asked in
  start ← input "Starting file #: ";
  last_file_number ← lift (py_int start);
  brands_loop path (default JNull loaded) (range min_jordans (max_jordans + 1))
    (JInt last_file_number).

End Jordans.
End jordans.

(** ** gys-generator.py: the exclusion filter and the resolver it calls *)
Module gys_generator.
Section GysGenerator.
Context {web : Web} {regex : Regex}.

Definition NULL_NAME_STRING : string := "NoNameFound".
Definition NULL_IMAGE_STRING : string := "NoImageURLFound".
Definition BASE_SITE : string := "https://www.flightclub.com".
Definition BASE_SEARCH_SITE : string := BASE_SITE +:+ "/catalogsearch/result/?q=".
Definition PRINT_INFO : bool := true.

Definition print_info (output : list piece) : M unit :=
  if PRINT_INFO
  then print ([Lit "-[---]- INFO: "; Lit " "] ++ output ++ [Lit " "; Lit " -[---]-"])
  else mret tt.

Record ShoePair := mkShoePair { _name : string; _image : string }.

Definition _search (id : json) : M nat :=
  browser ← Browser;
  url ← lift (str_add BASE_SEARCH_SITE id);
  visit browser url;;
  mret browser.

(** [print(elem)] shows the list of selected elements. *)
Definition _evaluate_soup_select (beautiful : page) (tag : string) : M (option element) :=
  let elem := pg_select beautiful tag in
  print [ReprElements elem];;
  match elem with
  | [] => mret None
  | e :: _ => mret (Some e)
  end.

Definition _get_shoe_image (bs : nat) : M string :=
  soup ← html bs;
  elem ← _evaluate_soup_select soup "img[class='product-img']";
  match elem with
  | None => mret NULL_IMAGE_STRING
  | Some e => lift (tag_getitem (el_attrs e) "src")
  end.

Definition _get_shoe_name (bs : nat) : M string :=
  soup ← html bs;
  sel_element ← _evaluate_soup_select soup "p[class='result-title text-ellipsis']";
  match sel_element with
  | None => mret NULL_NAME_STRING
  | Some e => mret (el_text e)
  end.

Definition __init__ (id : json) (excludetags : list json) : M ShoePair :=
  brow ← _search id;
  name ← _get_shoe_name brow;
  image ← _get_shoe_image brow;
  print_info [Lit "Constructed shoe with "; Lit "
Name: "; Lit name; Lit "
Img URL: "; Lit image];;
  quit brow;;
  mret {| _name := name; _image := image |}.

Fixpoint create_shoe_pair_loop (name : json) (excludetags : list json)
    (after : M (option ShoePair)) : M (option ShoePair) :=
  match excludetags with
  | [] => after
  | etag :: rest =>
      found ← lift (re_search etag name re.IGNORECASE);
      if found : bool then
        print_info
          ([Lit "Excluding '"] ++ py_str name ++ [Lit "', found with tag "] ++ py_str etag);;
        mret None
      else create_shoe_pair_loop name rest after
  end.

Definition create_shoe_pair (idobj : json) (excludetags : list json)
    : M (option ShoePair) :=
  name ← lift (getitem idobj "name");
  create_shoe_pair_loop name excludetags
    (shoe_pair ← __init__ name excludetags;
     mret (Some shoe_pair)).

(** *** The rest of gys-generator.py

    The functions below the exclusion filter.  [execute] hands
    [create_all_files] what the descriptor file holds, so the tags and the
    catalog are values of any type here; the start number is always the
    default 1. *)
Context {codec : JsonCodec} {readers : Readers} {disk : Disk}
        {http : Http} {reprs : Reprs} {decode_errors : DecodeErrors}.

Definition _excluded : bool := false.
Definition is_excluded (self : ShoePair) : bool := _excluded.
Definition get_name (self : ShoePair) : string := _name self.
Definition get_image (self : ShoePair) : string := _image self.

Definition create_shoe_pair_dyn (idobj excludetags : json) : M (option ShoePair) :=
  name ← lift (getitem idobj "name");
  tags ← lift (py_iter excludetags);
  create_shoe_pair_loop name tags
    (shoe_pair ← __init__ name tags;
     mret (Some shoe_pair)).

Definition create_file (dname name shoename imgval : string) : M unit :=
  write_file (dname +:+ name +:+ ".json")
    (json_dumps (JDict [("name", JStr shoename); ("img", JStr imgval)])).

Fixpoint create_all_files_loop (directory : string) (excludetags : json)
    (shoelist : list json) (current_filenum : Z) : M unit :=
  match shoelist with
  | [] => mret tt
  | shoe :: rest =>
      shoe_pair ← create_shoe_pair_dyn shoe excludetags;
      match shoe_pair with
      | Some shoe_pair =>
          let current_filenum := (current_filenum + 1)%Z in
          create_file directory (pretty current_filenum)
            (get_name shoe_pair) (get_image shoe_pair);;
          print_info [Lit "Created file "; Lit (pretty current_filenum); Lit ".json"];;
          create_all_files_loop directory excludetags rest current_filenum
      | None => create_all_files_loop directory excludetags rest current_filenum
      end
  end.

Definition create_all_files (directory : string) (shoelist excludetags : json)
    (startnum : Z) : M unit :=
  let current_filenum := (startnum - 1)%Z in
  shoes ← lift (py_iter shoelist);
  create_all_files_loop directory excludetags shoes current_filenum.

Definition get_impressions_list (bsoup : page) : M json :=
  let script_tag :=
    List.find (λ text, bool_decide (is_Some (impressions_regex_search text)))
              (pg_scripts bsoup) in
  match script_tag with
  | Some script_text =>
      match impressions_regex_search script_text with
      | Some group1 =>
          print_info [Lit ("Found impressions list: " +:+ group1)];;
          loads ("[" +:+ group1 +:+ "]")
      | None => mret (JList [JDict [("name", JStr "NULL")]])
      end
  | None => mret (JList [JDict [("name", JStr "NULL")]])
  end.

Definition create_execution_file (name site dir : string) (exclude_list : pyobj) : M unit :=
  dump_file name
    (PDict [(PStr "site", PStr site); (PStr "dir", PStr dir);
            (PStr "exclude_list", exclude_list)]).

Definition read_execution_file (path : string) : M (string * option json) :=
  content ← read_file path;
  loaded ← loads content;
  print ([Lit "Loaded JSON: "; Lit " "] ++ py_str loaded);;
  let site_check := false in
  let dir_check := false in
  let excludelist_check := false in
  match loaded with
  | JDict d =>
      let site_check := if dict_has "site" d then true else site_check in
      let dir_check := if dict_has "dir" d then true else dir_check in
      let excludelist_check :=
        if dict_has "exclude_list" d then true else excludelist_check in
      if negb site_check then mret ("Missing site value", None)
      else if negb dir_check then mret ("Missing dir value", None)
      else if negb excludelist_check then mret ("Missing exclude_list value", None)
      else mret ("", Some loaded)
  | _ => mret ("Loaded JSON should be a dict ( {} )!", None)
  end.

Definition prompt_execution_values : M unit :=
  ej_name ← input "Path to write to: ";
  site_dir ← input ("Site directory: " +:+ BASE_SITE +:+ "/");
  let site := BASE_SITE +:+ "/" +:+ site_dir in
  dir ← input "Directory to place shoe files: ";
  let dir := if String.eqb dir "" then "./" else dir in
  use_tags ← input "Use exclude tags (in list format e.g. '['a', 'b']? [y/N ]: ";
  exclude_list ←
    (if String.eqb use_tags "y" then
       tags ← input "List of exclude tags (separated by comma, requires quotations): ";
       lift (literal_eval ("[" +:+ tags +:+ "]"))
     else mret (PList []));
  create_execution_file ej_name site dir exclude_list.

(** The [else] branch of [execute]: the values of [execute_again] and
    [loaded] after it.  As in generator.py, the handler is attached to
    the call that can raise a [JSONDecodeError], and finds the text that
    did not decode in the file. *)
Definition execute_load : M (bool * json) :=
  path ← input "Path to read execution JSON: ";
  try_except
    (r ← read_execution_file path;
     if negb (String.eqb r.1 "") then
       print [Lit "Error with execution JSON: "; Lit " "; Lit r.1];;
       mret (true, default JNull r.2)
     else mret (false, default JNull r.2))
    is_JSONDecodeError
    (text ← read_file path;
     print [Lit "JSON Decode Error: "; Lit " "; Lit (decode_error_text text)];;
     mret (false, JNull)).

Definition execute_generate (loaded : json) : M unit :=
  print_info [Lit "Retrieving site..."];;
  site ← lift (getitem loaded "site");
  list_soup ← lift (requests_get site);
  print_info [Lit "Starting generation..."];;
  dir ← lift (getitem loaded "dir");
  shoelist ← get_impressions_list list_soup;
  exclude_list ← lift (getitem loaded "exclude_list");
  create_all_files (str_text dir) shoelist exclude_list 1.

(** The body of [execute()], where [nested] stands for the call of itself
    it ends with when [execute_again] is set. *)
Definition execute_with (nested : M unit) : M unit :=
  print [Lit "Guess Your Sneaker File Generator."];;
  answer ← input "Create execution JSON file? [y/N]: ";
  let gen_json := if negb (String.eqb answer "y") then false else true in
  state ← (if gen_json then
             prompt_execution_values;;
             mret (true, JNull)
           else execute_load);
  if state.1 : bool then nested else execute_generate state.2.

(** [execute()], with room for [depth] nested calls of itself; every call
    reads a line from the console before it calls itself, so a call with
    as much room as the console has lines never runs out of it
    ([gys_execute_loop_room] below). *)
Fixpoint execute_loop (depth : nat) : M unit :=
  execute_with
    match depth with
    | O => raise EOFError
    | S depth' => execute_loop depth'
    end.

Definition execute : M unit :=
  λ w, execute_loop (length (w_in w)) w.

End GysGenerator.
End gys_generator.

(** ** Sample libraries

    Implementations of the library interfaces, used to run the program on
    concrete inputs.  Each one covers a documented part of what the Python
    library accepts and is only applied within that part. *)
Module sample.

(** *** A regular-expression engine for plain patterns

    A pattern made of ASCII letters, digits and spaces has no
    metacharacter: searching it in ASCII text is a substring search, and
    with the flag [re.IGNORECASE], the bit of value 2, one that takes a
    letter in either case.  This engine compiles those patterns and no
    other. *)
Definition is_plain_char (c : ascii) : bool :=
  let n := N_of_ascii c in
  ((48 <=? n) && (n <=? 57) || (65 <=? n) && (n <=? 90)
   || (97 <=? n) && (n <=? 122) || (n =? 32))%N.

Definition lower_char (c : ascii) : ascii :=
  let n := N_of_ascii c in
  if ((65 <=? n) && (n <=? 90))%N then ascii_of_N (n + 32) else c.

Fixpoint lower (s : string) : string :=
  match s with
  | EmptyString => EmptyString
  | String c s' => String (lower_char c) (lower s')
  end.

#[export] Instance plain_regex : Regex := {|
  re_valid p := string_forallb is_plain_char p;
  re_found p s flags :=
    if Z.testbit flags 1 then str_contains (lower p) (lower s) else str_contains p s
|}.

(** *** A JSON codec for documents without floats

    [dumps] writes what [json.dumps] writes with its default separators and
    [ensure_ascii]; [loads] reads objects, lists, strs, ints, [true],
    [false] and [null].  A character of a str stands for the code point of
    the same number; escapes above code point 255 and numbers with a fraction or
    an exponent are outside this codec, and it writes every float as
    [NaN]. *)
Definition quote_char : ascii := "034".
Definition backslash_char : ascii := "092".

Definition hex_digit (n : N) : ascii :=
  if (n <? 10)%N then ascii_of_N (48 + n) else ascii_of_N (87 + n).

Definition escape_char (c : ascii) : string :=
  let n := N_of_ascii c in
  if Ascii.eqb c quote_char then String backslash_char (String quote_char EmptyString)
  else if Ascii.eqb c backslash_char then String backslash_char (String backslash_char EmptyString)
  else if (n =? 10)%N then String backslash_char "n"
  else if (n =? 13)%N then String backslash_char "r"
  else if (n =? 9)%N then String backslash_char "t"
  else if (n =? 8)%N then String backslash_char "b"
  else if (n =? 12)%N then String backslash_char "f"
  else if ((n <? 32) || (126 <? n))%N then
    String backslash_char
      ("u00" +:+ String (hex_digit (n / 16)) (String (hex_digit (n mod 16)) EmptyString))
  else String c EmptyString.

Fixpoint escape_string (s : string) : string :=
  match s with
  | EmptyString => EmptyString
  | String c s' => escape_char c +:+ escape_string s'
  end.

Definition dumps_str (s : string) : string :=
  String quote_char (escape_string s +:+ String quote_char EmptyString).

Fixpoint join (sep : string) (parts : list string) : string :=
  match parts with
  | [] => EmptyString
  | [p] => p
  | p :: rest => p +:+ sep +:+ join sep rest
  end.

Fixpoint dumps (v : json) : string :=
  match v with
  | JNull => "null"
  | JBool true => "true"
  | JBool false => "false"
  | JInt n => pretty n
  | JFloat _ => "NaN"
  | JStr s => dumps_str s
  | JList l => "[" +:+ join ", " (map dumps l) +:+ "]"
  | JDict d =>
      "{" +:+ join ", " (map (λ kv, dumps_str (fst kv) +:+ ": " +:+ dumps (snd kv)) d) +:+ "}"
  end.

Definition is_ws (c : ascii) : bool :=
  let n := N_of_ascii c in ((n =? 32) || (n =? 9) || (n =? 10) || (n =? 13))%N.

Fixpoint skip_ws (s : string) : string :=
  match s with
  | String c s' => if is_ws c then skip_ws s' else s
  | EmptyString => EmptyString
  end.

Definition hex_value (c : ascii) : option N :=
  let n := N_of_ascii c in
  if ((48 <=? n) && (n <=? 57))%N then Some (n - 48)%N
  else if ((97 <=? n) && (n <=? 102))%N then Some (n - 87)%N
  else if ((65 <=? n) && (n <=? 70))%N then Some (n - 55)%N
  else None.

Definition unescape (c : ascii) : option ascii :=
  if Ascii.eqb c quote_char then Some quote_char
  else if Ascii.eqb c backslash_char then Some backslash_char
  else if Ascii.eqb c "/" then Some "/"%char
  else if Ascii.eqb c "n" then Some "010"%char
  else if Ascii.eqb c "r" then Some "013"%char
  else if Ascii.eqb c "t" then Some "009"%char
  else if Ascii.eqb c "b" then Some "008"%char
  else if Ascii.eqb c "f" then Some "012"%char
  else None.

(** The characters of a str after its opening quote, up to the closing
    quote; the result is the str and the text that follows it. *)
Fixpoint loads_str_body (s : string) : option (string * string) :=
  match s with
  | EmptyString => None
  | String c s' =>
      if Ascii.eqb c quote_char then Some (EmptyString, s')
      else if Ascii.eqb c backslash_char then
        match s' with
        | String e s'' =>
            if Ascii.eqb e "u" then
              match s'' with
              | String h1 (String h2 (String h3 (String h4 s3))) =>
                  match hex_value h1, hex_value h2, hex_value h3, hex_value h4 with
                  | Some 0%N, Some 0%N, Some a, Some b =>
                      '(body, rest) ← loads_str_body s3;
                      Some (String (ascii_of_N (16 * a + b)) body, rest)
                  | _, _, _, _ => None
                  end
              | _ => None
              end
            else
              d ← unescape e;
              '(body, rest) ← loads_str_body s'';
              Some (String d body, rest)
        | EmptyString => None
        end
      else if (N_of_ascii c <? 32)%N then None
      else '(body, rest) ← loads_str_body s'; Some (String c body, rest)
  end.

Definition is_digit (c : ascii) : bool :=
  let n := N_of_ascii c in ((48 <=? n) && (n <=? 57))%N.

(** The digits at the head of a text, as a number, and what follows. *)
Fixpoint loads_digits (acc : Z) (s : string) : Z * string :=
  match s with
  | String c s' =>
      if is_digit c then loads_digits (10 * acc + Z.of_N (N_of_ascii c - 48)) s'
      else (acc, s)
  | EmptyString => (acc, EmptyString)
  end.

Definition starts_float_tail (s : string) : bool :=
  match s with
  | String c _ => Ascii.eqb c "." || Ascii.eqb c "e" || Ascii.eqb c "E"
  | EmptyString => false
  end.

(** An int: [0], or a nonzero digit followed by digits. *)
Definition loads_nat (s : string) : option (Z * string) :=
  match s with
  | String c s' =>
      if Ascii.eqb c "0" then
        if starts_float_tail s' then None else Some (0%Z, s')
      else if is_digit c then
        let '(n, rest) := loads_digits 0 s in
        if starts_float_tail rest then None else Some (n, rest)
      else None
  | EmptyString => None
  end.

(** [d[k] = v] on the bindings of a dict: a key already present keeps its
    place. *)
Fixpoint dict_set (k : string) (v : json) (d : list (string * json)) : list (string * json) :=
  match d with
  | [] => [(k, v)]
  | (k', v') :: d' => if String.eqb k' k then (k, v) :: d' else (k', v') :: dict_set k v d'
  end.

(** The text after character [c], when the text starts with it. *)
Definition after_char (c : ascii) (s : string) : option string :=
  match s with
  | String c' rest => if Ascii.eqb c' c then Some rest else None
  | EmptyString => None
  end.

(** The text after the literal [p], when the text starts with it. *)
Fixpoint after_prefix (p s : string) : option string :=
  match p with
  | EmptyString => Some s
  | String c p' => s' ← after_char c s; after_prefix p' s'
  end.

Fixpoint loads_value (fuel : nat) (s : string) : option (json * string) :=
  match fuel with
  | O => None
  | S fuel =>
      match s with
      | EmptyString => None
      | String c s' =>
          if Ascii.eqb c quote_char then
            '(str, rest) ← loads_str_body s'; Some (JStr str, rest)
          else if Ascii.eqb c "[" then
            match after_char "]" (skip_ws s') with
            | Some rest => Some (JList [], rest)
            | None => '(l, rest) ← loads_items fuel (skip_ws s'); Some (JList l, rest)
            end
          else if Ascii.eqb c "{" then
            match after_char "}" (skip_ws s') with
            | Some rest => Some (JDict [], rest)
            | None => '(d, rest) ← loads_members fuel [] (skip_ws s'); Some (JDict d, rest)
            end
          else if Ascii.eqb c "-" then
            '(n, rest) ← loads_nat s'; Some (JInt (- n), rest)
          else if is_digit c then
            '(n, rest) ← loads_nat s; Some (JInt n, rest)
          else
            match after_prefix "null" s, after_prefix "true" s, after_prefix "false" s with
            | Some rest, _, _ => Some (JNull, rest)
            | None, Some rest, _ => Some (JBool true, rest)
            | None, None, Some rest => Some (JBool false, rest)
            | None, None, None => None
            end
      end
  end
with loads_items (fuel : nat) (s : string) : option (list json * string) :=
  match fuel with
  | O => None
  | S fuel =>
      '(v, rest) ← loads_value fuel s;
      match after_char "]" (skip_ws rest) with
      | Some rest' => Some ([v], rest')
      | None =>
          rest' ← after_char "," (skip_ws rest);
          '(l, rest'') ← loads_items fuel (skip_ws rest');
          Some (v :: l, rest'')
      end
  end
with loads_members (fuel : nat) (acc : list (string * json)) (s : string)
    : option (list (string * json) * string) :=
  match fuel with
  | O => None
  | S fuel =>
      s' ← after_char quote_char s;
      '(k, rest) ← loads_str_body s';
      rest1 ← after_char ":" (skip_ws rest);
      '(v, rest2) ← loads_value fuel (skip_ws rest1);
      let acc := dict_set k v acc in
      match after_char "}" (skip_ws rest2) with
      | Some rest3 => Some (acc, rest3)
      | None =>
          rest3 ← after_char "," (skip_ws rest2);
          loads_members fuel acc (skip_ws rest3)
      end
  end.

Definition loads (s : string) : option json :=
  '(v, rest) ← loads_value (S (String.length s)) (skip_ws s);
  match skip_ws rest with
  | EmptyString => Some v
  | _ => None
  end.

(** The key written for a key of a dict, by the rule of [dict_key]. *)
Definition key_text (key : pyobj) : option string :=
  match key with
  | PStr s => Some s
  | PFloat _ => Some "NaN"
  | PBool true => Some "true"
  | PBool false => Some "false"
  | PNone => Some "null"
  | PInt n => Some (pretty n)
  | _ => None
  end.

(** What [json.dump] writes of a value, piece by piece, until it is done
    or meets what it cannot write: the text, and whether it is complete.
    The bracket or the separator in front of an element is written before
    the element is looked at; a key is checked before the separator in
    front of it is written. *)
Fixpoint dump_until (obj : pyobj) : string * bool :=
  match obj with
  | PNone => ("null", true)
  | PBool true => ("true", true)
  | PBool false => ("false", true)
  | PInt n => (pretty n, true)
  | PFloat _ => ("NaN", true)
  | PStr s => (dumps_str s, true)
  | PList l | PTuple l =>
      match l with
      | [] => ("[]", true)
      | _ =>
          (fix items (sep : string) (l : list pyobj) : string * bool :=
             match l with
             | [] => ("]", true)
             | o :: l' =>
                 let '(text, complete) := dump_until o in
                 if complete : bool then
                   let '(rest, finished) := items ", " l' in
                   (sep +:+ text +:+ rest, finished)
                 else (sep +:+ text, false)
             end) "[" l
      end
  | PDict d =>
      match d with
      | [] => ("{}", true)
      | _ =>
          let '(inside, finished) :=
            (fix members (sep : string) (d : list (pyobj * pyobj)) : string * bool :=
               match d with
               | [] => ("}", true)
               | (k, o) :: d' =>
                   match key_text k with
                   | None => (EmptyString, false)
                   | Some key =>
                       let '(text, complete) := dump_until o in
                       if complete : bool then
                         let '(rest, finished) := members ", " d' in
                         (sep +:+ dumps_str key +:+ ": " +:+ text +:+ rest, finished)
                       else (sep +:+ dumps_str key +:+ ": " +:+ text, false)
                   end
               end) EmptyString d in
          ("{" +:+ inside, finished)
      end
  | PComplex _ _ | PBytes _ | PEllipsis | PSet _ => (EmptyString, false)
  end.

#[export] Instance plain_json : JsonCodec := {|
  json_dumps := dumps;
  json_loads := loads;
  json_dump_left obj := fst (dump_until obj)
|}.

(** *** Readers for decimal ints and for plain literals

    [int_of_str] reads what [int] reads from a str in base 10: blanks
    around, a sign, digits, single underscores between digits; anything
    else is a [ValueError].

    [literal_text] reads the literals of one line made of: strs in single
    or double quotes without backslashes, standing alone; decimal ints
    without underscores, with a sign or none; [None], [True] and [False];
    and lists, tuples, sets and dicts of such literals, with blanks between
    the tokens, a trailing comma or none, and a comment at the end of the
    line.  A set element or a dict key that cannot be hashed is a
    [TypeError].  What Python reads beyond this (floats, escapes, strs side
    by side, a sign before a bracket, ...) or refuses in another way is
    outside this reader, which takes every other text as a syntax
    error. *)
Definition is_space (c : ascii) : bool :=
  let n := N_of_ascii c in
  ((9 <=? n) && (n <=? 13) || (28 <=? n) && (n <=? 32) || (n =? 133) || (n =? 160))%N.

Fixpoint lstrip (s : string) : string :=
  match s with
  | String c s' => if is_space c then lstrip s' else s
  | EmptyString => EmptyString
  end.

Fixpoint rstrip (s : string) : string :=
  match s with
  | EmptyString => EmptyString
  | String c s' =>
      match rstrip s' with
      | EmptyString => if is_space c then EmptyString else String c EmptyString
      | r => String c r
      end
  end.

Definition digit_value (c : ascii) : Z := Z.of_N (N_of_ascii c - 48).

(** The text after a digit: more digits, each possibly behind one
    underscore. *)
Fixpoint int_digits (acc : Z) (s : string) : option Z :=
  match s with
  | EmptyString => Some acc
  | String c s' =>
      if is_digit c then int_digits (10 * acc + digit_value c) s'
      else if Ascii.eqb c "_" then
        match s' with
        | String c' s'' =>
            if is_digit c' then int_digits (10 * acc + digit_value c') s'' else None
        | EmptyString => None
        end
      else None
  end.

Definition int_unsigned (s : string) : option Z :=
  match s with
  | String c s' => if is_digit c then int_digits (digit_value c) s' else None
  | EmptyString => None
  end.

Definition int_of_str (s : string) : outcome Z :=
  let parsed :=
    match rstrip (lstrip s) with
    | String c s' =>
        if Ascii.eqb c "-" then Z.opp <$> int_unsigned s'
        else if Ascii.eqb c "+" then int_unsigned s'
        else int_unsigned (String c s')
    | EmptyString => None
    end in
  match parsed with
  | Some n => Ok n
  | None => Raise ValueError
  end.

(** The characters of a quoted str up to the closing [quote]. *)
Fixpoint literal_str_body (quote : ascii) (s : string) : option (string * string) :=
  match s with
  | EmptyString => None
  | String c s' =>
      if Ascii.eqb c quote then Some (EmptyString, s')
      else if Ascii.eqb c backslash_char || Ascii.eqb c "010" then None
      else '(body, rest) ← literal_str_body quote s'; Some (String c body, rest)
  end.

(** Blanks between tokens; a comment runs to the end of the line. *)
Definition is_blank (c : ascii) : bool :=
  let n := N_of_ascii c in ((n =? 32) || (n =? 9) || (n =? 12))%N.

Fixpoint skip_blanks (s : string) : string :=
  match s with
  | String c s' =>
      if is_blank c then skip_blanks s'
      else if Ascii.eqb c "#" then EmptyString
      else s
  | EmptyString => EmptyString
  end.

(** A character that can go on a name or a number. *)
Definition is_word_char (c : ascii) : bool :=
  let n := N_of_ascii c in
  ((48 <=? n) && (n <=? 57) || (65 <=? n) && (n <=? 90) || (97 <=? n) && (n <=? 122)
   || (n =? 95) || (n =? 46) || (128 <=? n))%N.

Definition ends_word (s : string) : bool :=
  match s with
  | String c _ => negb (is_word_char c)
  | EmptyString => true
  end.

(** A decimal int: digits, with a zero in front only when all are zeros. *)
Definition literal_digits (s : string) : option (Z * string) :=
  match s with
  | String c _ =>
      if is_digit c then
        let '(n, rest) := loads_digits 0 s in
        if ends_word rest && (negb (Ascii.eqb c "0") || (n =? 0)%Z)
        then Some (n, rest) else None
      else None
  | EmptyString => None
  end.

(** A name followed by no character of a name. *)
Definition literal_name (name s : string) : option string :=
  rest ← after_prefix name s;
  if ends_word rest then Some rest else None.

(** The text after a closing bracket, or the end of the line for the
    whole text. *)
Definition closes (close : option ascii) (s : string) : option string :=
  match close, s with
  | Some c, _ => after_char c s
  | None, EmptyString => Some EmptyString
  | None, _ => None
  end.

(** One literal, the elements of a display up to its end (with whether a
    comma was met) and the members of a dict, as written. *)
Fixpoint literal_value (fuel : nat) (s : string) : option (pyobj * string) :=
  match fuel with
  | O => None
  | S fuel =>
      match s with
      | EmptyString => None
      | String c s' =>
          if Ascii.eqb c "'" || Ascii.eqb c quote_char then
            '(str, rest) ← literal_str_body c s'; Some (PStr str, rest)
          else if is_digit c then
            '(n, rest) ← literal_digits s; Some (PInt n, rest)
          else if Ascii.eqb c "-" then
            '(n, rest) ← literal_digits (skip_blanks s'); Some (PInt (- n), rest)
          else if Ascii.eqb c "+" then
            '(n, rest) ← literal_digits (skip_blanks s'); Some (PInt n, rest)
          else if Ascii.eqb c "[" then
            '(l, _, rest) ← literal_items fuel (Some "]"%char) (skip_blanks s');
            Some (PList l, rest)
          else if Ascii.eqb c "(" then
            '(l, comma, rest) ← literal_items fuel (Some ")"%char) (skip_blanks s');
            match l, comma with
            | [v], false => Some (v, rest)
            | _, _ => Some (PTuple l, rest)
            end
          else if Ascii.eqb c "{" then
            match after_char "}" (skip_blanks s') with
            | Some rest => Some (PDict [], rest)
            | None =>
                '(k, rest) ← literal_value fuel (skip_blanks s');
                match after_char ":" (skip_blanks rest) with
                | Some rest1 =>
                    '(v, rest2) ← literal_value fuel (skip_blanks rest1);
                    match after_char "}" (skip_blanks rest2) with
                    | Some rest3 => Some (PDict [(k, v)], rest3)
                    | None =>
                        rest3 ← after_char "," (skip_blanks rest2);
                        '(d, rest4) ← literal_members fuel (skip_blanks rest3);
                        Some (PDict ((k, v) :: d), rest4)
                    end
                | None =>
                    match after_char "}" (skip_blanks rest) with
                    | Some rest1 => Some (PSet [k], rest1)
                    | None =>
                        rest1 ← after_char "," (skip_blanks rest);
                        '(l, _, rest2) ←
                          literal_items fuel (Some "}"%char) (skip_blanks rest1);
                        Some (PSet (k :: l), rest2)
                    end
                end
            end
          else
            match literal_name "None" s, literal_name "True" s, literal_name "False" s with
            | Some rest, _, _ => Some (PNone, rest)
            | None, Some rest, _ => Some (PBool true, rest)
            | None, None, Some rest => Some (PBool false, rest)
            | None, None, None => None
            end
      end
  end
with literal_items (fuel : nat) (close : option ascii) (s : string)
    : option (list pyobj * bool * string) :=
  match fuel with
  | O => None
  | S fuel =>
      match closes close s with
      | Some rest => Some ([], false, rest)
      | None =>
          '(v, rest) ← literal_value fuel s;
          match closes close (skip_blanks rest) with
          | Some rest1 => Some ([v], false, rest1)
          | None =>
              rest1 ← after_char "," (skip_blanks rest);
              '(l, _, rest2) ← literal_items fuel close (skip_blanks rest1);
              Some (v :: l, true, rest2)
          end
      end
  end
with literal_members (fuel : nat) (s : string) : option (list (pyobj * pyobj) * string) :=
  match fuel with
  | O => None
  | S fuel =>
      match after_char "}" s with
      | Some rest => Some ([], rest)
      | None =>
          '(k, rest) ← literal_value fuel s;
          rest1 ← after_char ":" (skip_blanks rest);
          '(v, rest2) ← literal_value fuel (skip_blanks rest1);
          match after_char "}" (skip_blanks rest2) with
          | Some rest3 => Some ([(k, v)], rest3)
          | None =>
              rest3 ← after_char "," (skip_blanks rest2);
              '(d, rest4) ← literal_members fuel (skip_blanks rest3);
              Some ((k, v) :: d, rest4)
          end
      end
  end.

(** Values that can be hashed, and equality of two of them as keys: an
    int and a bool are equal when they are the same number. *)
Fixpoint hashable (v : pyobj) : bool :=
  match v with
  | PList _ | PSet _ | PDict _ => false
  | PTuple l => forallb hashable l
  | _ => true
  end.

Definition as_number (v : pyobj) : option Z :=
  match v with
  | PInt n => Some n
  | PBool b => Some (Z.b2z b)
  | _ => None
  end.

Fixpoint key_eqb (a b : pyobj) : bool :=
  match a, b with
  | PNone, PNone => true
  | PStr x, PStr y => String.eqb x y
  | PTuple x, PTuple y =>
      (fix all (x y : list pyobj) : bool :=
         match x, y with
         | [], [] => true
         | a' :: x', b' :: y' => key_eqb a' b' && all x' y'
         | _, _ => false
         end) x y
  | _, _ =>
      match as_number a, as_number b with
      | Some m, Some n => (m =? n)%Z
      | _, _ => false
      end
  end.

(** [s.add(v)] and [d[k] = v] on the elements of a set and the members of
    a dict: a key already there keeps its place and its first form. *)
Fixpoint set_add (v : pyobj) (l : list pyobj) : list pyobj :=
  match l with
  | [] => [v]
  | x :: l' => if key_eqb x v then l else x :: set_add v l'
  end.

Fixpoint dict_put (k v : pyobj) (d : list (pyobj * pyobj)) : list (pyobj * pyobj) :=
  match d with
  | [] => [(k, v)]
  | (k', v') :: d' => if key_eqb k' k then (k', v) :: d' else (k', v') :: dict_put k v d'
  end.

(** The value of a literal as written: [None] when building a set or a
    dict raises a [TypeError]. *)
Fixpoint literal_built (v : pyobj) : option pyobj :=
  match v with
  | PList l =>
      PList <$> (fix each (l : list pyobj) : option (list pyobj) :=
                   match l with
                   | [] => Some []
                   | x :: l' => y ← literal_built x; ys ← each l'; Some (y :: ys)
                   end) l
  | PTuple l =>
      PTuple <$> (fix each (l : list pyobj) : option (list pyobj) :=
                    match l with
                    | [] => Some []
                    | x :: l' => y ← literal_built x; ys ← each l'; Some (y :: ys)
                    end) l
  | PSet l =>
      PSet <$> (fix each (acc : list pyobj) (l : list pyobj) : option (list pyobj) :=
                  match l with
                  | [] => Some acc
                  | x :: l' =>
                      y ← literal_built x;
                      if hashable y then each (set_add y acc) l' else None
                  end) [] l
  | PDict d =>
      PDict <$> (fix each (acc : list (pyobj * pyobj)) (d : list (pyobj * pyobj))
                   : option (list (pyobj * pyobj)) :=
                   match d with
                   | [] => Some acc
                   | (k, x) :: d' =>
                       key ← literal_built k;
                       y ← literal_built x;
                       if hashable key then each (dict_put key y acc) d' else None
                   end) [] d
  | _ => Some v
  end.

Definition literal_text (s : string) : outcome pyobj :=
  match literal_items (S (String.length s)) None (skip_blanks s) with
  | Some (l, comma, _) =>
      let written := match l, comma with
                     | [v], false => Some v
                     | [], _ => None
                     | _, _ => Some (PTuple l)
                     end in
      match written with
      | Some v =>
          match literal_built v with
          | Some built => Ok built
          | None => Raise TypeError
          end
      | None => Raise SyntaxError
      end
  | None => Raise SyntaxError
  end.

#[export] Instance plain_readers : Readers := {|
  py_int := int_of_str;
  literal_eval := literal_text
|}.

(** *** A disk with one directory

    The working directory holds the directory [out] and no other: a file
    can be written under a name without a slash, in the working directory
    or in [out/], with [./] in front of the path or not.  A path written
    in another way is taken as one into a directory that does not
    exist. *)
Fixpoint has_slash (s : string) : bool :=
  match s with
  | String c s' => Ascii.eqb c "/" || has_slash s'
  | EmptyString => false
  end.

Definition without_prefix (p s : string) : string :=
  match after_prefix p s with
  | Some rest => rest
  | None => s
  end.

(** A name followed by one slash and nothing more. *)
Fixpoint names_directory (s : string) : bool :=
  match s with
  | EmptyString => false
  | String c s' =>
      if Ascii.eqb c "/" then match s' with EmptyString => true | _ => false end
      else names_directory s'
  end.

Definition out_open_error (path : string) : option exn :=
  if String.eqb path "" then Some FileNotFoundError
  else
    let inner := without_prefix "./" path in
    let name := without_prefix "out/" inner in
    if has_slash name then
      if names_directory name then Some IsADirectoryError else Some FileNotFoundError
    else if String.eqb name "" || String.eqb name "." || String.eqb name ".."
            || (String.eqb name "out" && String.eqb inner "out")
    then Some IsADirectoryError
    else None.

#[export] Instance out_disk : Disk := {| open_error := out_open_error |}.

End sample.


(** ** Documents the sample codec reads back

    A document is covered when it holds no float and no dict with a key
    twice.  [need v] is the fuel [loads_value] needs for the text of [v]. *)
Fixpoint fresh_keys (ks : list string) : bool :=
  match ks with
  | [] => true
  | k :: ks' => negb (existsb (String.eqb k) ks') && fresh_keys ks'
  end.

Fixpoint covered (v : json) : bool :=
  match v with
  | JFloat _ => false
  | JList l => forallb covered l
  | JDict d => fresh_keys (map fst d) && forallb (λ kv, covered (snd kv)) d
  | _ => true
  end.

Fixpoint need (v : json) : nat :=
  match v with
  | JList l => S (foldr (λ v n, S (Nat.max (need v) n)) 0 l)
  | JDict d => S (foldr (λ kv n, S (Nat.max (need (snd kv)) n)) 0 d)
  | _ => 1
  end.

Definition need_items (l : list json) : nat :=
  foldr (λ v n, S (Nat.max (need v) n)) 0 l.

Definition need_members (d : list (string * json)) : nat :=
  foldr (λ kv n, S (Nat.max (need (snd kv)) n)) 0 d.

(** A text that can follow an int: it does not go on with a digit, a dot or
    an exponent. *)
Definition clean_tail (rest : string) : bool :=
  match rest with
  | EmptyString => true
  | String c _ => negb (sample.is_digit c) && negb (sample.starts_float_tail rest)
  end.

(** A character a value can start with: no blank, no closing bracket or
    brace. *)
Definition head_ok (c : ascii) : bool :=
  negb (sample.is_ws c) && negb (Ascii.eqb c "]") && negb (Ascii.eqb c "}").

Definition starts_ok (s : string) : bool :=
  match s with
  | String c _ => head_ok c
  | EmptyString => false
  end.

(** The text of one member of a dict. *)
Definition member_text (kv : string * json) : string :=
  sample.dumps_str (fst kv) +:+ ": " +:+ sample.dumps (snd kv).

(** [loads_value] reads the text of [v] back, whatever clean text follows. *)
Definition reads_back (v : json) : Prop :=
  covered v = true →
  ∀ f rest, need v ≤ f → clean_tail rest = true →
            sample.loads_value f (sample.dumps v +:+ rest) = Some (v, rest).

(** Writing a descriptor and reading it back gives the values written. *)
Definition round_trips {codec : JsonCodec} {disk : Disk} (name site dir : string)
    (exclude_list : json) (start : Z) (w : world) : Prop :=
  ∃ w1 w2 loaded,
    generator.create_execution_file name site dir (py_of_json exclude_list) start w
    = (Ok tt, w1)
    ∧ generator.read_execution_file name w1 = (Ok (EmptyString, Some loaded), w2)
    ∧ getitem loaded "site" = Ok (JStr site)
    ∧ getitem loaded "dir" = Ok (JStr dir)
    ∧ getitem loaded "exclude_list" = Ok exclude_list
    ∧ getitem loaded "start" = Ok (JInt start).

(** ** Console lines and worlds named in the properties *)

(** The world after more lines went to the console. *)
Definition said (lines : list out_event) (w : world) : world :=
  {| w_sessions := w_sessions w; w_files := w_files w; w_written := w_written w;
     w_out := w_out w ++ lines; w_in := w_in w |}.

(** The line [print_info(output)] shows. *)
Definition info_line (output : list piece) : out_event :=
  Print ([Lit "-[---]- INFO: "; Lit " "] ++ output ++ [Lit " "; Lit " -[---]-"]).

(** The line [create_shoe_pair] shows when tag [t] excludes [name]. *)
Definition exclusion_line (name t : string) : out_event :=
  info_line [Lit "Excluding '"; Lit name; Lit "', found with tag "; Lit t].

(** The lines [ShoePair(id)] shows when it resolves [id] to [made]. *)
Definition resolution_lines (id : string) (made : shoepair.ShoePair) : list out_event :=
  [info_line [Lit "Searching for "; Lit id];
   info_line [Lit "Constructed shoe with "; Lit "
Name: "; Lit (shoepair._name made); Lit "
Img URL: "; Lit (shoepair._image made)]].

(** The line [create_all_files] shows after writing file [n]. *)
Definition created_line (n : Z) : out_event :=
  info_line [Lit "Created file "; Lit (pretty n); Lit ".json"].

(** The files on disk after a sequence of writes, oldest first. *)
Definition files_after (files : gmap string string) (writes : list (string * string))
    : gmap string string :=
  foldl (λ fs f, <[f.1 := f.2]> fs) files writes.

(** Each file of a list of writes can be opened for writing. *)
Definition can_open {disk : Disk} (writes : list (string * string)) : Prop :=
  Forall (λ f, open_error f.1 = None) writes.

(** The fields [read_execution_file] requires, in the order it checks them,
    and the first of them a dict lacks. *)
Definition required_fields : list string := ["site"; "dir"; "exclude_list"; "start"].

Definition first_missing (d : list (string * json)) : option string :=
  List.find (λ field, negb (dict_has field d)) required_fields.

(** The dict [create_execution_file] dumps, as [json.dump] writes it. *)
Definition descriptor (site dir : string) (exclude_list : json) (start : Z) : json :=
  JDict [("site", JStr site); ("dir", JStr dir);
         ("exclude_list", exclude_list); ("start", JInt start)].

(** The same dict as [create_execution_file] builds it, around the value
    it is given for the tags. *)
Definition descriptor_built (site dir : string) (exclude_list : pyobj) (start : Z) : pyobj :=
  PDict [(PStr "site", PStr site); (PStr "dir", PStr dir);
         (PStr "exclude_list", exclude_list); (PStr "start", PInt start)].

(** The line [read_execution_file] shows for what it loaded. *)
Definition loaded_line (loaded : json) : out_event :=
  Print ([Lit "Loaded JSON: "; Lit " "] ++ py_str loaded).

(** The prompts [prompt_execution_values] shows up to the one for the
    starting file number. *)
Definition prompts_shown : list out_event :=
  [Prompt "Path to write to: ";
   Prompt ("Site directory: " +:+ globals.BASE_SITE +:+ "/");
   Prompt "Directory to place shoe files: ";
   Prompt "Use exclude tags (in list format e.g. '['a', 'b']? [y/N ]: ";
   Prompt "Starting file number: "].

(** The reading of "the link contains the id as a URL path-segment suffix":
    [suffix] occurs in [href] right before the end of a path segment, that
    is before a slash, a question mark, a hash sign or the end of the
    text. *)
Definition at_segment_end (s : string) : bool :=
  match s with
  | EmptyString => true
  | String c _ => Ascii.eqb c "/" || Ascii.eqb c "?" || Ascii.eqb c "#"
  end.

Fixpoint ends_path_segment (suffix href : string) : bool :=
  (String.prefix suffix href && at_segment_end (drop_string (String.length suffix) href))
  || match href with
     | EmptyString => false
     | String _ href' => ends_path_segment suffix href'
     end.

(** ** The resolver as a function of the web

    What [ShoePair(id)] computes, read off the pages alone: the link the loop
    of [_search] stops at, the page on which extraction happens, and the name
    and image extracted from it. *)
Module resolution.
Section Resolution.
Context {web : Web}.

Fixpoint first_item_link (id : string) (a_elements : list element)
    : outcome (option string) :=
  match a_elements with
  | [] => Ok None
  | aelem :: rest =>
      match tag_getitem (el_attrs aelem) "href" with
      | Raise e => Raise e
      | Ok href =>
          if str_contains ("-" +:+ id) href then Ok (Some href)
          else first_item_link id rest
      end
  end.

Definition active_page (id : string) : outcome page :=
  match web_get (globals.BASE_SEARCH_SITE +:+ id) with
  | None => Raise WebDriverException
  | Some results =>
      match first_item_link id (pg_anchors results) with
      | Raise e => Raise e
      | Ok None => Ok results
      | Ok (Some href) =>
          match web_get href with
          | Some item => Ok item
          | None => Raise WebDriverException
          end
      end
  end.

Definition name_on (p : page) : string :=
  match pg_select p shoepair.name_selector with
  | [] => globals.NULL_NAME_STRING
  | e :: _ => el_text e
  end.

Definition image_on (p : page) : outcome string :=
  match pg_select p shoepair.image_selector with
  | [] => Ok globals.NULL_IMAGE_STRING
  | e :: _ => tag_getitem (el_attrs e) "src"
  end.

Definition resolve (id : string) : outcome shoepair.ShoePair :=
  match active_page id with
  | Raise e => Raise e
  | Ok p =>
      match image_on p with
      | Raise e => Raise e
      | Ok image => Ok {| shoepair._name := name_on p; shoepair._image := image |}
      end
  end.

(** The exclusion decision for a name and a list of patterns. *)
Definition excluded_by {regex : Regex} (name : string) (tags : list string) : bool :=
  existsb (λ t, re_found t name re.IGNORECASE) tags.

(** The pair a candidate yields in a run: none when it is excluded. *)
Definition kept_pair {regex : Regex} (tags : list string) (shoe : json)
    : option shoepair.ShoePair :=
  match getitem shoe "name" with
  | Ok (JStr name) =>
      if excluded_by name tags then None
      else match getitem shoe "id" with
           | Ok (JStr id) =>
               match resolve id with Ok made => Some made | Raise _ => None end
           | _ => None
           end
  | _ => None
  end.

(** A candidate that a run gets through: it has a str name, and either it
    is excluded or it has a str id that resolves. *)
Definition passes {regex : Regex} (tags : list string) (shoe : json) : bool :=
  match getitem shoe "name" with
  | Ok (JStr name) =>
      excluded_by name tags
      || match getitem shoe "id" with
         | Ok (JStr id) => match resolve id with Ok _ => true | Raise _ => false end
         | _ => false
         end
  | _ => false
  end.

(** The file written for the [i]-th kept pair of a run. *)
Definition numbered_file {codec : JsonCodec} (directory : string) (startnum : Z)
    (i : nat) (made : shoepair.ShoePair) : string * string :=
  (directory +:+ pretty (startnum + Z.of_nat i)%Z +:+ ".json",
   json_dumps (JDict [("name", JStr (shoepair.get_name made));
                      ("img", JStr (shoepair.get_image made))])).

End Resolution.
End resolution.

(** ** A small shop, to run the program on *)
Module scenario.

Definition shop_url (path : string) : string := globals.BASE_SITE +:+ path.

Definition item_page : page := {|
  pg_anchors := [];
  pg_select := λ sel,
    if String.eqb sel shoepair.name_selector then [Element [] "Air Jordan 1 Low"]
    else if String.eqb sel shoepair.image_selector then
      [Element [("class", "product-img"); ("src", "https://cdn.flightclub.com/012345.jpg")] ""]
    else [];
  pg_scripts := []
|}.

Definition results_012345 : page := {|
  pg_anchors := [Element [("href", shop_url "/")] "Home";
                 Element [("href", shop_url "/air-jordan-1-low-012345")] "Air Jordan 1 Low";
                 Element [("name", "top")] ""];
  pg_select := λ _, [];
  pg_scripts := []
|}.

(** A results page whose only link holds the text [-123] inside a longer
    number. *)
Definition results_123 : page := {|
  pg_anchors := [Element [("href", shop_url "/air-jordan-1234")] "Air Jordan 1234"];
  pg_select := λ _, [];
  pg_scripts := []
|}.

Definition item_1234_page : page := {|
  pg_anchors := [];
  pg_select := λ sel,
    if String.eqb sel shoepair.name_selector then [Element [] "Air Jordan 1234"] else [];
  pg_scripts := []
|}.

(** A results page whose product image has no [src] attribute. *)
Definition results_777 : page := {|
  pg_anchors := [];
  pg_select := λ sel,
    if String.eqb sel shoepair.image_selector then [Element [("class", "product-img")] ""]
    else [];
  pg_scripts := []
|}.

(** A results page with nothing on it. *)
Definition results_000 : page := {|
  pg_anchors := []; pg_select := λ _, []; pg_scripts := []
|}.

Definition shop : Web := {|
  web_get url :=
    if String.eqb url (globals.BASE_SEARCH_SITE +:+ "012345") then Some results_012345
    else if String.eqb url (shop_url "/air-jordan-1-low-012345") then Some item_page
    else if String.eqb url (globals.BASE_SEARCH_SITE +:+ "123") then Some results_123
    else if String.eqb url (shop_url "/air-jordan-1234") then Some item_1234_page
    else if String.eqb url (globals.BASE_SEARCH_SITE +:+ "777") then Some results_777
    else if String.eqb url (globals.BASE_SEARCH_SITE +:+ "000") then Some results_000
    else None
|}.

Definition empty_world : world :=
  {| w_sessions := ∅; w_files := ∅; w_written := []; w_out := []; w_in := [] |}.

Definition console (lines : list string) : world :=
  {| w_sessions := ∅; w_files := ∅; w_written := []; w_out := []; w_in := lines |}.

(** Two catalog entries, as in the impressions list. *)
Definition retro_high : json :=
  JDict [("id", JStr "000"); ("name", JStr "Air Jordan 1 Retro High")].
Definition low : json :=
  JDict [("id", JStr "012345"); ("name", JStr "Air Jordan 1 Low")].


(** A descriptor without exclusion tags and start number, and a disk
    holding one file. *)
Definition partial_descriptor : json :=
  JDict [("site", JStr "https://www.flightclub.com/air-jordans/air-jordan-1");
         ("dir", JStr "./out/")].

Definition disk (path content : string) : world :=
  {| w_sessions := ∅; w_files := {[path := content]}; w_written := [];
     w_out := []; w_in := [] |}.

(** What a user types who answers the last prompt with [abc]. *)
Definition typed_abc : list string :=
  ["exec.json"; "air-jordans/air-jordan-1"; "./out/"; "n"; "abc"].

(** A catalog page whose marker holds text that is no JSON. *)
Definition catalog_unparsable : page := {|
  pg_anchors := []; pg_select := λ _, [];
  pg_scripts := ["var x = 1;"; "dataLayer.push({'impressions': [oops]});"]
|}.

End scenario.

(** ** Sample texts and a sample network, for [execute] *)
Module sample_text.

(** [repr] for documents without floats whose strs are printable ASCII
    without quote or backslash: such a str is shown between single
    quotes.  Floats are outside this printer, which shows each as
    [nan]. *)
Fixpoint repr (v : json) : string :=
  match v with
  | JNull => "None"
  | JBool true => "True"
  | JBool false => "False"
  | JInt n => pretty n
  | JFloat _ => "nan"
  | JStr s => "'" +:+ s +:+ "'"
  | JList l => "[" +:+ sample.join ", " (map repr l) +:+ "]"
  | JDict d =>
      "{" +:+ sample.join ", "
                (map (λ kv, "'" +:+ fst kv +:+ "': " +:+ repr (snd kv)) d) +:+ "}"
  end.

#[export] Instance plain_repr : Reprs := {| py_repr := repr |}.

(** The message of [json.loads] for a text whose first character starts no
    JSON value, such as an empty file or plain words. *)
#[export] Instance no_value_errors : DecodeErrors := {|
  decode_error_text _ := "Expecting value: line 1 column 1 (char 0)"
|}.

End sample_text.

Module storefront.

Definition catalog_url : string := "https://www.flightclub.com/air-jordans/air-jordan-1".

(** The catalog page of Air Jordan 1: its second script holds the
    impressions list, with the two entries of the sample shop. *)
Definition catalog_page : page := {|
  pg_anchors := [];
  pg_select := λ _, [];
  pg_scripts :=
    ["var dataLayer = [];";
     "dataLayer.push({'ecommerce': {'impressions': "
       +:+ sample.dumps (JList [scenario.retro_high; scenario.low]) +:+ "}});"]
|}.

(** The catalog page of Air Jordan 2, with one entry. *)
Definition catalog_page_2 : page := {|
  pg_anchors := [];
  pg_select := λ _, [];
  pg_scripts :=
    ["dataLayer.push({'ecommerce': {'impressions': "
       +:+ sample.dumps (JList [scenario.low]) +:+ "}});"]
|}.

(** A network that serves the two catalog pages and refuses every other
    address as an invalid URL, for which requests raises [MissingSchema]
    or [InvalidURL], both of them [ValueError]s. *)
Definition network : Http := {|
  requests_get url :=
    match url with
    | JStr address =>
        if String.eqb address catalog_url then Ok catalog_page
        else if String.eqb address "https://www.flightclub.com/air-jordans/air-jordan-2"
        then Ok catalog_page_2
        else Raise ValueError
    | _ => Raise ValueError
    end
|}.

(** Results pages: for id 555 the first anchor is a named anchor without
    [href], before the link of the item; the search for the name of the
    low shoe shows it as a result tile. *)
Definition results_555 : page := {|
  pg_anchors := [Element [("name", "top")] "";
                 Element [("href", scenario.shop_url "/air-jordan-5-555")] "Air Jordan 5"];
  pg_select := λ _, [];
  pg_scripts := []
|}.

Definition results_by_name : page := {|
  pg_anchors := [Element [("href", scenario.shop_url "/air-jordan-1-low-012345")]
                   "Air Jordan 1 Low"];
  pg_select := λ sel,
    if String.eqb sel "p[class='result-title text-ellipsis']"
    then [Element [("class", "result-title text-ellipsis")] "Air Jordan 1 Low"]
    else if String.eqb sel "img[class='product-img']"
    then [Element [("class", "product-img");
                   ("src", "https://cdn.flightclub.com/012345-thumb.jpg")] ""]
    else [];
  pg_scripts := []
|}.

Definition site : Web := {|
  web_get url :=
    if String.eqb url (globals.BASE_SEARCH_SITE +:+ "555") then Some results_555
    else if String.eqb url (globals.BASE_SEARCH_SITE +:+ "Air Jordan 1 Low")
    then Some results_by_name
    else web_get (Web := scenario.shop) url
|}.

(** The descriptor of the catalog, and a disk that holds it. *)
Definition exec_descriptor : json :=
  JDict [("site", JStr catalog_url); ("dir", JStr "./out/");
         ("exclude_list", JList [JStr "retro"]); ("start", JInt 1)].

Definition with_descriptor : world :=
  scenario.disk "exec.json" (sample.dumps exec_descriptor).

(** What a user types to create that descriptor at the prompt. *)
Definition typed_descriptor : list string :=
  ["exec.json"; "air-jordans/air-jordan-1"; "./out/"; "y"; "'retro'"; "1"].

(** What a user types who gives the tag between braces, which makes it a
    set, and who gives no path. *)
Definition typed_set : list string :=
  ["exec.json"; "air-jordans/air-jordan-1"; "./out/"; "y"; "{'retro'}"; "1"].

Definition typed_no_path : list string :=
  [""; "air-jordans/air-jordan-1"; "./out/"; "n"; "1"].

End storefront.

(** ** What a computation leaves alone

    [keeps P m]: the world after [m], whatever its outcome, is related by
    [P] to the world before it. *)
Definition keeps (P : world → world → Prop) {A} (m : M A) : Prop :=
  ∀ w, P w (m w).2.

(** The part [f] of the world is the same before and after. *)
Definition untouched {B} (f : world → B) : world → world → Prop :=
  λ w w', f w' = f w.

(** No line is put back on the console input. *)
Definition input_shrinks : world → world → Prop :=
  λ w w', length (w_in w') ≤ length (w_in w).

(** The prompts of [prompt_execution_values], up to the call that writes
    the descriptor: the arguments of that call. *)
Definition prompt_answers {readers : Readers} : M (string * string * string * pyobj * Z) :=
  ej_name ← input "Path to write to: ";
  site_dir ← input ("Site directory: " +:+ globals.BASE_SITE +:+ "/");
  let site := globals.BASE_SITE +:+ "/" +:+ site_dir in
  dir ← input "Directory to place shoe files: ";
  let dir := if String.eqb dir "" then "./" else dir in
  use_tags ← input "Use exclude tags (in list format e.g. '['a', 'b']? [y/N ]: ";
  exclude_list ←
    (if String.eqb use_tags "y" then
       tags ← input "List of exclude tags (separated by comma, requires quotations): ";
       lift (literal_eval ("[" +:+ tags +:+ "]"))
     else mret (PList []));
  start ←
    try_except
      (number ← input "Starting file number: "; lift (py_int number))
      is_TypeError
      (globals.print_warn [Lit "Invalid value, defaulting to 1"];; mret 1%Z);
  mret (ej_name, site, dir, exclude_list, start).

(** The message [read_execution_file] gives for a decoded value: empty
    when it is a dict with the four fields. *)
Definition validation_message (loaded : json) : string :=
  match loaded with
  | JDict d =>
      match first_missing d with
      | Some field => "Missing " +:+ field +:+ " value"
      | None => ""
      end
  | _ => "Loaded JSON should be a dict ( {} )!"
  end.

(** The first line [execute] shows. *)
Definition banner : out_event := Print [Lit "Guess Your Sneaker File Generator."].

(** The world after [shown] went to the console and its input was read
    down to [rest]. *)
Definition answered (shown : list out_event) (rest : list string) (w : world) : world :=
  {| w_sessions := w_sessions w; w_files := w_files w; w_written := w_written w;
     w_out := w_out w ++ shown; w_in := rest |}.

(** The site jordans.py writes into the descriptor for a brand. *)
Definition brand_site (brand_num : Z) : string := jordans.JORDANS_SITE +:+ pretty brand_num.

(** The writes of a run of jordans.py over [brands] whose first file
    number is [start]: for each brand the descriptor, then the files of
    the candidates kept from its catalog, numbered on from the brand
    before. *)
Fixpoint brand_writes {web : Web} {regex : Regex} {codec : JsonCodec}
    (path dir : string) (tags : list string) (catalog : Z → list json)
    (brands : list Z) (start : Z) : list (string * string) :=
  match brands with
  | [] => []
  | brand_num :: rest =>
      let kept := omap (resolution.kept_pair tags) (catalog brand_num) in
      (path, json_dumps (descriptor (brand_site brand_num) dir (JList (JStr <$> tags)) start))
      :: imap (resolution.numbered_file dir start) kept
      ++ brand_writes path dir tags catalog rest (start + Z.of_nat (length kept))
  end.

(** What the run of jordans.py needs of a brand: its page is served,
    holds the catalog, and every candidate of the catalog passes. *)
Definition brand_served {web : Web} {regex : Regex} {codec : JsonCodec} {http : Http}
    (tags : list string) (soup : Z → page) (catalog : Z → list json) (brand_num : Z)
    : Prop :=
  requests_get (JStr (brand_site brand_num)) = Ok (soup brand_num)
  ∧ (∀ w0, (generator.get_impressions_list (soup brand_num) w0).1
           = Ok (JList (catalog brand_num)))
  ∧ forallb (resolution.passes tags) (catalog brand_num) = true.

(** The name and the image [ShoePair] of gys-generator.py reads off a
    page. *)
Definition gys_name_on (p : page) : string :=
  match pg_select p "p[class='result-title text-ellipsis']" with
  | [] => gys_generator.NULL_NAME_STRING
  | e :: _ => el_text e
  end.

Definition gys_image_on (p : page) : outcome string :=
  match pg_select p "img[class='product-img']" with
  | [] => Ok gys_generator.NULL_IMAGE_STRING
  | e :: _ => tag_getitem (el_attrs e) "src"
  end.

(** The fields [read_execution_file] of gys-generator.py requires, and the
    message it gives for a decoded value. *)
Definition gys_required_fields : list string := ["site"; "dir"; "exclude_list"].

Definition gys_validation_message (loaded : json) : string :=
  match loaded with
  | JDict d =>
      match List.find (λ field, negb (dict_has field d)) gys_required_fields with
      | Some field => "Missing " +:+ field +:+ " value"
      | None => ""
      end
  | _ => "Loaded JSON should be a dict ( {} )!"
  end.

(** The dict [create_execution_file] of gys-generator.py dumps. *)
Definition gys_descriptor (site dir : string) (exclude_list : json) : json :=
  JDict [("site", JStr site); ("dir", JStr dir); ("exclude_list", exclude_list)].

(** The item file number [n] of a directory. *)
Definition item_file (directory : string) (n : Z) (content : string) : string * string :=
  (directory +:+ pretty n +:+ ".json", content).


(** * Properties *)

(** ** Running computations *)

Lemma bind_run {A B} (m : M A) (f : A → M B) (w : world) :
  (m ≫= f) w =
  match m w with
  | (Ok a, w') => f a w'
  | (Raise e, w') => (Raise e, w')
  end.
Proof. reflexivity. Qed.

Lemma bind_ok {A B} (m : M A) (f : A → M B) w a w' :
  m w = (Ok a, w') → (m ≫= f) w = f a w'.
Proof. intros Hm. rewrite bind_run, Hm. reflexivity. Qed.

Lemma bind_raise {A B} (m : M A) (f : A → M B) w e w' :
  m w = (Raise e, w') → (m ≫= f) w = (Raise e, w').
Proof. intros Hm. rewrite bind_run, Hm. reflexivity. Qed.

Lemma bind_ok_inv {A B} (m : M A) (f : A → M B) w b w2 :
  (m ≫= f) w = (Ok b, w2) → ∃ a w1, m w = (Ok a, w1) ∧ f a w1 = (Ok b, w2).
Proof.
  rewrite bind_run. destruct (m w) as [[a|e] w1]; intros Hrun.
  - eauto.
  - discriminate.
Qed.

Lemma lift_run {A} (o : outcome A) w : lift o w = (o, w).
Proof. reflexivity. Qed.

Lemma ret_run {A} (a : A) w : (mret a : M A) w = (Ok a, w).
Proof. reflexivity. Qed.

Lemma print_info_run output w :
  globals.print_info output w = (Ok tt, said [info_line output] w).
Proof. reflexivity. Qed.

Lemma gys_print_info_run output w :
  gys_generator.print_info output w = (Ok tt, said [info_line output] w).
Proof. reflexivity. Qed.

Lemma write_file_run {disk : Disk} path content w :
  open_error path = None → write_file path content w = (Ok tt, put_file path content w).
Proof. intros Hopen. unfold write_file. rewrite Hopen. reflexivity. Qed.

Lemma write_file_refused {disk : Disk} path content e w :
  open_error path = Some e → write_file path content w = (Raise e, w).
Proof. intros Hopen. unfold write_file. rewrite Hopen. reflexivity. Qed.

Lemma dump_file_run {disk : Disk} {codec : JsonCodec} path obj v w :
  open_error path = None → json_of obj = Some v →
  dump_file path obj w = (Ok tt, put_file path (json_dumps v) w).
Proof. intros Hopen Hobj. unfold dump_file. rewrite Hopen, Hobj. reflexivity. Qed.

Lemma dump_file_refused {disk : Disk} {codec : JsonCodec} path obj e w :
  open_error path = Some e → dump_file path obj w = (Raise e, w).
Proof. intros Hopen. unfold dump_file. rewrite Hopen. reflexivity. Qed.

Lemma dump_file_stops {disk : Disk} {codec : JsonCodec} path obj w :
  open_error path = None → json_of obj = None →
  dump_file path obj w = (Raise TypeError, put_file path (json_dump_left obj) w).
Proof. intros Hopen Hobj. unfold dump_file. rewrite Hopen, Hobj. reflexivity. Qed.

(** A computation that wraps its result in [Some] never returns [None]. *)
Lemma wrapped_not_None {A} (m : M A) w w' :
  (a ← m; mret (Some a)) w ≠ (Ok None, w').
Proof.
  rewrite bind_run. destruct (m w) as [[a|e] w1]; [rewrite ret_run|]; congruence.
Qed.

Lemma wrapped_not_None_after {A B} (m : M A) (f : A → M B) w w' :
  (a ← m; b ← f a; mret (Some b)) w ≠ (Ok None, w').
Proof.
  rewrite bind_run. destruct (m w) as [[a|e] w1]; [apply wrapped_not_None|congruence].
Qed.

(** ** The exclusion filter *)
Section ExclusionFilter.
Context {web : Web} {regex : Regex}.

Lemma loop_skips_unmatched name pre rest after w :
  Forall (λ t, re_valid t = true ∧ re_found t name re.IGNORECASE = false) pre →
  generator.create_shoe_pair_loop (JStr name) ((JStr <$> pre) ++ rest) after w =
  generator.create_shoe_pair_loop (JStr name) rest after w.
Proof.
  induction 1 as [|t pre [Hv Hf] _ IH]; [reflexivity|].
  cbn [fmap list_fmap app generator.create_shoe_pair_loop].
  rewrite bind_run, lift_run. cbn [re_search]. rewrite Hv, Hf. exact IH.
Qed.

Lemma loop_stops_at_match name t rest after w :
  re_valid t = true → re_found t name re.IGNORECASE = true →
  generator.create_shoe_pair_loop (JStr name) (JStr t :: rest) after w =
  (Ok None, said [exclusion_line name t] w).
Proof.
  intros Hv Hf. cbn [generator.create_shoe_pair_loop].
  rewrite bind_run, lift_run. cbn [re_search]. rewrite Hv, Hf.
  reflexivity.
Qed.

Lemma classic_match name (tags : list string) :
  (∃ t, t ∈ tags ∧ re_found t name re.IGNORECASE = true) ∨ ¬ (∃ t, t ∈ tags ∧ re_found t name re.IGNORECASE = true).
Proof.
  destruct (existsb (λ t, re_found t name re.IGNORECASE) tags) eqn:E.
  - left. apply existsb_exists in E as (t & Hin & Ht).
    exists t. split; [apply list_elem_of_In; exact Hin | exact Ht].
  - right. intros (t & Hin & Ht).
    assert (existsb (λ t, re_found t name re.IGNORECASE) tags = true); [|congruence].
    apply existsb_exists. exists t. split; [apply list_elem_of_In; exact Hin | exact Ht].
Qed.

(** The first matching tag splits a list of valid tags. *)
Lemma first_match_split name (tags : list string) :
  Forall (λ t, re_valid t = true) tags →
  (∃ t, t ∈ tags ∧ re_found t name re.IGNORECASE = true) →
  ∃ pre t post, tags = pre ++ t :: post
    ∧ Forall (λ p, re_valid p = true ∧ re_found p name re.IGNORECASE = false) pre
    ∧ re_valid t = true ∧ re_found t name re.IGNORECASE = true.
Proof.
  induction 1 as [|t tags Hv Hvs IH]; intros (m & Hin & Hm).
  - inversion Hin.
  - destruct (re_found t name re.IGNORECASE) eqn:Ht.
    + exists [], t, tags. repeat split; auto.
    + assert (Hrest : ∃ m', m' ∈ tags ∧ re_found m' name re.IGNORECASE = true).
      { apply elem_of_cons in Hin as [->|Hin]; [congruence | eauto]. }
      destruct (IH Hrest) as (pre & t' & post & -> & Hpre & Hv' & Hf').
      exists (t :: pre), t', post. repeat split; auto.
Qed.

Lemma loop_no_match name (tags : list string) after w :
  Forall (λ t, re_valid t = true) tags →
  (¬ ∃ t, t ∈ tags ∧ re_found t name re.IGNORECASE = true) →
  generator.create_shoe_pair_loop (JStr name) (JStr <$> tags) after w = after w.
Proof.
  intros Hv Hnone.
  rewrite <- (app_nil_r (JStr <$> tags)). apply loop_skips_unmatched.
  apply Forall_forall. intros t Hin. split.
  - rewrite Forall_forall in Hv. auto.
  - destruct (re_found t name re.IGNORECASE) eqn:Ht; [|reflexivity].
    exfalso. apply Hnone. eauto.
Qed.

(** The first tag that matches or does not compile decides. *)
Lemma first_decisive_split name (tags : list string) :
  (∃ pre t post, tags = pre ++ t :: post
     ∧ Forall (λ p, re_valid p = true ∧ re_found p name re.IGNORECASE = false) pre
     ∧ (re_valid t = false ∨ re_found t name re.IGNORECASE = true))
  ∨ Forall (λ p, re_valid p = true ∧ re_found p name re.IGNORECASE = false) tags.
Proof.
  induction tags as [|t tags IH]; [right; constructor|].
  destruct (re_valid t) eqn:Hv; [|left; exists [], t, tags; auto].
  destruct (re_found t name re.IGNORECASE) eqn:Hf; [left; exists [], t, tags; auto|].
  destruct IH as [(pre & t' & post & -> & Hpre & Ht')|Hall].
  - left. exists (t :: pre), t', post. auto.
  - right. constructor; auto.
Qed.

Lemma loop_stops_at_invalid name t rest after w :
  re_valid t = false →
  generator.create_shoe_pair_loop (JStr name) (JStr t :: rest) after w = (Raise ReError, w).
Proof.
  intros Hv. cbn [generator.create_shoe_pair_loop].
  rewrite bind_run, lift_run. cbn [re_search]. rewrite Hv. reflexivity.
Qed.

(** C1, as the code has it.  For a candidate whose name is the str [name],
    [create_shoe_pair] goes through the tags in order and searches each in
    the name with [re.IGNORECASE].  For tags that all compile as patterns
    it returns [None] exactly when some tag is found in the name; with no
    tag it never returns [None]; when a tag matches after tags that
    compile and do not match, the call stops there, returns [None] and its
    diagnostic line names that first matching tag, whatever follows it in
    the list.  For tags of any kind, it returns [None] exactly when a tag
    matches and every tag before the first match compiles; a tag that does
    not compile, met before any match, makes the call raise the engine's
    error, whatever follows it. *)
Theorem create_shoe_pair_excludes_iff_tag_matches (idobj : json) (name : string) (w : world) :
  getitem idobj "name" = Ok (JStr name) →
  (∀ tags : list string,
     Forall (λ t, re_valid t = true) tags →
     (∃ w', generator.create_shoe_pair idobj (JStr <$> tags) w = (Ok None, w'))
     ↔ (∃ t, t ∈ tags ∧ re_found t name re.IGNORECASE = true))
  ∧ (∀ w', generator.create_shoe_pair idobj [] w ≠ (Ok None, w'))
  ∧ (∀ (pre : list string) (t : string) (post : list json),
       Forall (λ p, re_valid p = true ∧ re_found p name re.IGNORECASE = false) pre →
       re_valid t = true → re_found t name re.IGNORECASE = true →
       generator.create_shoe_pair idobj ((JStr <$> pre) ++ JStr t :: post) w =
       (Ok None, said [exclusion_line name t] w))
  ∧ (∀ tags : list string,
       (∃ w', generator.create_shoe_pair idobj (JStr <$> tags) w = (Ok None, w'))
       ↔ (∃ pre t post, tags = pre ++ t :: post
            ∧ Forall (λ p, re_valid p = true ∧ re_found p name re.IGNORECASE = false) pre
            ∧ re_valid t = true ∧ re_found t name re.IGNORECASE = true))
  ∧ (∀ (pre : list string) (t : string) (post : list json),
       Forall (λ p, re_valid p = true ∧ re_found p name re.IGNORECASE = false) pre →
       re_valid t = false →
       generator.create_shoe_pair idobj ((JStr <$> pre) ++ JStr t :: post) w
       = (Raise ReError, w)).
Proof.
  intros Hname.
  assert (Hstop : ∀ (pre : list string) (t : string) (post : list json),
       Forall (λ p, re_valid p = true ∧ re_found p name re.IGNORECASE = false) pre →
       re_valid t = true → re_found t name re.IGNORECASE = true →
       generator.create_shoe_pair idobj ((JStr <$> pre) ++ JStr t :: post) w =
       (Ok None, said [exclusion_line name t] w)).
  { intros pre t post Hpre Hv Hf. unfold generator.create_shoe_pair.
    rewrite bind_run, lift_run, Hname.
    rewrite loop_skips_unmatched by exact Hpre.
    apply loop_stops_at_match; assumption. }
  assert (Hbad : ∀ (pre : list string) (t : string) (post : list json),
       Forall (λ p, re_valid p = true ∧ re_found p name re.IGNORECASE = false) pre →
       re_valid t = false →
       generator.create_shoe_pair idobj ((JStr <$> pre) ++ JStr t :: post) w
       = (Raise ReError, w)).
  { intros pre t post Hpre Hv. unfold generator.create_shoe_pair.
    rewrite bind_run, lift_run, Hname.
    rewrite loop_skips_unmatched by exact Hpre.
    apply loop_stops_at_invalid. exact Hv. }
  split; [|split; [|split; [exact Hstop|split; [|exact Hbad]]]].
  - intros tags Hv. split.
    + intros [w' Hrun].
      destruct (classic_match name tags) as [Hm|Hnone]; [exact Hm|].
      exfalso. revert Hrun. unfold generator.create_shoe_pair.
      rewrite bind_run, lift_run, Hname.
      rewrite loop_no_match by assumption.
      apply wrapped_not_None_after.
    + intros Hm.
      destruct (first_match_split name tags Hv Hm) as (pre & t & post & -> & Hpre & Hvt & Hft).
      exists (said [exclusion_line name t] w).
      rewrite fmap_app, fmap_cons. apply Hstop; assumption.
  - intros w'. unfold generator.create_shoe_pair.
    rewrite bind_run, lift_run, Hname. cbn [generator.create_shoe_pair_loop].
    apply wrapped_not_None_after.
  - intros tags. split.
    + intros [w' Hrun].
      destruct (first_decisive_split name tags)
        as [(pre & t & post & -> & Hpre & [Hv|Hf])|Hall].
      * rewrite fmap_app, fmap_cons, (Hbad pre t _ Hpre Hv) in Hrun. discriminate.
      * destruct (re_valid t) eqn:Hv; [exists pre, t, post; auto|].
        rewrite fmap_app, fmap_cons, (Hbad pre t _ Hpre Hv) in Hrun. discriminate.
      * exfalso. revert Hrun. unfold generator.create_shoe_pair.
        rewrite bind_run, lift_run, Hname.
        rewrite <- (app_nil_r (JStr <$> tags)), loop_skips_unmatched by exact Hall.
        apply wrapped_not_None_after.
    + intros (pre & t & post & -> & Hpre & Hv & Hf).
      exists (said [exclusion_line name t] w).
      rewrite fmap_app, fmap_cons. apply Hstop; assumption.
Qed.
End ExclusionFilter.

(** A run of the filter on a catalog entry of the sample shop. *)
Lemma create_shoe_pair_excludes_iff_tag_matches_witness :
  getitem scenario.retro_high "name" = Ok (JStr "Air Jordan 1 Retro High")
  ∧ generator.create_shoe_pair (web := scenario.shop) (regex := sample.plain_regex)
      scenario.retro_high [JStr "low"; JStr "retro"; JStr "HIGH"; JStr "("] scenario.empty_world
    = (Ok None,
       said [exclusion_line "Air Jordan 1 Retro High" "retro"] scenario.empty_world).
Proof.
  split; [reflexivity|].
  apply (proj1 (proj2 (proj2 (create_shoe_pair_excludes_iff_tag_matches
                         (web := scenario.shop) (regex := sample.plain_regex)
                         scenario.retro_high "Air Jordan 1 Retro High"
                         scenario.empty_world eq_refl)))
           ["low"] "retro" [JStr "HIGH"; JStr "("]).
  - repeat constructor.
  - reflexivity.
  - reflexivity.
Defined.

(** C1 fails as stated: in the list [["(", "retro"]] the tag [retro]
    matches the name case-insensitively, yet [create_shoe_pair] does not
    return [None]: the first tag does not compile, and the call raises the
    engine's error before the second tag is tried, with no diagnostic. *)
Lemma invalid_tag_before_match_raises :
  let run := generator.create_shoe_pair (web := scenario.shop) (regex := sample.plain_regex)
               scenario.retro_high [JStr "("; JStr "retro"] scenario.empty_world in
  getitem scenario.retro_high "name" = Ok (JStr "Air Jordan 1 Retro High")
  ∧ re_valid (Regex := sample.plain_regex) "(" = false
  ∧ re_found (Regex := sample.plain_regex) "retro" "Air Jordan 1 Retro High" re.IGNORECASE
    = true
  ∧ run.1 = Raise ReError
  ∧ run.1 ≠ Ok None
  ∧ w_out run.2 = [].
Proof. vm_compute. repeat split; discriminate. Qed.

(** ** The two exclusion filters *)
Section TwoFilters.
Context {web : Web} {regex : Regex}.

(** The loops of the two files run in step: before the code that follows
    the loop is reached they return the same thing in the same world. *)
Lemma loops_in_step name tags
    (after1 : M (option shoepair.ShoePair)) (after2 : M (option gys_generator.ShoePair)) w :
  (∀ w', after1 w ≠ (Ok None, w')) →
  (∀ w', after2 w ≠ (Ok None, w')) →
  ∀ w', generator.create_shoe_pair_loop name tags after1 w = (Ok None, w')
        ↔ gys_generator.create_shoe_pair_loop name tags after2 w = (Ok None, w').
Proof.
  intros H1 H2 w'. induction tags as [|etag rest IH].
  - cbn [generator.create_shoe_pair_loop gys_generator.create_shoe_pair_loop].
    split; intros Hrun; exfalso; [eapply H1 | eapply H2]; exact Hrun.
  - cbn [generator.create_shoe_pair_loop gys_generator.create_shoe_pair_loop].
    rewrite !bind_run, !lift_run.
    destruct (re_search etag name re.IGNORECASE) as [[|]|e].
    + rewrite !bind_run, print_info_run, gys_print_info_run, !ret_run.
      split; intros [= <-]; reflexivity.
    + exact IH.
    + split; discriminate.
Qed.

(** A [None] from the loop comes with the line that names the tag found. *)
Lemma loop_None_reports name tags (after : M (option shoepair.ShoePair)) w w' :
  (∀ w', after w ≠ (Ok None, w')) →
  generator.create_shoe_pair_loop name tags after w = (Ok None, w') →
  ∃ pre etag post, tags = pre ++ etag :: post
    ∧ Forall (λ t, re_search t name re.IGNORECASE = Ok false) pre
    ∧ re_search etag name re.IGNORECASE = Ok true
    ∧ w' = said [info_line ([Lit "Excluding '"] ++ py_str name
                             ++ [Lit "', found with tag "] ++ py_str etag)] w.
Proof.
  intros Hafter. induction tags as [|etag rest IH].
  - intros Hrun. exfalso. eapply Hafter. exact Hrun.
  - cbn [generator.create_shoe_pair_loop]. rewrite bind_run, lift_run.
    destruct (re_search etag name re.IGNORECASE) as [[|]|e] eqn:Hs.
    + rewrite bind_run, print_info_run, ret_run. intros [= <-].
      exists [], etag, rest. repeat split; auto.
    + intros Hrun. destruct (IH Hrun) as (pre & t & post & -> & Hpre & Ht & ->).
      exists (etag :: pre), t, post. repeat split; auto.
    + discriminate.
Qed.

(** C10.  On every candidate, tag list and world, [create_shoe_pair] of
    generator.py returns [None] exactly when [create_shoe_pair] of
    gys-generator.py does, and then both leave the same world, whose
    console shows the one diagnostic line naming the first tag found in
    the name. *)
Theorem create_shoe_pair_filters_agree (idobj : json) (excludetags : list json) (w w' : world) :
  (generator.create_shoe_pair idobj excludetags w = (Ok None, w')
   ↔ gys_generator.create_shoe_pair idobj excludetags w = (Ok None, w'))
  ∧ (generator.create_shoe_pair idobj excludetags w = (Ok None, w') →
     ∃ name pre etag post,
       getitem idobj "name" = Ok name
       ∧ excludetags = pre ++ etag :: post
       ∧ Forall (λ t, re_search t name re.IGNORECASE = Ok false) pre
       ∧ re_search etag name re.IGNORECASE = Ok true
       ∧ w' = said [info_line ([Lit "Excluding '"] ++ py_str name
                                ++ [Lit "', found with tag "] ++ py_str etag)] w).
Proof.
  unfold generator.create_shoe_pair, gys_generator.create_shoe_pair.
  rewrite !bind_run, !lift_run.
  destruct (getitem idobj "name") as [name|e].
  - split.
    + apply loops_in_step; intros w1.
      * apply wrapped_not_None_after.
      * apply wrapped_not_None.
    + intros Hrun.
      apply loop_None_reports in Hrun as (pre & etag & post & -> & Hpre & Ht & ->).
      * exists name, pre, etag, post. auto.
      * intros w1. apply wrapped_not_None_after.
  - split; [split; discriminate | discriminate].
Qed.
End TwoFilters.

(** Both filters drop the retro item of the sample catalog. *)
Lemma create_shoe_pair_filters_agree_witness :
  gys_generator.create_shoe_pair (web := scenario.shop) (regex := sample.plain_regex)
    scenario.retro_high [JStr "low"; JStr "retro"] scenario.empty_world
  = (Ok None, said [exclusion_line "Air Jordan 1 Retro High" "retro"] scenario.empty_world).
Proof.
  apply (proj1 (proj1 (create_shoe_pair_filters_agree (web := scenario.shop)
                         (regex := sample.plain_regex)
                         scenario.retro_high [JStr "low"; JStr "retro"] scenario.empty_world
                         (said [exclusion_line "Air Jordan 1 Retro High" "retro"]
                            scenario.empty_world)))).
  vm_compute. reflexivity.
Defined.

(** ** The item resolver *)

Lemma tag_getitem_missing attrs attr :
  attr ∉ attrs.*1 → tag_getitem attrs attr = Raise (KeyError attr).
Proof.
  induction attrs as [|[k v] attrs IH]; [reflexivity|].
  cbn [fmap list_fmap fst tag_getitem]. intros Hnot.
  apply not_elem_of_cons in Hnot as [Hne Hrest].
  destruct (String.eqb k attr) eqn:Hk.
  - apply String.eqb_eq in Hk. congruence.
  - apply IH. exact Hrest.
Qed.

Section Resolver.
Context {web : Web}.

Lemma fresh_session_closed (s : gmap nat page) : s !! fresh (dom s) = None.
Proof. apply not_elem_of_dom. apply is_fresh. Qed.

Lemma with_sessions_same w : with_sessions (w_sessions w) w = w.
Proof. destruct w; reflexivity. Qed.

Lemma two_windows_closed (s : gmap nat page) b nb p q :
  s !! b = None → (<[b := p]> s) !! nb = None →
  delete nb (delete b (<[nb := q]> (<[b := p]> s))) = s.
Proof.
  intros Hb Hnb. rewrite delete_delete, delete_insert_id by exact Hnb.
  apply delete_insert_id. exact Hb.
Qed.

Lemma str_add_str a s : str_add a (JStr s) = Ok (a +:+ s).
Proof. reflexivity. Qed.

(** The loop of [_search], from a world where window [b] shows the
    results page. *)
Lemma search_loop_run id b anchors w :
  shoepair._search_loop (JStr id) b anchors w =
  match resolution.first_item_link id anchors with
  | Raise e => (Raise e, w)
  | Ok None => (Ok b, w)
  | Ok (Some href) =>
      let nb := fresh (dom (w_sessions w)) in
      match web_get href with
      | Some item =>
          (Ok nb, with_sessions (delete b (<[nb := item]> (w_sessions w))) w)
      | None =>
          (Raise WebDriverException,
           with_sessions (<[nb := blank_page]> (w_sessions w)) w)
      end
  end.
Proof.
  induction anchors as [|aelem rest IH]; [reflexivity|].
  cbn [shoepair._search_loop resolution.first_item_link].
  rewrite bind_run, lift_run, str_add_str, bind_run, lift_run.
  destruct (tag_getitem (el_attrs aelem) "href") as [href|e] eqn:Hhref; [|reflexivity].
  destruct (str_contains ("-" +:+ id) href); [|exact IH].
  rewrite bind_run. unfold Browser at 1.
  rewrite bind_run, lift_run, bind_run.
  unfold visit at 1. cbn [w_sessions with_sessions].
  rewrite lookup_insert_eq.
  destruct (web_get href) as [item|]; [|reflexivity].
  rewrite bind_run. unfold quit at 1. rewrite ret_run.
  cbn [w_sessions with_sessions]. rewrite insert_insert_eq. reflexivity.
Qed.

Lemma search_run id w :
  shoepair._search (JStr id) w =
  let w0 := said [info_line [Lit "Searching for "; Lit id]] w in
  let b := fresh (dom (w_sessions w)) in
  match web_get (globals.BASE_SEARCH_SITE +:+ id) with
  | None =>
      (Raise WebDriverException,
       with_sessions (<[b := blank_page]> (w_sessions w)) w0)
  | Some results =>
      shoepair._search_loop (JStr id) b (pg_anchors results)
        (with_sessions (<[b := results]> (w_sessions w)) w0)
  end.
Proof.
  unfold shoepair._search.
  rewrite bind_run, print_info_run, bind_run. unfold Browser at 1.
  rewrite bind_run, lift_run, str_add_str, bind_run.
  unfold visit at 1. cbn [w_sessions with_sessions said py_str app].
  rewrite lookup_insert_eq.
  destruct (web_get (globals.BASE_SEARCH_SITE +:+ id)) as [results|]; [|reflexivity].
  rewrite bind_run. unfold html at 1. cbn [w_sessions with_sessions].
  rewrite lookup_insert_eq, insert_insert_eq. reflexivity.
Qed.

(** [_search] on an id that is not a str fails on the concatenation. *)
Lemma search_not_str id w :
  (∀ s, id ≠ JStr s) → ∃ w', shoepair._search id w = (Raise TypeError, w').
Proof.
  intros Hid. unfold shoepair._search.
  rewrite bind_run, print_info_run, bind_run. unfold Browser at 1.
  rewrite bind_run, lift_run.
  destruct id; try (eexists; reflexivity).
  exfalso. eapply Hid. reflexivity.
Qed.

Lemma get_shoe_name_run bs p w :
  w_sessions w !! bs = Some p →
  shoepair._get_shoe_name bs w = (Ok (resolution.name_on p), w).
Proof.
  intros Hbs. unfold shoepair._get_shoe_name, resolution.name_on.
  rewrite bind_run. unfold html at 1. rewrite Hbs.
  unfold shoepair._evaluate_soup_select.
  destruct (pg_select p shoepair.name_selector); reflexivity.
Qed.

Lemma get_shoe_image_run bs p w :
  w_sessions w !! bs = Some p →
  shoepair._get_shoe_image bs w = (resolution.image_on p, w).
Proof.
  intros Hbs. unfold shoepair._get_shoe_image, resolution.image_on.
  rewrite bind_run. unfold html at 1. rewrite Hbs.
  unfold shoepair._evaluate_soup_select.
  destruct (pg_select p shoepair.image_selector); reflexivity.
Qed.
End Resolver.

Section ResolverRuns.
Context {web : Web}.

Lemma world_eq (w1 w2 : world) :
  w_sessions w1 = w_sessions w2 → w_files w1 = w_files w2 →
  w_written w1 = w_written w2 → w_out w1 = w_out w2 → w_in w1 = w_in w2 →
  w1 = w2.
Proof. destruct w1, w2; cbn; intros; subst; reflexivity. Qed.

(** Extraction, the closing line and [quit], from a world where window [b]
    shows page [p]. *)
Lemma init_tail_run b p (w : world) :
  w_sessions w !! b = Some p →
  (name ← shoepair._get_shoe_name b;
   image ← shoepair._get_shoe_image b;
   globals.print_info [Lit "Constructed shoe with "; Lit "
Name: "; Lit name; Lit "
Img URL: "; Lit image];;
   quit b;;
   mret {| shoepair._name := name; shoepair._image := image |}) w =
  match resolution.image_on p with
  | Ok image =>
      (Ok {| shoepair._name := resolution.name_on p; shoepair._image := image |},
       with_sessions (delete b (w_sessions w))
         (said [info_line [Lit "Constructed shoe with "; Lit "
Name: "; Lit (resolution.name_on p); Lit "
Img URL: "; Lit image]] w))
  | Raise e => (Raise e, w)
  end.
Proof.
  intros Hb.
  rewrite bind_run, (get_shoe_name_run b p w Hb).
  rewrite bind_run, (get_shoe_image_run b p w Hb).
  destruct (resolution.image_on p) as [image|e]; reflexivity.
Qed.

Lemma init_run id tags w :
  match resolution.resolve id with
  | Ok made =>
      shoepair.__init__ (JStr id) tags w = (Ok made, said (resolution_lines id made) w)
  | Raise e => ∃ w', shoepair.__init__ (JStr id) tags w = (Raise e, w')
  end.
Proof.
  unfold shoepair.__init__, resolution.resolve, resolution.active_page.
  rewrite bind_run, search_run. cbv zeta.
  pose proof (fresh_session_closed (w_sessions w)) as Hb.
  set (b := fresh (dom (w_sessions w))) in *.
  destruct (web_get (globals.BASE_SEARCH_SITE +:+ id)) as [results|];
    [|eexists; reflexivity].
  rewrite search_loop_run. cbv zeta.
  destruct (resolution.first_item_link id (pg_anchors results)) as [[href|]|e];
    [| |eexists; reflexivity].
  - cbn [w_sessions with_sessions said].
    pose proof (fresh_session_closed (<[b := results]> (w_sessions w))) as Hnb.
    set (nb := fresh (dom (<[b := results]> (w_sessions w)))) in *.
    destruct (web_get href) as [item|]; [|eexists; reflexivity].
    rewrite (init_tail_run nb item).
    + destruct (resolution.image_on item) as [image|e]; [|eexists; reflexivity].
      f_equal. apply world_eq; cbn; try reflexivity.
      * apply two_windows_closed; assumption.
      * rewrite <- app_assoc. reflexivity.
    + cbn. assert (b ≠ nb).
      { intros Heq. rewrite <- Heq, lookup_insert_eq in Hnb. discriminate. }
      rewrite lookup_delete_ne by assumption. apply lookup_insert_eq.
  - rewrite (init_tail_run b results).
    + destruct (resolution.image_on results) as [image|e]; [|eexists; reflexivity].
      f_equal. apply world_eq; cbn; try reflexivity.
      * apply delete_insert_id. exact Hb.
      * rewrite <- app_assoc. reflexivity.
    + cbn. apply lookup_insert_eq.
Qed.

Lemma init_ok id tags w made :
  resolution.resolve id = Ok made →
  shoepair.__init__ (JStr id) tags w = (Ok made, said (resolution_lines id made) w).
Proof. intros Hr. pose proof (init_run id tags w) as Hrun. rewrite Hr in Hrun. exact Hrun. Qed.

Lemma init_ok_inv id tags w made w' :
  shoepair.__init__ id tags w = (Ok made, w') →
  ∃ s, id = JStr s ∧ resolution.resolve s = Ok made ∧ w' = said (resolution_lines s made) w.
Proof.
  intros Hrun.
  assert (Hstr : ∃ s, id = JStr s).
  { destruct id; eauto;
      (exfalso; revert Hrun; unfold shoepair.__init__; rewrite bind_run;
       edestruct (search_not_str) as [w1 ->]; [|discriminate]; congruence). }
  destruct Hstr as [s ->]. exists s.
  pose proof (init_run s tags w) as Hspec.
  destruct (resolution.resolve s) as [made'|e].
  - rewrite Hspec in Hrun. injection Hrun as -> <-. auto.
  - destruct Hspec as [w1 Hspec]. rewrite Hspec in Hrun. discriminate.
Qed.
End ResolverRuns.

(** ** Browser windows during resolution *)
Section Windows.
Context {web : Web}.

(** A successful [_search] leaves one more window open than before: the
    one it returns, on the page extraction will read. *)
Lemma search_ok_inv id w b w1 :
  shoepair._search id w = (Ok b, w1) →
  ∃ s p, id = JStr s ∧ resolution.active_page s = Ok p
    ∧ w_sessions w !! b = None
    ∧ w1 = with_sessions (<[b := p]> (w_sessions w))
             (said [info_line [Lit "Searching for "; Lit s]] w).
Proof.
  intros Hrun.
  assert (Hstr : ∃ s, id = JStr s).
  { destruct id; eauto;
      (exfalso; edestruct (search_not_str) as [w2 Hw2];
       [|rewrite Hw2 in Hrun; discriminate]; congruence). }
  destruct Hstr as [s ->]. exists s.
  revert Hrun. rewrite search_run. cbv zeta. unfold resolution.active_page.
  pose proof (fresh_session_closed (w_sessions w)) as Hb0.
  set (b0 := fresh (dom (w_sessions w))) in *.
  destruct (web_get (globals.BASE_SEARCH_SITE +:+ s)) as [results|]; [|discriminate].
  rewrite search_loop_run. cbv zeta.
  destruct (resolution.first_item_link s (pg_anchors results)) as [[href|]|e];
    [| |discriminate].
  - cbn [w_sessions with_sessions said].
    pose proof (fresh_session_closed (<[b0 := results]> (w_sessions w))) as Hnb.
    set (nb := fresh (dom (<[b0 := results]> (w_sessions w)))) in *.
    destruct (web_get href) as [item|]; [|discriminate].
    intros [= <- <-]. exists item.
    assert (b0 ≠ nb).
    { intros Heq. rewrite <- Heq, lookup_insert_eq in Hnb. discriminate. }
    rewrite lookup_insert_ne in Hnb by assumption.
    repeat split; [exact Hnb|].
    apply world_eq; cbn; try reflexivity.
    rewrite delete_insert_ne by assumption.
    rewrite delete_insert_id by exact Hb0. reflexivity.
  - intros [= <- <-]. exists results. repeat split. exact Hb0.
Qed.

Lemma search_ok id p w :
  resolution.active_page id = Ok p →
  ∃ b, shoepair._search (JStr id) w =
         (Ok b, with_sessions (<[b := p]> (w_sessions w))
                  (said [info_line [Lit "Searching for "; Lit id]] w))
       ∧ w_sessions w !! b = None.
Proof.
  unfold resolution.active_page. rewrite search_run. cbv zeta.
  pose proof (fresh_session_closed (w_sessions w)) as Hb0.
  set (b0 := fresh (dom (w_sessions w))) in *.
  destruct (web_get (globals.BASE_SEARCH_SITE +:+ id)) as [results|]; [|discriminate].
  rewrite search_loop_run. cbv zeta.
  destruct (resolution.first_item_link id (pg_anchors results)) as [[href|]|e];
    [| |discriminate].
  - cbn [w_sessions with_sessions said].
    pose proof (fresh_session_closed (<[b0 := results]> (w_sessions w))) as Hnb.
    set (nb := fresh (dom (<[b0 := results]> (w_sessions w)))) in *.
    destruct (web_get href) as [item|]; [|discriminate].
    intros [= <-]. exists nb.
    assert (b0 ≠ nb).
    { intros Heq. rewrite <- Heq, lookup_insert_eq in Hnb. discriminate. }
    rewrite lookup_insert_ne in Hnb by assumption.
    split; [|exact Hnb]. f_equal.
    apply world_eq; cbn; try reflexivity.
    rewrite delete_insert_ne by assumption.
    rewrite delete_insert_id by exact Hb0. reflexivity.
  - intros [= <-]. exists b0. split; [reflexivity | exact Hb0].
Qed.

(** C7, as the code has it.  When [ShoePair(id)] completes without raising,
    the windows open afterwards are exactly those open before: every window
    opened for the item has been quit, the search window included when a
    second one was opened for the item page (a successful [_search] leaves
    open only the window it returns).  Nothing is promised when an
    extraction step raises. *)
Theorem sessions_released_when_resolution_completes
    (id : json) (excludetags : list json) (w : world) :
  (∀ made w', shoepair.__init__ id excludetags w = (Ok made, w') →
              w_sessions w' = w_sessions w)
  ∧ (∀ b w1, shoepair._search id w = (Ok b, w1) →
             w_sessions w !! b = None
             ∧ ∃ p, w_sessions w1 = <[b := p]> (w_sessions w)).
Proof.
  split.
  - intros made w' Hrun.
    apply init_ok_inv in Hrun as (s & -> & _ & ->). reflexivity.
  - intros b w1 Hrun.
    apply search_ok_inv in Hrun as (s & p & -> & _ & Hb & ->).
    split; [exact Hb|]. exists p. reflexivity.
Qed.

(** The anchors before the link the loop stops at, in terms of the list. *)
Lemma first_item_link_found id pre aelem post href :
  Forall (λ a, ∃ h, tag_getitem (el_attrs a) "href" = Ok h
                    ∧ str_contains ("-" +:+ id) h = false) pre →
  tag_getitem (el_attrs aelem) "href" = Ok href →
  str_contains ("-" +:+ id) href = true →
  resolution.first_item_link id (pre ++ aelem :: post) = Ok (Some href).
Proof.
  intros Hpre Hhref Hin. induction Hpre as [|a pre (h & Hh & Hno) _ IH].
  - cbn. rewrite Hhref, Hin. reflexivity.
  - cbn. rewrite Hh, Hno. exact IH.
Qed.

Lemma first_item_link_none id anchors :
  Forall (λ a, ∃ h, tag_getitem (el_attrs a) "href" = Ok h
                    ∧ str_contains ("-" +:+ id) h = false) anchors →
  resolution.first_item_link id anchors = Ok None.
Proof.
  induction 1 as [|a rest (h & Hh & Hno) _ IH]; [reflexivity|].
  cbn. rewrite Hh, Hno. exact IH.
Qed.

Lemma ends_path_segment_contained suffix href :
  ends_path_segment suffix href = true → str_contains suffix href = true.
Proof.
  induction href as [|c href IH]; cbn [ends_path_segment str_contains].
  - rewrite !orb_false_r. intros [Hp _]%andb_true_iff. exact Hp.
  - intros [[Hp _]%andb_true_iff | Hrest]%orb_true_iff.
    + rewrite Hp. reflexivity.
    + rewrite (IH Hrest). apply orb_true_r.
Qed.

(** C8, as the code has it.  [_search] takes the anchors of the results
    page in order and stops at the first one whose [href] contains the
    text ["-" + id] anywhere (in particular a link with a path segment
    ending in ["-" + id]); it then shows that link in a new window, which
    it returns, so extraction reads the item page.  When every anchor has
    an [href] and none contains ["-" + id], it returns the window on the
    results page. *)
Theorem search_follows_first_link_containing_id
    (id : string) (results : page) (w : world) :
  web_get (globals.BASE_SEARCH_SITE +:+ id) = Some results →
  (∀ pre aelem post href item,
     pg_anchors results = pre ++ aelem :: post →
     Forall (λ a, ∃ h, tag_getitem (el_attrs a) "href" = Ok h
                       ∧ str_contains ("-" +:+ id) h = false) pre →
     tag_getitem (el_attrs aelem) "href" = Ok href →
     str_contains ("-" +:+ id) href = true →
     web_get href = Some item →
     ∃ b w', shoepair._search (JStr id) w = (Ok b, w')
             ∧ w_sessions w !! b = None
             ∧ w_sessions w' = <[b := item]> (w_sessions w))
  ∧ (Forall (λ a, ∃ h, tag_getitem (el_attrs a) "href" = Ok h
                       ∧ str_contains ("-" +:+ id) h = false) (pg_anchors results) →
     ∃ b w', shoepair._search (JStr id) w = (Ok b, w')
             ∧ w_sessions w !! b = None
             ∧ w_sessions w' = <[b := results]> (w_sessions w))
  ∧ (∀ href, ends_path_segment ("-" +:+ id) href = true →
             str_contains ("-" +:+ id) href = true).
Proof.
  intros Hresults. split; [|split].
  - intros pre aelem post href item Hanchors Hpre Hhref Hin Hitem.
    destruct (search_ok id item w) as (b & Hrun & Hb).
    { unfold resolution.active_page. rewrite Hresults, Hanchors.
      rewrite (first_item_link_found id pre aelem post href) by assumption.
      rewrite Hitem. reflexivity. }
    exists b. eexists. split; [exact Hrun|]. split; [exact Hb | reflexivity].
  - intros Hnone.
    destruct (search_ok id results w) as (b & Hrun & Hb).
    { unfold resolution.active_page. rewrite Hresults.
      rewrite first_item_link_none by assumption. reflexivity. }
    exists b. eexists. split; [exact Hrun|]. split; [exact Hb | reflexivity].
  - intros href. apply ends_path_segment_contained.
Qed.
End Windows.

(** On the sample shop, item 012345 resolves and leaves no window open. *)
Lemma sessions_released_when_resolution_completes_witness :
  w_sessions (shoepair.__init__ (web := scenario.shop) (JStr "012345") []
                scenario.empty_world).2
  = w_sessions scenario.empty_world.
Proof.
  apply (proj1 (sessions_released_when_resolution_completes (web := scenario.shop)
                  (JStr "012345") [] scenario.empty_world)
           {| shoepair._name := "Air Jordan 1 Low";
              shoepair._image := "https://cdn.flightclub.com/012345.jpg" |}).
  vm_compute. reflexivity.
Defined.

(** C7 fails as stated: on a results page whose product image has no [src],
    image extraction raises a [KeyError]; the window opened for the item is
    still open afterwards, although none was open before. *)
Lemma extraction_error_leaves_window_open :
  let run := shoepair.__init__ (web := scenario.shop) (JStr "777") [] scenario.empty_world in
  run.1 = Raise (KeyError "src")
  ∧ w_sessions scenario.empty_world = ∅
  ∧ w_sessions run.2 !! 0 = Some scenario.results_777
  ∧ w_sessions run.2 ≠ w_sessions scenario.empty_world.
Proof.
  cbv zeta. repeat split; try (vm_compute; reflexivity).
  intros Heq. apply (f_equal (λ sessions, sessions !! 0)) in Heq.
  vm_compute in Heq. discriminate Heq.
Qed.

(** On the sample shop, the search for 012345 stops at the second link. *)
Lemma search_follows_first_link_containing_id_witness :
  ∃ b w', shoepair._search (web := scenario.shop) (JStr "012345") scenario.empty_world
          = (Ok b, w')
          ∧ w_sessions scenario.empty_world !! b = None
          ∧ w_sessions w' = <[b := scenario.item_page]> (w_sessions scenario.empty_world).
Proof.
  apply (proj1 (search_follows_first_link_containing_id (web := scenario.shop)
                  "012345" scenario.results_012345 scenario.empty_world eq_refl)
           [Element [("href", scenario.shop_url "/")] "Home"]
           (Element [("href", scenario.shop_url "/air-jordan-1-low-012345")] "Air Jordan 1 Low")
           [Element [("name", "top")] ""]
           (scenario.shop_url "/air-jordan-1-low-012345")
           scenario.item_page).
  - reflexivity.
  - constructor; [|constructor]. eexists. split; reflexivity.
  - reflexivity.
  - reflexivity.
  - reflexivity.
Defined.

(** C8 fails as stated: the only link of this results page does not have
    the id 123, with or without the dash, at the end of a path segment, yet
    [_search] follows it, so extraction reads that page and not the results
    page. *)
Lemma search_follows_link_without_segment_suffix :
  let run := shoepair._search (web := scenario.shop) (JStr "123") scenario.empty_world in
  web_get (Web := scenario.shop) (globals.BASE_SEARCH_SITE +:+ "123") = Some scenario.results_123
  ∧ el_attrs <$> pg_anchors scenario.results_123
    = [[("href", "https://www.flightclub.com/air-jordan-1234")]]
  ∧ ends_path_segment "123" "https://www.flightclub.com/air-jordan-1234" = false
  ∧ ends_path_segment "-123" "https://www.flightclub.com/air-jordan-1234" = false
  ∧ run.1 = Ok 1
  ∧ w_sessions run.2 !! 1 = Some scenario.item_1234_page
  ∧ w_sessions run.2 !! 1 ≠ Some scenario.results_123.
Proof.
  cbv zeta. repeat split; try (vm_compute; reflexivity).
  intros Heq.
  apply (f_equal (λ shown : option page, length <$> (pg_anchors <$> shown))) in Heq.
  vm_compute in Heq. discriminate Heq.
Qed.

(** ** File numbering *)
Section Numbering.
Context {web : Web} {regex : Regex} {codec : JsonCodec} {disk : Disk}.

Lemma excluded_by_spec name tags :
  resolution.excluded_by name tags = true ↔ ∃ t, t ∈ tags ∧ re_found t name re.IGNORECASE = true.
Proof.
  unfold resolution.excluded_by. rewrite existsb_exists. split.
  - intros (t & Hin & Ht). exists t. split; [apply list_elem_of_In; exact Hin | exact Ht].
  - intros (t & Hin & Ht). exists t. split; [apply list_elem_of_In; exact Hin | exact Ht].
Qed.

Lemma create_shoe_pair_dropped idobj name tags w :
  getitem idobj "name" = Ok (JStr name) →
  Forall (λ t, re_valid t = true) tags →
  resolution.excluded_by name tags = true →
  ∃ t, generator.create_shoe_pair idobj (JStr <$> tags) w
       = (Ok None, said [exclusion_line name t] w).
Proof.
  intros Hname Hv Hex. apply excluded_by_spec in Hex.
  destruct (first_match_split name tags Hv Hex) as (pre & t & post & -> & Hpre & Hvt & Hft).
  exists t. unfold generator.create_shoe_pair.
  rewrite bind_run, lift_run, Hname, fmap_app, fmap_cons.
  rewrite loop_skips_unmatched by exact Hpre.
  apply loop_stops_at_match; assumption.
Qed.

Lemma create_shoe_pair_kept idobj name id made tags w :
  getitem idobj "name" = Ok (JStr name) →
  Forall (λ t, re_valid t = true) tags →
  resolution.excluded_by name tags = false →
  getitem idobj "id" = Ok (JStr id) →
  resolution.resolve id = Ok made →
  generator.create_shoe_pair idobj (JStr <$> tags) w
  = (Ok (Some made), said (resolution_lines id made) w).
Proof.
  intros Hname Hv Hex Hid Hres. unfold generator.create_shoe_pair.
  rewrite bind_run, lift_run, Hname.
  rewrite loop_no_match; [|exact Hv|].
  - rewrite bind_run, lift_run, Hid, bind_run.
    rewrite (init_ok id _ _ made Hres). reflexivity.
  - intros Hm. apply excluded_by_spec in Hm. congruence.
Qed.

Lemma numbered_file_shift directory n i made :
  resolution.numbered_file directory n (S i) made
  = resolution.numbered_file directory (n + 1) i made.
Proof.
  unfold resolution.numbered_file.
  replace (n + Z.of_nat (S i))%Z with (n + 1 + Z.of_nat i)%Z by lia. reflexivity.
Qed.

Lemma numbered_file_first directory n made :
  resolution.numbered_file directory n 0 made
  = (directory +:+ pretty n +:+ ".json",
     json_dumps (JDict [("name", JStr (shoepair.get_name made));
                        ("img", JStr (shoepair.get_image made))])).
Proof. unfold resolution.numbered_file. cbn [Z.of_nat]. rewrite Z.add_0_r. reflexivity. Qed.

Lemma can_open_numbered_cons directory n made kept :
  can_open (imap (resolution.numbered_file directory n) (made :: kept)) →
  open_error (directory +:+ pretty n +:+ ".json") = None
  ∧ can_open (imap (resolution.numbered_file directory (n + 1)) kept).
Proof.
  unfold can_open. rewrite imap_cons, numbered_file_first.
  intros Hopen. apply Forall_cons in Hopen as [Hhead Htail]. split; [exact Hhead|].
  rewrite (imap_ext _ (resolution.numbered_file directory (n + 1))) in Htail
    by (intros; apply numbered_file_shift).
  exact Htail.
Qed.

(** The loop of [create_all_files] over candidates that all pass, when
    every file it comes to can be opened. *)
Lemma create_all_files_loop_run directory (tags : list string) shoelist :
  Forall (λ t, re_valid t = true) tags →
  forallb (resolution.passes tags) shoelist = true →
  ∀ (n : Z) (w : world),
  let kept := omap (resolution.kept_pair tags) shoelist in
  let files := imap (resolution.numbered_file directory (n + 1)) kept in
  can_open files →
  ∃ w', generator.create_all_files_loop directory (JStr <$> tags) shoelist n w
        = (Ok (n + Z.of_nat (length kept))%Z, w')
    ∧ w_written w' = w_written w ++ files
    ∧ w_files w' = files_after (w_files w) files
    ∧ w_sessions w' = w_sessions w
    ∧ w_in w' = w_in w.
Proof.
  intros Hv. induction shoelist as [|shoe rest IH]; intros Hpass n w.
  - cbn. intros _. exists w. rewrite Z.add_0_r, app_nil_r. auto.
  - cbn [forallb] in Hpass. apply andb_true_iff in Hpass as [Hshoe Hrest].
    specialize (IH Hrest).
    cbv zeta. cbn [generator.create_all_files_loop omap list_omap].
    unfold resolution.passes in Hshoe.
    destruct (getitem shoe "name") as [[| | | |name| |]|] eqn:Hname; try discriminate.
    destruct (resolution.excluded_by name tags) eqn:Hex.
    + assert (Hk : resolution.kept_pair tags shoe = None).
      { unfold resolution.kept_pair. rewrite Hname, Hex. reflexivity. }
      rewrite Hk. intros Hopen.
      destruct (create_shoe_pair_dropped shoe name tags w Hname Hv Hex) as [t Hrun].
      rewrite bind_run, Hrun.
      destruct (IH n (said [exclusion_line name t] w) Hopen)
        as (w' & Hloop & Hw & Hf & Hs & Hi).
      exists w'. auto.
    + cbn [orb] in Hshoe.
      destruct (getitem shoe "id") as [[| | | |id| |]|] eqn:Hid; try discriminate.
      destruct (resolution.resolve id) as [made|] eqn:Hres; [|discriminate].
      assert (Hk : resolution.kept_pair tags shoe = Some made).
      { unfold resolution.kept_pair. rewrite Hname, Hex, Hid, Hres. reflexivity. }
      rewrite Hk. intros Hopen.
      apply can_open_numbered_cons in Hopen as [Hhead Htail].
      rewrite bind_run, (create_shoe_pair_kept shoe name id made tags w) by assumption.
      unfold generator.create_file.
      rewrite bind_run, (write_file_run _ _ _ Hhead).
      rewrite bind_run, print_info_run.
      match goal with
      | |- context [generator.create_all_files_loop _ _ _ _ ?w1] =>
          destruct (IH (n + 1)%Z w1 Htail) as (w' & Hloop & Hw & Hf & Hs & Hi)
      end.
      exists w'. rewrite Hloop. cbn [length].
      split; [f_equal; f_equal; lia|].
      rewrite imap_cons.
      rewrite (imap_ext _ (resolution.numbered_file directory (n + 1 + 1)))
        by (intros; apply numbered_file_shift).
      rewrite numbered_file_first.
      cbn in Hw, Hf, Hs, Hi.
      split; [rewrite Hw, <- app_assoc; reflexivity|].
      split; [rewrite Hf; reflexivity|]. auto.
Qed.
End Numbering.

Lemma string_length_app (a b : string) :
  String.length (a +:+ b) = String.length a + String.length b.
Proof.
  induction a as [|c a IH]; [reflexivity|].
  change (S (String.length (a +:+ b)) = S (String.length a + String.length b)).
  rewrite IH. reflexivity.
Qed.



Section NumberingClaim.
Context {web : Web} {regex : Regex} {codec : JsonCodec} {disk : Disk}.



End NumberingClaim.



(** ** Missing content *)
Section Sentinels.
Context {web : Web} {regex : Regex} {codec : JsonCodec} {disk : Disk}.



End Sentinels.



(** ** The pattern of the catalog extractor *)

Lemma string_app_assoc (a b c : string) : (a +:+ b) +:+ c = a +:+ b +:+ c.
Proof.
  induction a as [|x a IH]; [reflexivity|].
  change (String x ((a +:+ b) +:+ c) = String x (a +:+ b +:+ c)). rewrite IH. reflexivity.
Qed.

Lemma prefix_app (p s : string) : String.prefix p (p +:+ s) = true.
Proof.
  induction p as [|x p IH]; [destruct s; reflexivity|].
  change (String.prefix (String x p) (String x (p +:+ s)) = true).
  cbn [String.prefix]. destruct (ascii_dec x x); [exact IH | congruence].
Qed.

Lemma drop_string_app (p s : string) : drop_string (String.length p) (p +:+ s) = s.
Proof. induction p as [|x p IH]; [reflexivity | exact IH]. Qed.

Lemma prefix_split (p s : string) :
  String.prefix p s = true → s = p +:+ drop_string (String.length p) s.
Proof.
  revert s. induction p as [|x p IH]; intros s Hp; [reflexivity|].
  destruct s as [|y s]; [discriminate|].
  cbn [String.prefix] in Hp. destruct (ascii_dec x y) as [->|]; [|discriminate].
  change (String y s = String y (p +:+ drop_string (String.length p) s)).
  rewrite <- (IH s Hp). reflexivity.
Qed.

(** The lazy group stops at the first closing bracket, and only a newline
    before one makes it fail. *)
Lemma lazy_group_sound s g :
  lazy_group_until_bracket s = Some g →
  string_forallb group_char g = true ∧ ∃ b, s = g +:+ "]" +:+ b.
Proof.
  revert g. induction s as [|c s IH]; intros g; [discriminate|].
  cbn [lazy_group_until_bracket].
  destruct (Ascii.eqb c "]") eqn:Hb.
  - intros [= <-]. apply Ascii.eqb_eq in Hb as ->. split; [reflexivity|]. exists s. reflexivity.
  - destruct (Ascii.eqb c "010") eqn:Hn; [discriminate|].
    destruct (lazy_group_until_bracket s) as [g'|]; [|discriminate].
    intros [= <-]. destruct (IH g' eq_refl) as (Hg & b & ->). split.
    + cbn [string_forallb]. unfold group_char at 1. rewrite Hb, Hn. exact Hg.
    + exists b. reflexivity.
Qed.

Lemma lazy_group_complete g b :
  string_forallb not_newline g = true →
  is_Some (lazy_group_until_bracket (g +:+ "]" +:+ b)).
Proof.
  induction g as [|c g IH]; intros Hg.
  - eexists. reflexivity.
  - cbn [string_forallb] in Hg. apply andb_true_iff in Hg as [Hc Hg].
    change (is_Some (lazy_group_until_bracket (String c (g +:+ "]" +:+ b)))).
    cbn [lazy_group_until_bracket].
    destruct (Ascii.eqb c "]"); [eexists; reflexivity|].
    unfold not_newline in Hc. destruct (Ascii.eqb c "010"); [discriminate|].
    destruct (IH Hg) as [g' ->]. eexists. reflexivity.
Qed.

(** A match of the pattern: the text holds the marker, then a group without
    bracket or newline, then a closing bracket. *)
Lemma impressions_regex_search_sound text g :
  impressions_regex_search text = Some g →
  string_forallb group_char g = true
  ∧ ∃ a b, text = a +:+ impressions_prefix +:+ g +:+ "]" +:+ b.
Proof.
  induction text as [|c text IH]; cbn [impressions_regex_search].
  - unfold impressions_match_here. cbn. discriminate.
  - destruct (impressions_match_here (String c text)) as [g'|] eqn:Hhere.
    + intros [= ->]. unfold impressions_match_here in Hhere.
      destruct (String.prefix impressions_prefix (String c text)) eqn:Hp; [|discriminate].
      apply lazy_group_sound in Hhere as (Hg & b & Hrest). split; [exact Hg|].
      exists EmptyString, b. rewrite (prefix_split _ _ Hp), Hrest. reflexivity.
    + intros Hs. destruct (IH Hs) as (Hg & a & b & ->). split; [exact Hg|].
      exists (String c a), b. reflexivity.
Qed.

(** No match: wherever the marker stands in the text, a newline comes
    before the next closing bracket. *)
Lemma impressions_regex_search_none text :
  impressions_regex_search text = None →
  ∀ a g b, text = a +:+ impressions_prefix +:+ g +:+ "]" +:+ b →
           string_forallb not_newline g = false.
Proof.
  intros Hnone a g b ->. destruct (string_forallb not_newline g) eqn:Hg; [|reflexivity].
  exfalso. induction a as [|c a IH].
  - assert (Hhere : is_Some (impressions_match_here (impressions_prefix +:+ g +:+ "]" +:+ b))).
    { unfold impressions_match_here. rewrite prefix_app, drop_string_app.
      apply lazy_group_complete. exact Hg. }
    destruct Hhere as [g' Hhere].
    change (EmptyString +:+ impressions_prefix +:+ g +:+ "]" +:+ b)
      with (impressions_prefix +:+ g +:+ "]" +:+ b) in Hnone.
    destruct (impressions_prefix +:+ g +:+ "]" +:+ b) eqn:Htext;
      cbn [impressions_regex_search] in Hnone; rewrite Hhere in Hnone; discriminate.
  - change (impressions_regex_search
              (String c (a +:+ impressions_prefix +:+ g +:+ "]" +:+ b)) = None) in Hnone.
    cbn [impressions_regex_search] in Hnone.
    destruct (impressions_match_here _); [discriminate|]. exact (IH Hnone).
Qed.

(** ** The catalog extractor *)
Section CatalogExtractor.
Context {codec : JsonCodec}.

Lemma find_script_none scripts :
  Forall (λ text, impressions_regex_search text = None) scripts →
  List.find (λ text, bool_decide (is_Some (impressions_regex_search text))) scripts = None.
Proof.
  induction 1 as [|text rest Hnone _ IH]; [reflexivity|].
  cbn [List.find]. rewrite Hnone.
  rewrite bool_decide_eq_false_2 by (intros [? ?]; discriminate). exact IH.
Qed.

Lemma find_script_first before script rest group1 :
  Forall (λ text, impressions_regex_search text = None) before →
  impressions_regex_search script = Some group1 →
  List.find (λ text, bool_decide (is_Some (impressions_regex_search text)))
            (before ++ script :: rest) = Some script.
Proof.
  intros Hbefore Hscript. induction Hbefore as [|text before Hnone _ IH].
  - cbn [app List.find]. rewrite Hscript.
    rewrite bool_decide_eq_true_2 by eauto. reflexivity.
  - cbn [app List.find]. rewrite Hnone.
    rewrite bool_decide_eq_false_2 by (intros [? ?]; discriminate). exact IH.
Qed.

(** C3, as the code has it.  When no script of the page matches the
    ['impressions'] pattern, [get_impressions_list] returns the one-element
    list [[{"name": "NULL"}]] and raises nothing.  When a script matches,
    the first such script decides: the call shows the bracketed contents
    and returns what [json.loads] makes of them between brackets, and when
    [json.loads] fails the call raises [JSONDecodeError], without a
    fallback. *)
Theorem get_impressions_list_falls_back_without_marker (bsoup : page) (w : world) :
  (Forall (λ text, impressions_regex_search text = None) (pg_scripts bsoup) →
   generator.get_impressions_list bsoup w
   = (Ok (JList [JDict [("name", JStr "NULL")]]), w))
  ∧ (∀ before script rest group1,
       pg_scripts bsoup = before ++ script :: rest →
       Forall (λ text, impressions_regex_search text = None) before →
       impressions_regex_search script = Some group1 →
       generator.get_impressions_list bsoup w
       = (match json_loads ("[" +:+ group1 +:+ "]") with
          | Some found => Ok found
          | None => Raise JSONDecodeError
          end,
          said [info_line [Lit ("Found impressions list: " +:+ group1)]] w)).
Proof.
  split.
  - intros Hnone. unfold generator.get_impressions_list.
    rewrite find_script_none by exact Hnone. reflexivity.
  - intros before script rest group1 Hscripts Hbefore Hscript.
    unfold generator.get_impressions_list.
    rewrite Hscripts, (find_script_first before script rest group1) by assumption.
    rewrite Hscript, bind_run, print_info_run. unfold loads.
    destruct (json_loads ("[" +:+ group1 +:+ "]")); reflexivity.
Qed.
End CatalogExtractor.

(** A page without the marker. *)
Lemma get_impressions_list_falls_back_without_marker_witness :
  generator.get_impressions_list (codec := sample.plain_json)
    scenario.results_012345 scenario.empty_world
  = (Ok (JList [JDict [("name", JStr "NULL")]]), scenario.empty_world).
Proof.
  apply (proj1 (get_impressions_list_falls_back_without_marker (codec := sample.plain_json)
                  scenario.results_012345 scenario.empty_world)).
  constructor.
Defined.

(** The fallback record has no id: in generator.py a run over it writes no
    file, whatever the tags. *)
Section FallbackRun.
Context {web : Web} {regex : Regex} {codec : JsonCodec} {disk : Disk}.

Lemma loop_before_KeyError name tags after (w : world) :
  (∃ e, after w = (Raise e, w)) →
  ∃ r w', generator.create_shoe_pair_loop name tags after w = (r, w')
          ∧ (∀ made, r ≠ Ok (Some made))
          ∧ w_written w' = w_written w ∧ w_files w' = w_files w.
Proof.
  intros [e Hafter]. induction tags as [|etag rest IH].
  - cbn. rewrite Hafter. eexists _, _. split; [reflexivity|]. split; [discriminate|auto].
  - cbn [generator.create_shoe_pair_loop]. rewrite bind_run, lift_run.
    destruct (re_search etag name re.IGNORECASE) as [[|]|e'].
    + rewrite bind_run, print_info_run, ret_run.
      eexists _, _. split; [reflexivity|]. split; [discriminate|auto].
    + exact IH.
    + eexists _, _. split; [reflexivity|]. split; [discriminate|auto].
Qed.

Lemma fallback_run_writes_no_file directory tags startnum (w : world) :
  let run := generator.create_all_files directory [JDict [("name", JStr "NULL")]]
               tags startnum w in
  w_written run.2 = w_written w ∧ w_files run.2 = w_files w.
Proof.
  cbv zeta. unfold generator.create_all_files.
  cbn [generator.create_all_files_loop]. rewrite bind_run.
  unfold generator.create_shoe_pair. rewrite bind_run, lift_run.
  cbn [getitem dict_get String.eqb Ascii.eqb Bool.eqb].
  match goal with
  | |- context [generator.create_shoe_pair_loop ?n ?t ?a w] =>
      destruct (loop_before_KeyError n t a w) as (r & w' & -> & Hr & Hw & Hf)
  end.
  { eexists. reflexivity. }
  destruct r as [[made|]|e]; cbn.
  - exfalso. eapply Hr. reflexivity.
  - auto.
  - auto.
Qed.
End FallbackRun.

(** C3 fails as stated, twice.  A script holds the marker around text that
    is no JSON: [get_impressions_list] raises [JSONDecodeError] instead of
    returning the fallback list.  And a run over the fallback list, with no
    tag, raises [KeyError] for the missing id and writes no file. *)
Lemma unparsable_marker_raises_and_fallback_run_fails :
  let listing := generator.get_impressions_list (codec := sample.plain_json)
                   scenario.catalog_unparsable scenario.empty_world in
  let run := generator.create_all_files (web := scenario.shop)
               (regex := sample.plain_regex) (codec := sample.plain_json)
               (disk := sample.out_disk)
               "./out/" [JDict [("name", JStr "NULL")]] [] 1 scenario.empty_world in
  pg_scripts scenario.catalog_unparsable
  = ["var x = 1;"; "dataLayer.push({'impressions': [oops]});"]
  ∧ impressions_regex_search "dataLayer.push({'impressions': [oops]});" = Some "oops"
  ∧ json_loads (JsonCodec := sample.plain_json) "[oops]" = None
  ∧ listing.1 = Raise JSONDecodeError
  ∧ listing.1 ≠ Ok (JList [JDict [("name", JStr "NULL")]])
  ∧ run.1 = Raise (KeyError "id")
  ∧ w_written run.2 = []
  ∧ length (w_written run.2) ≠ 1.
Proof. vm_compute. repeat split; discriminate. Qed.

(** ** The sample codec reads back what it writes *)

Lemma app_cons_string (x : ascii) (a b : string) : String x a +:+ b = String x (a +:+ b).
Proof. reflexivity. Qed.

Lemma loads_str_body_escape_char (c : ascii) (tail : string) :
  sample.loads_str_body (sample.escape_char c +:+ tail)
  = match sample.loads_str_body tail with
    | Some (body, rest) => Some (String c body, rest)
    | None => None
    end.
Proof.
  destruct c as [[] [] [] [] [] [] [] []]; reflexivity.
Qed.

Lemma loads_str_body_escape_string (s rest : string) :
  sample.loads_str_body (sample.escape_string s +:+ String sample.quote_char rest)
  = Some (s, rest).
Proof.
  induction s as [|c s IH].
  - reflexivity.
  - cbn [sample.escape_string]. rewrite string_app_assoc, loads_str_body_escape_char, IH.
    reflexivity.
Qed.

(** A property of the ten digits holds of every number below ten. *)
Lemma below_ten (P : N → Prop) (k : N) :
  (k < 10)%N → Forall P (N.of_nat <$> seq 0 10) → P k.
Proof.
  intros Hk Hall. rewrite Forall_forall in Hall. apply Hall.
  apply list_elem_of_fmap. exists (N.to_nat k). split; [lia|].
  apply elem_of_seq. lia.
Qed.

Lemma pretty_N_char_digit (k : N) :
  (k < 10)%N →
  sample.is_digit (pretty_N_char k) = true
  ∧ Z.of_N (N_of_ascii (pretty_N_char k) - 48) = Z.of_N k.
Proof.
  intros Hk.
  apply (below_ten (λ k, sample.is_digit (pretty_N_char k) = true
                         ∧ Z.of_N (N_of_ascii (pretty_N_char k) - 48) = Z.of_N k) k Hk).
  repeat (constructor; [split; reflexivity|]). constructor.
Qed.

Lemma pretty_N_go_app (x : N) (s r : string) :
  pretty_N_go x s +:+ r = pretty_N_go x (s +:+ r).
Proof.
  revert s. induction (N.lt_wf_0 x) as [x _ IH]. intros s.
  assert (x = 0 ∨ 0 < x)%N as [->|Hx] by lia.
  - rewrite !pretty_N_go_0. reflexivity.
  - rewrite (pretty_N_go_step x s), (pretty_N_go_step x (s +:+ r)) by exact Hx.
    rewrite IH by (apply N.div_lt; lia). reflexivity.
Qed.

Lemma loads_digits_pretty (x : N) (s : string) :
  sample.loads_digits 0 (pretty_N_go x s) = sample.loads_digits (Z.of_N x) s.
Proof.
  revert s. induction (N.lt_wf_0 x) as [x _ IH]. intros s.
  assert (x = 0 ∨ 0 < x)%N as [->|Hx] by lia.
  - rewrite pretty_N_go_0. reflexivity.
  - rewrite pretty_N_go_step by exact Hx.
    rewrite IH by (apply N.div_lt; lia).
    destruct (pretty_N_char_digit (x `mod` 10)) as [Hd Hv].
    { apply N.mod_lt. lia. }
    cbn [sample.loads_digits]. rewrite Hd, Hv. f_equal.
    change 10%Z with (Z.of_N 10).
    rewrite <- N2Z.inj_mul, <- N2Z.inj_add. f_equal.
    symmetry. apply N.div_mod. lia.
Qed.

Lemma pretty_N_go_head (x : N) (s : string) :
  (0 < x)%N →
  ∃ c t, pretty_N_go x s = String c t
         ∧ sample.is_digit c = true ∧ Ascii.eqb c "0" = false.
Proof.
  revert s. induction (N.lt_wf_0 x) as [x _ IH]. intros s Hx.
  rewrite pretty_N_go_step by exact Hx.
  destruct (N.eq_0_gt_0_cases (x `div` 10)) as [Hq|Hq].
  - rewrite Hq, pretty_N_go_0. eexists _, _. split; [reflexivity|].
    assert (Hsmall : (x < 10)%N) by (apply N.div_small_iff in Hq; lia).
    rewrite N.mod_small by assumption.
    revert Hx.
    apply (below_ten (λ x, (0 < x)%N → sample.is_digit (pretty_N_char x) = true
                                       ∧ Ascii.eqb (pretty_N_char x) "0" = false)
             x Hsmall).
    constructor; [intros Hpos; exfalso; revert Hpos; apply N.lt_irrefl|].
    repeat (constructor; [intros _; split; reflexivity|]). constructor.
  - apply IH; [apply N.div_lt; lia | exact Hq].
Qed.

Lemma loads_digits_clean (acc : Z) (rest : string) :
  clean_tail rest = true → sample.loads_digits acc rest = (acc, rest).
Proof.
  destruct rest as [|c rest]; [reflexivity|].
  cbn [clean_tail sample.loads_digits]. intros [Hd _]%andb_true_iff.
  destruct (sample.is_digit c); [discriminate | reflexivity].
Qed.

Lemma clean_no_float_tail rest : clean_tail rest = true → sample.starts_float_tail rest = false.
Proof.
  destruct rest as [|c rest]; [reflexivity|].
  cbn [clean_tail]. intros [_ Hf]%andb_true_iff. apply negb_true_iff in Hf. exact Hf.
Qed.

Lemma loads_nat_pretty (x : N) (rest : string) :
  clean_tail rest = true →
  sample.loads_nat (pretty x +:+ rest) = Some (Z.of_N x, rest).
Proof.
  intros Hrest. unfold pretty, pretty_N.
  destruct (decide (x = 0%N)) as [->|Hx].
  - change (sample.loads_nat (String "0" rest) = Some (0%Z, rest)).
    cbn [sample.loads_nat Ascii.eqb Bool.eqb]. cbn.
    rewrite (clean_no_float_tail rest Hrest). reflexivity.
  - rewrite pretty_N_go_app. change (EmptyString +:+ rest) with rest.
    destruct (pretty_N_go_head x rest) as (c & t & Heq & Hd & Hz); [lia|].
    rewrite Heq. cbn [sample.loads_nat]. rewrite Hz, Hd, <- Heq.
    rewrite loads_digits_pretty, loads_digits_clean by exact Hrest.
    rewrite (clean_no_float_tail rest Hrest). reflexivity.
Qed.

Lemma json_nested_ind (P : json → Prop) :
  P JNull → (∀ b, P (JBool b)) → (∀ n, P (JInt n)) → (∀ f, P (JFloat f)) →
  (∀ s, P (JStr s)) →
  (∀ l, Forall P l → P (JList l)) →
  (∀ d, Forall (λ kv, P kv.2) d → P (JDict d)) →
  ∀ v, P v.
Proof.
  intros HN HB HI HF HS HL HD. fix IH 1. intros [| b | n | f | s | l | d].
  - exact HN.
  - apply HB.
  - apply HI.
  - apply HF.
  - apply HS.
  - apply HL. induction l as [|x l IHl]; constructor; [apply IH | exact IHl].
  - apply HD. induction d as [|[k x] d IHd]; constructor; [apply IH | exact IHd].
Qed.

Lemma app_nil_string (b : string) : EmptyString +:+ b = b.
Proof. reflexivity. Qed.

Lemma string_app_nil_r (a : string) : a +:+ EmptyString = a.
Proof.
  induction a as [|x a IH]; [reflexivity|].
  rewrite app_cons_string, IH. reflexivity.
Qed.

Ltac norm_app :=
  repeat (rewrite string_app_assoc || rewrite app_cons_string || rewrite app_nil_string).

Lemma digit_is_plain (c : ascii) :
  sample.is_digit c = true →
  head_ok c = true ∧ Ascii.eqb c sample.quote_char = false ∧ Ascii.eqb c "[" = false
  ∧ Ascii.eqb c "{" = false ∧ Ascii.eqb c "-" = false.
Proof.
  destruct c as [[] [] [] [] [] [] [] []]; intros Hd;
    try discriminate Hd; repeat split.
Qed.

Lemma pretty_Z_nonneg_head (n : Z) (rest : string) :
  (0 <= n)%Z →
  ∃ c t, pretty n +:+ rest = String c t ∧ sample.is_digit c = true.
Proof.
  intros Hn. destruct n as [|p|p]; [| |lia].
  - exists "0"%char, rest. split; reflexivity.
  - unfold pretty, pretty_Z, pretty, pretty_positive, pretty, pretty_N.
    destruct (decide (N.pos p = 0%N)); [discriminate|].
    rewrite pretty_N_go_app.
    destruct (pretty_N_go_head (N.pos p) (EmptyString +:+ rest)) as (c & t & -> & Hd & _);
      [lia|].
    eauto.
Qed.

Lemma loads_value_int (n : Z) (f : nat) (rest : string) :
  clean_tail rest = true →
  sample.loads_value (S f) (pretty n +:+ rest) = Some (JInt n, rest).
Proof.
  intros Hrest. destruct n as [|p|p].
  - change (pretty 0%Z) with (pretty 0%N).
    pose proof (loads_nat_pretty 0 rest Hrest) as Hnat.
    change (pretty 0%N +:+ rest) with (String "0" rest) in *.
    cbn [sample.loads_value]. cbn [Ascii.eqb Bool.eqb sample.quote_char]. cbn.
    cbn in Hnat. rewrite Hnat. reflexivity.
  - change (pretty (Z.pos p)) with (pretty (N.pos p)).
    pose proof (loads_nat_pretty (N.pos p) rest Hrest) as Hnat.
    destruct (pretty_Z_nonneg_head (Z.pos p) rest) as (c & t & Heq & Hd); [lia|].
    change (pretty (Z.pos p)) with (pretty (N.pos p)) in Heq.
    rewrite Heq in *. cbn [sample.loads_value].
    destruct (digit_is_plain c Hd) as (_ & -> & -> & -> & ->). rewrite Hd, Hnat.
    reflexivity.
  - change (pretty (Z.neg p)) with ("-" +:+ pretty (N.pos p)).
    norm_app. cbn [sample.loads_value]. cbn [Ascii.eqb Bool.eqb sample.quote_char].
    cbn. rewrite (loads_nat_pretty (N.pos p) rest Hrest). reflexivity.
Qed.

Lemma starts_ok_app (a b : string) : starts_ok a = true → starts_ok (a +:+ b) = true.
Proof. destruct a as [|c a]; [discriminate|]. intros H. exact H. Qed.

Lemma dumps_starts_ok (v : json) : starts_ok (sample.dumps v) = true.
Proof.
  destruct v as [| [] | n | f | s | l | d]; try reflexivity.
  destruct (Z_lt_le_dec n 0) as [Hneg|Hpos].
  - destruct n as [|p|p]; try lia. reflexivity.
  - destruct (pretty_Z_nonneg_head n EmptyString Hpos) as (c & t & Heq & Hd).
    rewrite string_app_nil_r in Heq. cbn [sample.dumps]. rewrite Heq.
    apply (digit_is_plain c Hd).
Qed.

Lemma skip_ws_starts_ok (s : string) : starts_ok s = true → sample.skip_ws s = s.
Proof.
  destruct s as [|c s]; [reflexivity|]. cbn [starts_ok sample.skip_ws]. unfold head_ok.
  destruct (sample.is_ws c); [discriminate | reflexivity].
Qed.

Lemma after_bracket_starts_ok (s : string) :
  starts_ok s = true → sample.after_char "]" s = None ∧ sample.after_char "}" s = None.
Proof.
  destruct s as [|c s]; [discriminate|]. cbn [starts_ok sample.after_char]. unfold head_ok.
  destruct (Ascii.eqb c "]"), (Ascii.eqb c "}"); rewrite ?andb_false_r; try discriminate.
  auto.
Qed.

Lemma skip_ws_comma s : sample.skip_ws (String "," s) = String "," s.
Proof. reflexivity. Qed.
Lemma skip_ws_colon s : sample.skip_ws (String ":" s) = String ":" s.
Proof. reflexivity. Qed.
Lemma skip_ws_close_bracket s : sample.skip_ws (String "]" s) = String "]" s.
Proof. reflexivity. Qed.
Lemma skip_ws_close_brace s : sample.skip_ws (String "}" s) = String "}" s.
Proof. reflexivity. Qed.
Lemma skip_ws_space s : sample.skip_ws (String " " s) = sample.skip_ws s.
Proof. reflexivity. Qed.
Lemma after_bracket_comma s : sample.after_char "]" (String "," s) = None.
Proof. reflexivity. Qed.
Lemma after_brace_comma s : sample.after_char "}" (String "," s) = None.
Proof. reflexivity. Qed.
Lemma after_comma_comma s : sample.after_char "," (String "," s) = Some s.
Proof. reflexivity. Qed.
Lemma after_colon_colon s : sample.after_char ":" (String ":" s) = Some s.
Proof. reflexivity. Qed.
Lemma after_bracket_bracket s : sample.after_char "]" (String "]" s) = Some s.
Proof. reflexivity. Qed.
Lemma after_brace_brace s : sample.after_char "}" (String "}" s) = Some s.
Proof. reflexivity. Qed.
Lemma after_quote_quote s :
  sample.after_char sample.quote_char (String sample.quote_char s) = Some s.
Proof. reflexivity. Qed.

Create Rewrite HintDb codec.
#[local] Hint Rewrite skip_ws_comma skip_ws_colon skip_ws_close_bracket skip_ws_close_brace
  skip_ws_space after_bracket_comma after_brace_comma after_comma_comma after_colon_colon
  after_bracket_bracket after_brace_brace after_quote_quote : codec.

Ltac codec_step :=
  repeat first [progress cbn [mbind option_bind] | progress (autorewrite with codec)].

Lemma join_cons2 sep p q r :
  sample.join sep (p :: q :: r) = p +:+ sep +:+ sample.join sep (q :: r).
Proof. reflexivity. Qed.

Lemma join_starts_ok (q : json) (r : list json) :
  starts_ok (sample.join ", " (map sample.dumps (q :: r))) = true.
Proof.
  destruct r as [|q' r]; cbn [map].
  - apply dumps_starts_ok.
  - rewrite join_cons2. apply starts_ok_app, dumps_starts_ok.
Qed.

Lemma loads_items_dumps (l : list json) :
  Forall reads_back l → forallb covered l = true →
  ∀ v f rest, reads_back v → covered v = true →
    need_items (v :: l) ≤ f →
    sample.loads_items f (sample.join ", " (map sample.dumps (v :: l)) +:+ "]" +:+ rest)
    = Some (v :: l, rest).
Proof.
  induction 1 as [|q r Hq _ IH]; intros Hcov v f rest Hv Hcv Hf.
  - cbn [map sample.join]. destruct f as [|f]; [cbn in Hf; lia|].
    cbn [sample.loads_items]. norm_app.
    rewrite (Hv Hcv f (String "]" rest)); [|cbn in Hf; lia|reflexivity].
    codec_step. reflexivity.
  - cbn [forallb] in Hcov. apply andb_true_iff in Hcov as [Hcq Hcr].
    pose proof (join_starts_ok q r) as Hstart.
    specialize (IH Hcr q).
    change (map sample.dumps (v :: q :: r))
      with (sample.dumps v :: sample.dumps q :: map sample.dumps r).
    rewrite join_cons2.
    change (sample.dumps q :: map sample.dumps r) with (map sample.dumps (q :: r)).
    set (J := sample.join ", " (map sample.dumps (q :: r))) in *.
    norm_app. destruct f as [|f]; [cbn in Hf; lia|].
    cbn [sample.loads_items].
    rewrite (Hv Hcv f); [|cbn in Hf |- *; lia|reflexivity].
    codec_step.
    rewrite skip_ws_starts_ok by (apply starts_ok_app; exact Hstart).
    change (String "]" rest) with ("]" +:+ rest).
    rewrite (IH f rest Hq Hcq); [reflexivity|].
    cbn in Hf |- *. unfold need_items in *. lia.
Qed.

Lemma dict_set_new k v (acc : list (string * json)) :
  existsb (String.eqb k) (map fst acc) = false →
  sample.dict_set k v acc = acc ++ [(k, v)].
Proof.
  induction acc as [|[k' v'] acc IH]; [reflexivity|].
  cbn [map fst existsb sample.dict_set app]. intros [Hk Hacc]%orb_false_iff.
  rewrite String.eqb_sym, Hk, (IH Hacc). reflexivity.
Qed.

Lemma dumps_str_app k rest :
  sample.dumps_str k +:+ rest
  = String sample.quote_char (sample.escape_string k +:+ String sample.quote_char rest).
Proof. unfold sample.dumps_str. norm_app. reflexivity. Qed.

Lemma members_starts_ok (kv : string * json) (d : list (string * json)) :
  starts_ok (sample.join ", " (map member_text (kv :: d))) = true.
Proof.
  destruct d as [|kv' d]; cbn [map].
  - unfold member_text. cbn [sample.join]. rewrite dumps_str_app. reflexivity.
  - rewrite join_cons2. unfold member_text at 1. norm_app. rewrite dumps_str_app. reflexivity.
Qed.

Lemma loads_members_dumps (d : list (string * json)) :
  Forall (λ kv, reads_back kv.2) d →
  ∀ kv acc f rest,
    reads_back kv.2 →
    forallb (λ kv, covered (snd kv)) (kv :: d) = true →
    fresh_keys (map fst (acc ++ kv :: d)) = true →
    need_members (kv :: d) ≤ f →
    sample.loads_members f acc
      (sample.join ", " (map member_text (kv :: d)) +:+ "}" +:+ rest)
    = Some (acc ++ kv :: d, rest).
Proof.
  induction 1 as [|kv' d Hkv' _ IH]; intros [k v] acc f rest Hv Hcov Hfresh Hf;
    cbn [snd] in Hv.
  - cbn [map sample.join]. destruct f as [|f]; [cbn in Hf; lia|].
    cbn [forallb] in Hcov. apply andb_true_iff in Hcov as [Hcv _].
    unfold member_text. cbn [fst snd]. norm_app. rewrite dumps_str_app.
    cbn [sample.loads_members]. codec_step.
    rewrite loads_str_body_escape_string. codec_step.
    codec_step.
    rewrite skip_ws_starts_ok by (apply starts_ok_app, dumps_starts_ok).
    rewrite (Hv Hcv f (String "}" rest)); [|cbn in Hf; lia|reflexivity].
    codec_step.
    rewrite dict_set_new; [reflexivity|].
    clear -Hfresh. induction acc as [|[k' v'] acc IHacc].
    + reflexivity.
    + cbn [app map fst fresh_keys] in Hfresh. apply andb_true_iff in Hfresh as [Hk' Hrest].
      cbn [map fst existsb]. rewrite (IHacc Hrest), orb_false_r.
      apply negb_true_iff in Hk'. rewrite map_app, existsb_app in Hk'.
      apply orb_false_iff in Hk' as [_ Hk']. cbn in Hk'. rewrite orb_false_r in Hk'.
      rewrite String.eqb_sym. exact Hk'.
  - assert (Hcov' := Hcov). cbn [forallb] in Hcov. apply andb_true_iff in Hcov as [Hcv Hcd].
    pose proof (members_starts_ok kv' d) as Hstart.
    specialize (IH kv' (acc ++ [(k, v)])).
    change (map member_text ((k, v) :: kv' :: d))
      with (member_text (k, v) :: member_text kv' :: map member_text d).
    rewrite join_cons2.
    change (member_text kv' :: map member_text d) with (map member_text (kv' :: d)).
    set (J := sample.join ", " (map member_text (kv' :: d))) in *.
    unfold member_text at 1. cbn [fst snd]. norm_app. rewrite dumps_str_app.
    destruct f as [|f]; [cbn in Hf; lia|].
    cbn [sample.loads_members]. codec_step.
    rewrite loads_str_body_escape_string. codec_step.
    codec_step.
    rewrite skip_ws_starts_ok by (apply starts_ok_app, dumps_starts_ok).
    rewrite (Hv Hcv f); [|cbn in Hf |- *; lia|reflexivity].
    codec_step.
    rewrite skip_ws_starts_ok by (apply starts_ok_app; exact Hstart).
    rewrite dict_set_new.
    + change (String "}" rest) with ("}" +:+ rest).
      rewrite (IH f rest Hkv' Hcd).
      * rewrite <- app_assoc. reflexivity.
      * rewrite <- app_assoc. exact Hfresh.
      * cbn in Hf |- *. unfold need_members in *. lia.
    + clear -Hfresh. induction acc as [|[k' v'] acc IHacc].
      * reflexivity.
      * cbn [app map fst fresh_keys] in Hfresh. apply andb_true_iff in Hfresh as [Hk' Hrest].
        cbn [map fst existsb]. rewrite (IHacc Hrest), orb_false_r.
        apply negb_true_iff in Hk'. rewrite map_app, existsb_app in Hk'.
        apply orb_false_iff in Hk' as [_ Hk']. cbn [map fst existsb] in Hk'.
        apply orb_false_iff in Hk' as [Hk' _].
        rewrite String.eqb_sym. exact Hk'.
Qed.

Lemma need_pos (v : json) : 1 ≤ need v.
Proof. destruct v; cbn; lia. Qed.

Lemma reads_back_all (v : json) : reads_back v.
Proof.
  induction v as [| b | n | x | s | l IHl | d IHd] using json_nested_ind;
    intros Hcov f rest Hf Hrest;
    (destruct f as [|f];
       [match type of Hf with need ?v ≤ _ => pose proof (need_pos v) end; lia|]).
  - cbn [sample.dumps]. norm_app. reflexivity.
  - destruct b; cbn [sample.dumps]; norm_app; reflexivity.
  - apply loads_value_int. exact Hrest.
  - discriminate.
  - cbn [sample.dumps]. rewrite dumps_str_app.
    cbn [sample.loads_value]. cbn [Ascii.eqb Bool.eqb sample.quote_char].
    rewrite loads_str_body_escape_string. reflexivity.
  - cbn [sample.dumps]. norm_app. cbn [sample.loads_value].
    cbn [Ascii.eqb Bool.eqb sample.quote_char].
    destruct l as [|v l].
    + cbn [map sample.join]. norm_app. codec_step. reflexivity.
    + pose proof (join_starts_ok v l) as Hstart.
      apply Forall_cons in IHl as [Hv IHl].
      cbn [covered forallb] in Hcov. apply andb_true_iff in Hcov as [Hcv Hcl].
      pose proof (loads_items_dumps l IHl Hcl v f rest Hv Hcv) as Hitems.
      set (J := sample.join ", " (map sample.dumps (v :: l))) in *.
      rewrite skip_ws_starts_ok by (apply starts_ok_app; exact Hstart).
      rewrite (proj1 (after_bracket_starts_ok _ (starts_ok_app _ _ Hstart))).
      change (String "]" rest) with ("]" +:+ rest).
      rewrite Hitems; [reflexivity|]. cbn in Hf. unfold need_items. cbn. lia.
  - cbn [sample.dumps]. norm_app. cbn [sample.loads_value].
    cbn [Ascii.eqb Bool.eqb sample.quote_char].
    destruct d as [|kv d].
    + cbn [map sample.join]. norm_app. codec_step. reflexivity.
    + pose proof (members_starts_ok kv d) as Hstart.
      apply Forall_cons in IHd as [Hv IHd].
      cbn [covered] in Hcov. apply andb_true_iff in Hcov as [Hfresh Hcd].
      pose proof (loads_members_dumps d IHd kv [] f rest Hv Hcd Hfresh) as Hmembers.
      change (λ kv0 : string * json, sample.dumps_str kv0.1 +:+ ": " +:+ sample.dumps kv0.2)
        with member_text.
      set (J := sample.join ", " (map member_text (kv :: d))) in *.
      rewrite skip_ws_starts_ok by (apply starts_ok_app; exact Hstart).
      rewrite (proj2 (after_bracket_starts_ok _ (starts_ok_app _ _ Hstart))).
      change (String "}" rest) with ("}" +:+ rest).
      rewrite Hmembers; [reflexivity|]. cbn in Hf. unfold need_members. cbn. lia.
Qed.

Lemma pretty_Z_length (n : Z) : 1 ≤ String.length (pretty n).
Proof.
  destruct (Z_lt_le_dec n 0) as [Hneg|Hpos].
  - destruct n as [|p|p]; try lia.
    change (pretty (Z.neg p)) with (String "-" (pretty (N.pos p))). cbn. lia.
  - destruct (pretty_Z_nonneg_head n EmptyString Hpos) as (c & t & Heq & _).
    rewrite string_app_nil_r in Heq. rewrite Heq. cbn. lia.
Qed.

Lemma need_le_length (v : json) : need v ≤ String.length (sample.dumps v).
Proof.
  induction v as [| b | n | x | s | l IHl | d IHd] using json_nested_ind.
  - cbn. lia.
  - destruct b; cbn; lia.
  - cbn [need sample.dumps]. apply pretty_Z_length.
  - cbn. lia.
  - cbn. lia.
  - cbn [need sample.dumps]. rewrite !string_length_app.
    change (String.length "[") with 1. change (String.length "]") with 1.
    enough (need_items l ≤ String.length (sample.join ", " (map sample.dumps l)) + 1)
      by (unfold need_items in *; lia).
    induction IHl as [|v l Hv _ IH]; [cbn; lia|].
    destruct l as [|q r].
    + cbn. lia.
    + change (map sample.dumps (v :: q :: r))
        with (sample.dumps v :: sample.dumps q :: map sample.dumps r).
      rewrite join_cons2, !string_length_app.
      change (sample.dumps q :: map sample.dumps r) with (map sample.dumps (q :: r)).
      change (String.length ", ") with 2.
      change (need_items (v :: q :: r)) with (S (Nat.max (need v) (need_items (q :: r)))).
      lia.
  - cbn [need sample.dumps]. rewrite !string_length_app.
    change (String.length "{") with 1. change (String.length "}") with 1.
    change (λ kv : string * json, sample.dumps_str kv.1 +:+ ": " +:+ sample.dumps kv.2)
      with member_text.
    enough (need_members d ≤ String.length (sample.join ", " (map member_text d)) + 1)
      by (unfold need_members in *; lia).
    assert (Hmember : ∀ kv : string * json,
               need kv.2 ≤ String.length (sample.dumps kv.2) →
               need kv.2 ≤ String.length (member_text kv)).
    { intros kv Hkv. unfold member_text. rewrite !string_length_app. lia. }
    induction IHd as [|kv d Hv _ IH]; [cbn; lia|].
    apply Hmember in Hv.
    destruct d as [|q r].
    + cbn [map sample.join need_members foldr]. lia.
    + change (map member_text (kv :: q :: r))
        with (member_text kv :: member_text q :: map member_text r).
      rewrite join_cons2, !string_length_app.
      change (member_text q :: map member_text r) with (map member_text (q :: r)).
      change (String.length ", ") with 2.
      change (need_members (kv :: q :: r))
        with (S (Nat.max (need kv.2) (need_members (q :: r)))).
      lia.
Qed.

(** The sample codec reads back every covered document it writes. *)
Lemma sample_loads_dumps (v : json) : covered v = true → sample.loads (sample.dumps v) = Some v.
Proof.
  intros Hcov. unfold sample.loads.
  rewrite skip_ws_starts_ok by apply dumps_starts_ok.
  rewrite <- (string_app_nil_r (sample.dumps v)) at 2.
  rewrite (reads_back_all v Hcov); [reflexivity| |reflexivity].
  pose proof (need_le_length v). lia.
Qed.

(** ** What json.dump writes *)

(** A value of [json] is written as it is. *)
Lemma json_of_py_of_json {codec : JsonCodec} (v : json) : json_of (py_of_json v) = Some v.
Proof.
  induction v as [| b | n | f | s | l IH | d IH] using json_nested_ind; try reflexivity.
  - cbn [py_of_json json_of].
    match goal with
    | |- JList <$> ?items (map py_of_json l) = _ =>
        assert (Hitems : items (map py_of_json l) = Some l)
    end.
    { induction IH as [|x l Hx _ IHl]; [reflexivity|].
      cbn [map]. rewrite Hx. cbn [mbind option_bind]. rewrite IHl. reflexivity. }
    rewrite Hitems. reflexivity.
  - cbn [py_of_json json_of].
    match goal with
    | |- JDict <$> ?members (map ?pair d) = _ =>
        assert (Hmembers : members (map pair d) = Some d)
    end.
    { induction IH as [|[k x] d Hx _ IHd]; [reflexivity|].
      cbn [map fst snd dict_key mbind option_bind]. cbn [snd] in Hx. rewrite Hx.
      cbn [mbind option_bind]. rewrite IHd. reflexivity. }
    rewrite Hmembers. reflexivity.
Qed.

(** The descriptor is written when the value given for its tags is. *)
Lemma json_of_descriptor {codec : JsonCodec} site dir exclude_list v start :
  json_of exclude_list = Some v →
  json_of (descriptor_built site dir exclude_list start) = Some (descriptor site dir v start).
Proof. intros Hv. cbn. rewrite Hv. reflexivity. Qed.

Lemma json_of_descriptor_None {codec : JsonCodec} site dir exclude_list start :
  json_of exclude_list = None →
  json_of (descriptor_built site dir exclude_list start) = None.
Proof. intros Hv. cbn. rewrite Hv. reflexivity. Qed.

(** ** The descriptor store *)
Section DescriptorStore.
Context {codec : JsonCodec} {disk : Disk}.

Lemma read_execution_file_run path content loaded w :
  w_files w !! path = Some content → json_loads content = Some loaded →
  generator.read_execution_file path w =
  (Ok match loaded with
      | JDict d =>
          match first_missing d with
          | Some field => ("Missing " +:+ field +:+ " value", None)
          | None => ("", Some loaded)
          end
      | _ => ("Loaded JSON should be a dict ( {} )!", None)
      end,
   said [loaded_line loaded] w).
Proof.
  intros Hfile Hloads. unfold generator.read_execution_file.
  rewrite bind_run. unfold read_file at 1. rewrite Hfile.
  rewrite bind_run. unfold loads at 1. rewrite Hloads, ret_run.
  rewrite bind_run. unfold print at 1.
  destruct loaded; try reflexivity.
  unfold first_missing, required_fields. cbn [List.find].
  destruct (dict_has "site" d); [|reflexivity].
  destruct (dict_has "dir" d); [|reflexivity].
  destruct (dict_has "exclude_list" d); [|reflexivity].
  destruct (dict_has "start" d); reflexivity.
Qed.

(** C4.  On a file whose text decodes to [loaded], [read_execution_file]
    shows the value and returns: when [loaded] is not a dict, the
    malformed-object message and no descriptor; when it is a dict lacking
    a required field, the one message naming the first missing field in
    the order site, dir, exclude_list, start, and no descriptor; when the
    four fields are present, the empty message and [loaded] itself,
    unchanged. *)
Theorem read_execution_file_reports_first_missing_field
    (path content : string) (loaded : json) (w : world) :
  w_files w !! path = Some content →
  json_loads content = Some loaded →
  ((∀ d, loaded ≠ JDict d) →
   generator.read_execution_file path w
   = (Ok ("Loaded JSON should be a dict ( {} )!", None), said [loaded_line loaded] w))
  ∧ (∀ d field, loaded = JDict d → first_missing d = Some field →
       generator.read_execution_file path w
       = (Ok ("Missing " +:+ field +:+ " value", None), said [loaded_line loaded] w))
  ∧ (∀ d, loaded = JDict d → first_missing d = None →
       generator.read_execution_file path w
       = (Ok ("", Some loaded), said [loaded_line loaded] w)).
Proof.
  intros Hfile Hloads.
  rewrite (read_execution_file_run path content loaded w Hfile Hloads).
  split; [|split].
  - intros Hnot. destruct loaded; try reflexivity. exfalso. eapply Hnot. reflexivity.
  - intros d field -> ->. reflexivity.
  - intros d -> ->. reflexivity.
Qed.

(** The first missing field is missing, every required field before it is
    present, and none is missing when the four are present. *)
Lemma first_missing_spec d :
  match first_missing d with
  | Some field =>
      dict_has field d = false
      ∧ ∃ before after, required_fields = before ++ field :: after
                        ∧ Forall (λ f, dict_has f d = true) before
  | None => Forall (λ f, dict_has f d = true) required_fields
  end.
Proof.
  unfold first_missing, required_fields. cbn [List.find].
  destruct (dict_has "site" d) eqn:H1; cbn [negb];
    [|split; [exact H1|exists [], ["dir"; "exclude_list"; "start"]; auto]].
  destruct (dict_has "dir" d) eqn:H2; cbn [negb];
    [|split; [exact H2|exists ["site"], ["exclude_list"; "start"]; auto]].
  destruct (dict_has "exclude_list" d) eqn:H3; cbn [negb];
    [|split; [exact H3|exists ["site"; "dir"], ["start"]; auto]].
  destruct (dict_has "start" d) eqn:H4; cbn [negb];
    [|split; [exact H4|exists ["site"; "dir"; "exclude_list"], []; auto]].
  auto.
Qed.

(** [create_execution_file] on a path that opens and tags that can be
    written. *)
Lemma create_execution_file_run name site dir exclude_list v start w :
  open_error name = None → json_of exclude_list = Some v →
  generator.create_execution_file name site dir exclude_list start w
  = (Ok tt, put_file name (json_dumps (descriptor site dir v start)) w).
Proof.
  intros Hopen Hv. unfold generator.create_execution_file.
  apply dump_file_run; [exact Hopen|].
  apply (json_of_descriptor site dir exclude_list v start Hv).
Qed.

(** Any codec that decodes the text it dumps for the descriptor back to the
    same dict gives the round trip. *)
Lemma round_trips_when_codec_inverts
    (name site dir : string) (exclude_list : json) (start : Z) (w : world) :
  open_error name = None →
  json_loads (json_dumps (descriptor site dir exclude_list start))
  = Some (descriptor site dir exclude_list start) →
  round_trips name site dir exclude_list start w.
Proof.
  intros Hopen Hcodec.
  eexists _, _, (descriptor site dir exclude_list start).
  split; [apply create_execution_file_run; [exact Hopen | apply json_of_py_of_json]|].
  split; [|repeat split].
  rewrite (read_execution_file_run name
             (json_dumps (descriptor site dir exclude_list start))
             (descriptor site dir exclude_list start)).
  - reflexivity.
  - cbn. apply lookup_insert_eq.
  - exact Hcodec.
Qed.
End DescriptorStore.

(** C5.  On a path that can be opened for writing, [create_execution_file]
    followed by [read_execution_file] on the same path returns the empty
    message and a dict whose site, dir, exclude_list and start are the
    values written: with any codec that decodes the text it dumps for this
    descriptor back to the same dict, and in particular with the sample
    codec for every site, dir and start and every exclude_list it covers
    (one without floats and repeated keys). *)
Theorem descriptor_round_trip {disk : Disk}
    (name site dir : string) (exclude_list : json) (start : Z) (w : world) :
  open_error name = None →
  (∀ codec : JsonCodec,
     json_loads (json_dumps (descriptor site dir exclude_list start))
     = Some (descriptor site dir exclude_list start) →
     round_trips (codec := codec) name site dir exclude_list start w)
  ∧ (covered exclude_list = true →
     round_trips (codec := sample.plain_json) name site dir exclude_list start w).
Proof.
  intros Hopen. split.
  - intros codec. apply round_trips_when_codec_inverts. exact Hopen.
  - intros Hcov. apply round_trips_when_codec_inverts; [exact Hopen|].
    apply sample_loads_dumps. cbn [descriptor covered map fst snd forallb].
    rewrite Hcov. reflexivity.
Qed.

(** A descriptor file without [exclude_list]. *)
Lemma read_execution_file_reports_first_missing_field_witness :
  generator.read_execution_file (codec := sample.plain_json) "exec.json"
    (scenario.disk "exec.json" (sample.dumps scenario.partial_descriptor))
  = (Ok ("Missing exclude_list value", None),
     said [loaded_line scenario.partial_descriptor]
       (scenario.disk "exec.json" (sample.dumps scenario.partial_descriptor))).
Proof.
  apply (proj1 (proj2 (read_execution_file_reports_first_missing_field
                         (codec := sample.plain_json) "exec.json"
                         (sample.dumps scenario.partial_descriptor)
                         scenario.partial_descriptor
                         (scenario.disk "exec.json" (sample.dumps scenario.partial_descriptor))
                         ltac:(vm_compute; reflexivity) ltac:(vm_compute; reflexivity)))
           [("site", JStr "https://www.flightclub.com/air-jordans/air-jordan-1");
            ("dir", JStr "./out/")]
           "exclude_list" eq_refl eq_refl).
Defined.

(** The descriptor of the end-to-end scenario. *)
Lemma descriptor_round_trip_witness :
  round_trips (codec := sample.plain_json) (disk := sample.out_disk) "exec.json"
    "air-jordans/air-jordan-1" "./out/" (JList [JStr "retro"]) 1 scenario.empty_world.
Proof.
  apply (proj2 (descriptor_round_trip (disk := sample.out_disk)
                  "exec.json" "air-jordans/air-jordan-1" "./out/"
                  (JList [JStr "retro"]) 1 scenario.empty_world eq_refl)).
  reflexivity.
Defined.

(** ** Interactive construction *)
Section Prompt.
Context {codec : JsonCodec} {readers : Readers} {disk : Disk}.

(** An error of [int] other than [TypeError] leaves the prompt flow: no
    warning is shown and no file is written. *)
Lemma prompt_start_error_propagates ej_name site_dir dir number rest e (w : world) :
  w_in w = [ej_name; site_dir; dir; "n"; number] ++ rest →
  py_int number = Raise e → is_TypeError e = false →
  ∃ w', generator.prompt_execution_values w = (Raise e, w')
        ∧ w_files w' = w_files w ∧ w_written w' = w_written w
        ∧ w_out w' = w_out w ++ prompts_shown.
Proof.
  intros Hin Hint Hcatch. destruct w as [ss fs wr out inp]. cbn in Hin. subst inp.
  unfold generator.prompt_execution_values.
  rewrite bind_run. unfold input at 1. cbn [w_in w_out w_sessions w_files w_written].
  rewrite bind_run. unfold input at 1. cbn [w_in w_out w_sessions w_files w_written].
  rewrite bind_run. unfold input at 1. cbn [w_in w_out w_sessions w_files w_written].
  rewrite bind_run. unfold input at 1. cbn [w_in w_out w_sessions w_files w_written].
  cbn [String.eqb Ascii.eqb Bool.eqb].
  rewrite bind_run, ret_run, bind_run.
  unfold try_except. rewrite bind_run. unfold input at 1.
  cbn [w_in w_out w_sessions w_files w_written app].
  rewrite lift_run, Hint, Hcatch.
  eexists. split; [reflexivity|]. cbn [w_files w_written w_out].
  repeat split. rewrite <- !app_assoc. reflexivity.
Qed.

(** When [int] does raise a [TypeError], the start number is 1, with the
    warning: the branch the program means for invalid input. *)
Lemma prompt_TypeError_defaults_to_1 ej_name site_dir dir number rest (w : world) :
  w_in w = [ej_name; site_dir; dir; "n"; number] ++ rest →
  py_int number = Raise TypeError →
  open_error ej_name = None →
  ∃ w', generator.prompt_execution_values w = (Ok tt, w')
        ∧ w_files w'
          = <[ej_name := json_dumps
                (descriptor (globals.BASE_SITE +:+ "/" +:+ site_dir)
                   (if String.eqb dir EmptyString then "./" else dir) (JList []) 1)]>
              (w_files w).
Proof.
  intros Hin Hint Hopen. destruct w as [ss fs wr out inp]. cbn in Hin. subst inp.
  unfold generator.prompt_execution_values.
  rewrite bind_run. unfold input at 1. cbn [w_in w_out w_sessions w_files w_written].
  rewrite bind_run. unfold input at 1. cbn [w_in w_out w_sessions w_files w_written].
  rewrite bind_run. unfold input at 1. cbn [w_in w_out w_sessions w_files w_written].
  rewrite bind_run. unfold input at 1. cbn [w_in w_out w_sessions w_files w_written].
  cbn [String.eqb Ascii.eqb Bool.eqb].
  rewrite bind_run, ret_run, bind_run.
  unfold try_except. rewrite bind_run. unfold input at 1.
  cbn [w_in w_out w_sessions w_files w_written app].
  rewrite lift_run, Hint. cbn [is_TypeError].
  rewrite bind_run. unfold globals.print_warn, print at 1. rewrite ret_run.
  rewrite (create_execution_file_run ej_name _ _ (PList []) (JList []) 1 _ Hopen eq_refl).
  eexists. split; reflexivity.
Qed.
End Prompt.

(** C9 against the code.  A user answers the prompt for the starting file
    number with [abc].  [int] raises [ValueError]; the handler of
    [prompt_execution_values] catches [TypeError] only, so the call raises
    [ValueError], shows the five prompts and no warning, and writes no
    descriptor file. *)
Theorem prompt_invalid_start_raises_ValueError :
  let run := generator.prompt_execution_values (codec := sample.plain_json)
               (readers := sample.plain_readers) (disk := sample.out_disk) (scenario.console scenario.typed_abc) in
  py_int (Readers := sample.plain_readers) "abc" = Raise ValueError
  ∧ is_TypeError ValueError = false
  ∧ run.1 = Raise ValueError
  ∧ w_files run.2 = ∅
  ∧ w_written run.2 = []
  ∧ w_out run.2
    = [Prompt "Path to write to: ";
       Prompt "Site directory: https://www.flightclub.com/";
       Prompt "Directory to place shoe files: ";
       Prompt "Use exclude tags (in list format e.g. '['a', 'b']? [y/N ]: ";
       Prompt "Starting file number: "].
Proof. vm_compute. repeat split. Qed.

(** * More of the code

    Properties of the resolver when it fails, of the files of any run, of
    the prompt, of [execute], of the script of jordans.py and of the
    functions of gys-generator.py. *)

(** ** What the computations leave alone *)
Section Frames.
Variable P : world → world → Prop.
Hypothesis P_refl : ∀ w, P w w.
Hypothesis P_trans : ∀ a b c, P a b → P b c → P a c.

Lemma keeps_ret {A} (a : A) : keeps P (mret a : M A).
Proof. intros w. apply P_refl. Qed.

Lemma keeps_lift {A} (o : outcome A) : keeps P (lift o).
Proof. intros w. apply P_refl. Qed.

Lemma keeps_raise {A} (e : exn) : keeps P (raise e : M A).
Proof. intros w. apply P_refl. Qed.

Lemma keeps_bind {A B} (m : M A) (f : A → M B) :
  keeps P m → (∀ a, keeps P (f a)) → keeps P (m ≫= f).
Proof.
  intros Hm Hf w. rewrite bind_run. specialize (Hm w).
  destruct (m w) as [[a|e] w1]; [|exact Hm].
  eapply P_trans; [exact Hm | apply Hf].
Qed.

Lemma keeps_bind_ret {A B} (a : A) (f : A → M B) :
  keeps P (f a) → keeps P (mret a ≫= f).
Proof. intros Hf w. apply Hf. Qed.

Lemma keeps_try_except {A} (body : M A) catches (handler : M A) :
  keeps P body → keeps P handler → keeps P (try_except body catches handler).
Proof.
  intros Hb Hh w. unfold try_except. specialize (Hb w).
  destruct (body w) as [[a|e] w1]; [exact Hb|].
  destruct (catches e); [|exact Hb].
  eapply P_trans; [exact Hb | apply Hh].
Qed.

Lemma keeps_html b : keeps P (html b).
Proof. intros w. unfold html. destruct (w_sessions w !! b); apply P_refl. Qed.

Lemma keeps_read_file path : keeps P (read_file path).
Proof. intros w. unfold read_file. destruct (w_files w !! path); apply P_refl. Qed.

Lemma keeps_loads {codec : JsonCodec} s : keeps P (loads s).
Proof. intros w. unfold loads. destruct (json_loads s); apply P_refl. Qed.

(** Computations that print and browse. *)
Hypothesis P_print : ∀ line, keeps P (print line).
Hypothesis P_sessions : ∀ s w, P w (with_sessions s w).

Lemma keeps_print_info output : keeps P (globals.print_info output).
Proof. apply P_print. Qed.

Lemma keeps_Browser : keeps P Browser.
Proof. intros w. apply P_sessions. Qed.

Lemma keeps_quit b : keeps P (quit b).
Proof. intros w. apply P_sessions. Qed.

Lemma keeps_visit {web : Web} b url : keeps P (visit b url).
Proof.
  intros w. unfold visit.
  destruct (w_sessions w !! b); [destruct (web_get url)|]; first [apply P_sessions | apply P_refl].
Qed.


Ltac frame_with known :=
  repeat first
    [ known
    | apply keeps_ret | apply keeps_lift | apply keeps_raise | apply keeps_html
    | apply keeps_read_file | apply keeps_loads | apply P_print | apply keeps_print_info
    | apply keeps_Browser | apply keeps_quit | apply keeps_visit
    | assumption
    | apply keeps_bind_ret
    | apply keeps_bind; [|intros ?]
    | apply keeps_try_except
    | match goal with
      | |- keeps _ (match ?x with _ => _ end) => destruct x
      | |- keeps _ (if ?x then _ else _) => destruct x
      end ].

Ltac frame := frame_with fail.

Section Browsing.
Context {web : Web} {regex : Regex} {codec : JsonCodec} {disk : Disk}.

Lemma keeps_search_loop id b anchors : keeps P (shoepair._search_loop id b anchors).
Proof.
  induction anchors as [|aelem rest IH]; cbn [shoepair._search_loop]; frame.
Qed.

Lemma keeps_search id : keeps P (shoepair._search id).
Proof. unfold shoepair._search. frame_with ltac:(apply keeps_search_loop). Qed.

Lemma keeps_init id tags : keeps P (shoepair.__init__ id tags).
Proof.
  unfold shoepair.__init__, shoepair._get_shoe_name, shoepair._get_shoe_image.
  frame_with ltac:(apply keeps_search).
Qed.

Lemma keeps_create_shoe_pair_loop name tags after :
  keeps P after → keeps P (generator.create_shoe_pair_loop name tags after).
Proof.
  intros Hafter. induction tags as [|etag rest IH];
    cbn [generator.create_shoe_pair_loop]; frame.
Qed.

Lemma keeps_create_shoe_pair idobj tags : keeps P (generator.create_shoe_pair idobj tags).
Proof.
  unfold generator.create_shoe_pair.
  frame_with ltac:(first [apply keeps_create_shoe_pair_loop | apply keeps_init]).
Qed.

Lemma keeps_create_shoe_pair_dyn idobj tags :
  keeps P (generator.create_shoe_pair_dyn idobj tags).
Proof.
  unfold generator.create_shoe_pair_dyn.
  frame_with ltac:(first [apply keeps_create_shoe_pair_loop | apply keeps_init]).
Qed.

Lemma keeps_get_impressions_list bsoup : keeps P (generator.get_impressions_list bsoup).
Proof. unfold generator.get_impressions_list. frame. Qed.

Lemma keeps_read_execution_file path : keeps P (generator.read_execution_file path).
Proof. unfold generator.read_execution_file. frame. Qed.

End Browsing.

(** Computations that also write files. *)
Hypothesis P_put : ∀ path content w, P w (put_file path content w).

Lemma keeps_write_file {disk : Disk} path content : keeps P (write_file path content).
Proof.
  intros w. unfold write_file. destruct (open_error path); [apply P_refl | apply P_put].
Qed.

Lemma keeps_dump_file {disk : Disk} {codec : JsonCodec} path obj : keeps P (dump_file path obj).
Proof.
  intros w. unfold dump_file. destruct (open_error path); [apply P_refl|].
  destruct (json_of obj); apply P_put.
Qed.

Section Generating.
Context {web : Web} {regex : Regex} {codec : JsonCodec} {readers : Readers}
        {disk : Disk} {http : Http} {reprs : Reprs} {decode_errors : DecodeErrors}.

Lemma keeps_create_all_files_loop directory tags shoelist n :
  keeps P (generator.create_all_files_loop directory tags shoelist n).
Proof.
  revert n. induction shoelist as [|shoe rest IH]; intros n;
    cbn [generator.create_all_files_loop];
    frame_with ltac:(first [apply keeps_create_shoe_pair | apply keeps_write_file | apply IH]).
Qed.

Lemma keeps_create_all_files_dyn_loop directory tags shoelist n :
  keeps P (generator.create_all_files_dyn_loop directory tags shoelist n).
Proof.
  revert n. induction shoelist as [|shoe rest IH]; intros n;
    cbn [generator.create_all_files_dyn_loop];
    frame_with ltac:(first [apply keeps_create_shoe_pair_dyn | apply keeps_write_file | apply IH]).
Qed.

Lemma keeps_execute_generate loaded : keeps P (generator.execute_generate loaded).
Proof.
  unfold generator.execute_generate, generator.create_all_files_dyn.
  frame_with ltac:(first [apply keeps_get_impressions_list
                         | apply keeps_create_all_files_dyn_loop]).
Qed.

Lemma keeps_execute_load_path path : keeps P (generator.execute_load (Some path)).
Proof.
  unfold generator.execute_load. frame_with ltac:(apply keeps_read_execution_file).
Qed.

Lemma keeps_execute_with_path nested path :
  keeps P (generator.execute_with nested (Some path)).
Proof.
  unfold generator.execute_with.
  frame_with ltac:(first [apply keeps_execute_load_path | apply keeps_execute_generate]).
Qed.

Lemma keeps_execute_path path : keeps P (generator.execute (Some path)).
Proof.
  intros w. unfold generator.execute.
  destruct (length (w_in w)); apply keeps_execute_with_path.
Qed.

End Generating.

(** Computations that also read the console. *)
Hypothesis P_input : ∀ prompt, keeps P (input prompt).

Section Prompting.
Context {web : Web} {regex : Regex} {codec : JsonCodec} {readers : Readers}
        {disk : Disk} {http : Http} {reprs : Reprs} {decode_errors : DecodeErrors}.

Lemma keeps_prompt_execution_values : keeps P generator.prompt_execution_values.
Proof.
  unfold generator.prompt_execution_values, generator.create_execution_file.
  frame_with ltac:(first [apply P_input | apply keeps_dump_file]).
Qed.

Lemma keeps_execute_load expath : keeps P (generator.execute_load expath).
Proof.
  unfold generator.execute_load.
  frame_with ltac:(first [apply P_input | apply keeps_read_execution_file]).
Qed.

Lemma keeps_prompt_answers : keeps P prompt_answers.
Proof. unfold prompt_answers. frame_with ltac:(apply P_input). Qed.

Lemma keeps_execute_with nested expath :
  keeps P nested → keeps P (generator.execute_with nested expath).
Proof.
  intros Hnested. unfold generator.execute_with.
  frame_with ltac:(first [apply P_input | apply keeps_prompt_execution_values
                         | apply keeps_execute_load | apply keeps_execute_generate]).
Qed.

Lemma keeps_execute_loop depth expath : keeps P (generator.execute_loop depth expath).
Proof.
  revert expath. induction depth as [|depth IH]; intros expath;
    cbn [generator.execute_loop]; apply keeps_execute_with;
    [apply keeps_raise | apply IH].
Qed.

Lemma keeps_execute expath : keeps P (generator.execute expath).
Proof. intros w. unfold generator.execute. apply keeps_execute_loop. Qed.

End Prompting.
End Frames.

(** Parts of the world that printing and browsing leave alone. *)
Lemma untouched_refl {B} (f : world → B) w : untouched f w w.
Proof. reflexivity. Qed.

Lemma untouched_trans {B} (f : world → B) a b c :
  untouched f a b → untouched f b c → untouched f a c.
Proof. unfold untouched. congruence. Qed.

(** ** When resolution fails *)
Section FailedResolution.
Context {web : Web}.

Lemma search_raise_sessions id w e w' :
  shoepair._search id w = (Raise e, w') → w_sessions w ⊂ w_sessions w'.
Proof.
  pose proof (fresh_session_closed (w_sessions w)) as Hb.
  destruct id as [| | | |s| |];
    try (unfold shoepair._search; rewrite bind_run, print_info_run, bind_run;
         unfold Browser at 1; rewrite bind_run, lift_run; intros [= _ <-];
         cbn [w_sessions with_sessions said]; apply insert_subset; exact Hb).
  rewrite search_run. cbv zeta.
  set (b := fresh (dom (w_sessions w))) in *.
  destruct (web_get (globals.BASE_SEARCH_SITE +:+ s)) as [results|].
  - rewrite search_loop_run. cbv zeta.
    destruct (resolution.first_item_link s (pg_anchors results)) as [[href|]|e0].
    + cbn [w_sessions with_sessions said].
      pose proof (fresh_session_closed (<[b := results]> (w_sessions w))) as Hnb.
      set (nb := fresh (dom (<[b := results]> (w_sessions w)))) in *.
      destruct (web_get href) as [item|]; [discriminate|].
      intros [= _ <-]. cbn [w_sessions with_sessions].
      transitivity (<[b := results]> (w_sessions w)); apply insert_subset; assumption.
    + discriminate.
    + intros [= _ <-]. cbn [w_sessions with_sessions said]. apply insert_subset. exact Hb.
  - intros [= _ <-]. cbn [w_sessions with_sessions said]. apply insert_subset. exact Hb.
Qed.

(** X1.  [ShoePair(id)] that raises leaves at least one of the windows it opened
    open: the windows open afterwards are those open before and more.
    The same holds for [_search] alone. *)
Theorem failed_resolution_leaves_window_open (id : json) (excludetags : list json) (w : world) :
  (∀ e w', shoepair._search id w = (Raise e, w') → w_sessions w ⊂ w_sessions w')
  ∧ (∀ e w', shoepair.__init__ id excludetags w = (Raise e, w') →
             w_sessions w ⊂ w_sessions w').
Proof.
  split; [intros e w'; apply search_raise_sessions|].
  intros e w'. unfold shoepair.__init__. rewrite bind_run.
  destruct (shoepair._search id w) as [[b|e0] w1] eqn:Hsearch.
  - apply search_ok_inv in Hsearch as (s & p & -> & _ & Hb & ->).
    rewrite (init_tail_run b p).
    + destruct (resolution.image_on p) as [image|e1]; [discriminate|].
      intros [= _ <-]. cbn [w_sessions with_sessions said]. apply insert_subset. exact Hb.
    + cbn. apply lookup_insert_eq.
  - intros [= _ <-]. eapply search_raise_sessions. exact Hsearch.
Qed.

Lemma first_item_link_raises id pre aelem post e :
  Forall (λ a, ∃ h, tag_getitem (el_attrs a) "href" = Ok h
                    ∧ str_contains ("-" +:+ id) h = false) pre →
  tag_getitem (el_attrs aelem) "href" = Raise e →
  resolution.first_item_link id (pre ++ aelem :: post) = Raise e.
Proof.
  intros Hpre Hhref. induction Hpre as [|a pre (h & Hh & Hno) _ IH].
  - cbn. rewrite Hhref. reflexivity.
  - cbn. rewrite Hh, Hno. exact IH.
Qed.

(** X2.  An anchor of the results page that has no [href], met before any link
    that holds ["-" + id], ends the resolution with [KeyError('href')],
    whatever links follow it; the window on the results page stays
    open. *)
Theorem anchor_without_href_aborts_resolution
    (id : string) (results : page) (pre : list element) (aelem : element)
    (post : list element) (excludetags : list json) (w : world) :
  web_get (globals.BASE_SEARCH_SITE +:+ id) = Some results →
  pg_anchors results = pre ++ aelem :: post →
  Forall (λ a, ∃ h, tag_getitem (el_attrs a) "href" = Ok h
                    ∧ str_contains ("-" +:+ id) h = false) pre →
  "href" ∉ (el_attrs aelem).*1 →
  ∃ w', shoepair.__init__ (JStr id) excludetags w = (Raise (KeyError "href"), w')
        ∧ w_sessions w' = <[fresh (dom (w_sessions w)) := results]> (w_sessions w)
        ∧ w_written w' = w_written w.
Proof.
  intros Hresults Hanchors Hpre Hnone.
  unfold shoepair.__init__. rewrite bind_run, search_run. cbv zeta.
  rewrite Hresults, search_loop_run, Hanchors.
  rewrite (first_item_link_raises id pre aelem post (KeyError "href"));
    [|exact Hpre | apply tag_getitem_missing; exact Hnone].
  eexists. split; [reflexivity|]. split; reflexivity.
Qed.

End FailedResolution.

Lemma failed_resolution_leaves_window_open_witness :
  w_sessions scenario.empty_world
  ⊂ w_sessions (shoepair.__init__ (web := scenario.shop) (JStr "777") []
                  scenario.empty_world).2.
Proof.
  apply (proj2 (failed_resolution_leaves_window_open (web := scenario.shop)
                  (JStr "777") [] scenario.empty_world) (KeyError "src")).
  vm_compute. reflexivity.
Defined.

Lemma anchor_without_href_aborts_resolution_witness :
  ∃ w', shoepair.__init__ (web := storefront.site) (JStr "555") [] scenario.empty_world
        = (Raise (KeyError "href"), w')
        ∧ w_sessions w' = <[fresh (dom (w_sessions scenario.empty_world))
                             := storefront.results_555]> (w_sessions scenario.empty_world)
        ∧ w_written w' = w_written scenario.empty_world.
Proof.
  apply (anchor_without_href_aborts_resolution (web := storefront.site)
           "555" storefront.results_555 [] (Element [("name", "top")] "")
           [Element [("href", scenario.shop_url "/air-jordan-5-555")] "Air Jordan 5"]
           [] scenario.empty_world).
  - reflexivity.
  - reflexivity.
  - constructor.
  - vm_compute. intros Hin. inversion Hin; subst. inversion H1.
Defined.

(** ** Item files of any run *)
Section Trace.
Context {web : Web} {regex : Regex} {codec : JsonCodec} {disk : Disk}.

Lemma create_shoe_pair_frame idobj tags w :
  let w' := (generator.create_shoe_pair idobj tags w).2 in
  w_written w' = w_written w ∧ w_files w' = w_files w ∧ w_in w' = w_in w.
Proof.
  cbv zeta. repeat split.
  - apply (keeps_create_shoe_pair (untouched w_written)); try done.
    apply untouched_trans.
  - apply (keeps_create_shoe_pair (untouched w_files)); try done.
    apply untouched_trans.
  - apply (keeps_create_shoe_pair (untouched w_in)); try done.
    apply untouched_trans.
Qed.

Lemma create_all_files_loop_trace directory tags shoelist :
  ∀ (n : Z) (w : world),
  let run := generator.create_all_files_loop directory tags shoelist n w in
  ∃ contents : list string,
    w_written run.2
    = w_written w ++ imap (λ i, item_file directory (n + 1 + Z.of_nat i)) contents
    ∧ (∀ lf, run.1 = Ok lf → lf = (n + Z.of_nat (length contents))%Z)
    ∧ w_in run.2 = w_in w.
Proof.
  induction shoelist as [|shoe rest IH]; intros n w; cbv zeta.
  - exists []. cbn. rewrite app_nil_r. repeat split.
    intros lf [= <-]. lia.
  - cbn [generator.create_all_files_loop]. rewrite bind_run.
    pose proof (create_shoe_pair_frame shoe tags w) as (Hw & _ & Hi). cbv zeta in Hw, Hi.
    destruct (generator.create_shoe_pair shoe tags w) as [[[made|]|e] w1]; cbn [snd] in Hw, Hi.
    + unfold generator.create_file. rewrite bind_run.
      destruct (open_error (directory +:+ pretty (n + 1)%Z +:+ ".json")) as [e|] eqn:Hopen.
      { rewrite (write_file_refused _ _ e) by exact Hopen.
        exists []. cbn. rewrite app_nil_r. repeat split; [exact Hw|discriminate|exact Hi]. }
      rewrite (write_file_run _ _ _ Hopen).
      rewrite bind_run, print_info_run.
      match goal with
      | |- context [generator.create_all_files_loop _ _ _ _ ?w2] =>
          destruct (IH (n + 1)%Z w2) as (contents & Htrace & Hlf & Hin)
      end.
      cbv zeta in Htrace, Hlf, Hin. cbn [w_written w_in said put_file] in Htrace, Hin.
      exists (json_dumps (JDict [("name", JStr (shoepair.get_name made));
                                 ("img", JStr (shoepair.get_image made))]) :: contents).
      split; [|split].
      * rewrite Htrace, Hw, imap_cons, <- app_assoc. cbn [app].
        unfold item_file at 2. rewrite Z.add_0_r. do 2 f_equal.
        apply imap_ext. intros i c _. cbn. unfold item_file.
        replace (n + 1 + Z.of_nat (S i))%Z with (n + 1 + 1 + Z.of_nat i)%Z by lia.
        reflexivity.
      * intros lf Hrun. rewrite (Hlf lf Hrun). cbn [length]. lia.
      * transitivity (w_in w1); [exact Hin | exact Hi].
    + destruct (IH n w1) as (contents & Htrace & Hlf & Hin).
      exists contents. cbv zeta in Htrace, Hlf, Hin.
      rewrite Htrace, Hin, Hw, Hi. auto.
    + exists []. cbn. rewrite app_nil_r. repeat split; [exact Hw|discriminate|exact Hi].
Qed.

(** X3.  Whatever the candidates and tags, and whether the run completes or
    raises on the way, the files [create_all_files] has written when it
    stops are numbered [startnum], [startnum + 1], ... without a gap, in
    the order written, all in [directory]; nothing written before the
    failure is taken back.  When the run completes it returns the number
    of the last file, [startnum - 1] when there is none.  The run reads
    nothing from the console. *)
Theorem create_all_files_writes_consecutive_files
    (directory : string) (shoelist excludetags : list json) (startnum : Z) (w : world) :
  let run := generator.create_all_files directory shoelist excludetags startnum w in
  ∃ contents : list string,
    w_written run.2
    = w_written w ++ imap (λ i, item_file directory (startnum + Z.of_nat i)) contents
    ∧ (∀ lf, run.1 = Ok lf → lf = (startnum - 1 + Z.of_nat (length contents))%Z)
    ∧ w_in run.2 = w_in w.
Proof.
  cbv zeta. unfold generator.create_all_files.
  destruct (create_all_files_loop_trace directory excludetags shoelist (startnum - 1) w)
    as (contents & Htrace & Hlf & Hin).
  exists contents. split; [|split; assumption].
  rewrite Htrace. f_equal. apply imap_ext. intros i c _. cbn.
  replace (startnum - 1 + 1 + Z.of_nat i)%Z with (startnum + Z.of_nat i)%Z by lia.
  reflexivity.
Qed.
End Trace.

(** ** The prompt *)
Section PromptRuns.
Context {codec : JsonCodec} {readers : Readers} {disk : Disk}.

Lemma prompt_split (w : world) :
  generator.prompt_execution_values w =
  match prompt_answers w with
  | (Ok (ej_name, site, dir, exclude_list, start), w1) =>
      generator.create_execution_file ej_name site dir exclude_list start w1
  | (Raise e, w1) => (Raise e, w1)
  end.
Proof.
  unfold generator.prompt_execution_values, prompt_answers.
  rewrite !bind_run. destruct (input _ w) as [[ej_name|e] w1]; [|reflexivity].
  rewrite !bind_run. destruct (input _ w1) as [[site_dir|e] w2]; [|reflexivity].
  rewrite !bind_run. destruct (input _ w2) as [[dir|e] w3]; [|reflexivity].
  rewrite !bind_run. destruct (input _ w3) as [[use_tags|e] w4]; [|reflexivity].
  rewrite !bind_run.
  match goal with
  | |- context [match ?m w4 with _ => _ end] => destruct (m w4) as [[exclude_list|e] w5]
  end; [|reflexivity].
  rewrite !bind_run.
  match goal with
  | |- context [match ?m w5 with _ => _ end] => destruct (m w5) as [[start|e] w6]
  end; reflexivity.
Qed.

Lemma input_ok_inv prompt w line w1 :
  input prompt w = (Ok line, w1) →
  w_in w = line :: w_in w1 ∧ w_written w1 = w_written w ∧ w_files w1 = w_files w.
Proof.
  unfold input. destruct (w_in w) as [|l rest] eqn:Hin; [discriminate|].
  intros [= <- <-]. auto.
Qed.

Lemma prompt_answers_ok_inv w ej_name site dir exclude_list start w1 :
  prompt_answers w = (Ok (ej_name, site, dir, exclude_list, start), w1) →
  hd_error (w_in w) = Some ej_name
  ∧ (∃ site_dir, site = globals.BASE_SITE +:+ "/" +:+ site_dir)
  ∧ dir ≠ EmptyString
  ∧ (exclude_list = PList []
     ∨ ∃ text, literal_eval ("[" +:+ text +:+ "]") = Ok exclude_list).
Proof.
  unfold prompt_answers. intros Hrun.
  apply bind_ok_inv in Hrun as (a1 & w2 & Hin1 & Hrun).
  apply bind_ok_inv in Hrun as (a2 & w3 & Hin2 & Hrun).
  apply bind_ok_inv in Hrun as (a3 & w4 & Hin3 & Hrun).
  apply bind_ok_inv in Hrun as (a4 & w5 & Hin4 & Hrun).
  apply bind_ok_inv in Hrun as (a5 & w6 & Htags & Hrun).
  apply bind_ok_inv in Hrun as (a6 & w7 & Hstart & Hrun).
  rewrite ret_run in Hrun. injection Hrun as <- <- <- <- <- <-.
  apply input_ok_inv in Hin1 as (Hin1 & _).
  split; [rewrite Hin1; reflexivity|].
  split; [eauto|].
  split; [destruct (String.eqb a3 "") eqn:E; [discriminate|];
          apply String.eqb_neq in E; exact E|].
  destruct (String.eqb a4 "y").
  - apply bind_ok_inv in Htags as (text & w8 & _ & Hlit).
    rewrite lift_run in Hlit. injection Hlit as Hlit _. eauto.
  - rewrite ret_run in Htags. injection Htags as <- _. auto.
Qed.

(** What a call of [create_execution_file] that returns has done. *)
Lemma create_execution_file_ok_inv name site dir exclude_list start w w' :
  generator.create_execution_file name site dir exclude_list start w = (Ok tt, w') →
  open_error name = None
  ∧ ∃ v, json_of exclude_list = Some v
         ∧ w' = put_file name (json_dumps (descriptor site dir v start)) w.
Proof.
  unfold generator.create_execution_file, dump_file.
  destruct (open_error name); [discriminate|].
  fold (descriptor_built site dir exclude_list start).
  destruct (json_of exclude_list) as [v|] eqn:Hv.
  - rewrite (json_of_descriptor site dir exclude_list v start Hv).
    intros [= <-]. eauto.
  - rewrite (json_of_descriptor_None site dir exclude_list start Hv). discriminate.
Qed.
End PromptRuns.

Lemma input_keeps_disk {B} (f : world → B) :
  (∀ ss fs wr out inp out' inp',
     f {| w_sessions := ss; w_files := fs; w_written := wr; w_out := out'; w_in := inp' |}
     = f {| w_sessions := ss; w_files := fs; w_written := wr; w_out := out; w_in := inp |}) →
  ∀ prompt, keeps (untouched f) (input prompt).
Proof.
  intros Hf prompt [ss fs wr out inp]. unfold input, untouched.
  cbn [w_in w_out w_sessions w_files w_written]. destruct inp; apply Hf.
Qed.

Section PromptProperties.
Context {codec : JsonCodec} {readers : Readers} {disk : Disk}.

(** The prompts, for a user who gives no tags. *)
Lemma prompt_answers_no_tags ej_name site_dir dir use_tags number n rest (w : world) :
  w_in w = [ej_name; site_dir; dir; use_tags; number] ++ rest →
  use_tags ≠ "y" → py_int number = Ok n →
  prompt_answers w
  = (Ok (ej_name, globals.BASE_SITE +:+ "/" +:+ site_dir,
         if String.eqb dir "" then "./" else dir, PList [], n),
     answered prompts_shown rest w).
Proof.
  intros Hin Hno Hint. destruct w as [ss fs wr out inp]. cbn in Hin. subst inp.
  unfold prompt_answers.
  rewrite bind_run. unfold input at 1. cbn [w_in w_out w_sessions w_files w_written].
  rewrite bind_run. unfold input at 1. cbn [w_in w_out w_sessions w_files w_written].
  rewrite bind_run. unfold input at 1. cbn [w_in w_out w_sessions w_files w_written].
  rewrite bind_run. unfold input at 1. cbn [w_in w_out w_sessions w_files w_written].
  apply String.eqb_neq in Hno. rewrite Hno.
  rewrite bind_run, ret_run, bind_run.
  unfold try_except. rewrite bind_run. unfold input at 1.
  cbn [w_in w_out w_sessions w_files w_written app].
  rewrite lift_run, Hint, ret_run.
  f_equal. unfold answered, prompts_shown. cbn. rewrite <- !app_assoc. reflexivity.
Qed.

(** The prompts, for a user who gives tags. *)
Lemma prompt_answers_tags ej_name site_dir dir tags_text tags number n rest (w : world) :
  w_in w = [ej_name; site_dir; dir; "y"; tags_text; number] ++ rest →
  literal_eval ("[" +:+ tags_text +:+ "]") = Ok tags → py_int number = Ok n →
  ∃ w1, prompt_answers w
        = (Ok (ej_name, globals.BASE_SITE +:+ "/" +:+ site_dir,
               if String.eqb dir "" then "./" else dir, tags, n), w1)
        ∧ w_written w1 = w_written w ∧ w_files w1 = w_files w ∧ w_in w1 = rest.
Proof.
  intros Hin Hlit Hint. destruct w as [ss fs wr out inp]. cbn in Hin. subst inp.
  unfold prompt_answers.
  rewrite bind_run. unfold input at 1. cbn [w_in w_out w_sessions w_files w_written].
  rewrite bind_run. unfold input at 1. cbn [w_in w_out w_sessions w_files w_written].
  rewrite bind_run. unfold input at 1. cbn [w_in w_out w_sessions w_files w_written].
  rewrite bind_run. unfold input at 1. cbn [w_in w_out w_sessions w_files w_written].
  cbn [String.eqb Ascii.eqb Bool.eqb].
  rewrite bind_run, bind_run. unfold input at 1.
  cbn [w_in w_out w_sessions w_files w_written].
  rewrite lift_run, Hlit. rewrite bind_run.
  unfold try_except. rewrite bind_run. unfold input at 1.
  cbn [w_in w_out w_sessions w_files w_written app].
  rewrite lift_run, Hint, ret_run.
  eexists. split; [reflexivity|]. repeat split.
Qed.

(** X4.  [prompt_execution_values] touches no file but the one at the path
    typed first, and that as its last step.  A call that completes has
    written that one file and no other.  A call that raises has written
    nothing, when it raises at a prompt, in [ast.literal_eval], in [int]
    or in [open]; or else it raises the [TypeError] of [json.dump] on tags
    that cannot be written, and the file at the path typed, opened and
    emptied by then, is left with what [json.dump] wrote before it
    stopped. *)
Theorem prompt_writes_descriptor_last (w : world) :
  let run := generator.prompt_execution_values w in
  match run.1 with
  | Ok _ =>
      ∃ path text, hd_error (w_in w) = Some path
        ∧ open_error path = None
        ∧ w_written run.2 = w_written w ++ [(path, text)]
        ∧ w_files run.2 = <[path := text]> (w_files w)
  | Raise e =>
      (w_written run.2 = w_written w ∧ w_files run.2 = w_files w)
      ∨ (e = TypeError
         ∧ ∃ path site dir exclude_list start,
             hd_error (w_in w) = Some path
             ∧ open_error path = None
             ∧ json_of exclude_list = None
             ∧ w_written run.2
               = w_written w
                 ++ [(path, json_dump_left (descriptor_built site dir exclude_list start))]
             ∧ w_files run.2
               = <[path := json_dump_left (descriptor_built site dir exclude_list start)]>
                   (w_files w))
  end.
Proof.
  cbv zeta. rewrite prompt_split.
  pose proof (keeps_prompt_answers (untouched w_written) (untouched_refl _)
                (untouched_trans _) ltac:(done)
                (input_keeps_disk w_written ltac:(done)) w) as Hw.
  pose proof (keeps_prompt_answers (untouched w_files) (untouched_refl _)
                (untouched_trans _) ltac:(done)
                (input_keeps_disk w_files ltac:(done)) w) as Hf.
  unfold untouched in Hw, Hf.
  destruct (prompt_answers w) as [[[[[[ej_name site] dir] exclude_list] start]|e] w1] eqn:Hrun;
    cbn [snd] in Hw, Hf; [|cbn; auto].
  apply prompt_answers_ok_inv in Hrun as (Hhd & _).
  unfold generator.create_execution_file.
  fold (descriptor_built site dir exclude_list start).
  destruct (open_error ej_name) as [e|] eqn:Hopen.
  { rewrite (dump_file_refused _ _ e) by exact Hopen. cbn. auto. }
  destruct (json_of exclude_list) as [v|] eqn:Hv.
  - rewrite (dump_file_run _ _ (descriptor site dir v start))
      by (try exact Hopen; apply json_of_descriptor; exact Hv).
    cbn. rewrite Hw, Hf. eexists ej_name, _. auto.
  - rewrite dump_file_stops
      by (try exact Hopen; apply json_of_descriptor_None; exact Hv).
    cbn. right. split; [reflexivity|].
    exists ej_name, site, dir, exclude_list, start. rewrite Hw, Hf. auto.
Qed.

(** X5.  The answers make the descriptor: the site is the base site, a slash
    and the site directory typed; an empty answer for the directory stands
    for ["./"]; the tags are read only after the answer [y], and are the
    empty list otherwise; the start is the number typed.  The descriptor
    is written when the path typed can be opened and [json.dump] can write
    the tags; when the path cannot be opened, the error of [open] ends the
    call after the last answer, and nothing is written. *)
Theorem prompt_execution_values_writes_typed_values
    (ej_name site_dir dir : string) (w : world) :
  (∀ use_tags number n rest,
     w_in w = [ej_name; site_dir; dir; use_tags; number] ++ rest →
     use_tags ≠ "y" → py_int number = Ok n →
     open_error ej_name = None →
     ∃ w', generator.prompt_execution_values w = (Ok tt, w')
       ∧ w_written w'
         = w_written w ++
           [(ej_name, json_dumps (descriptor (globals.BASE_SITE +:+ "/" +:+ site_dir)
                                    (if String.eqb dir "" then "./" else dir)
                                    (JList []) n))]
       ∧ w_in w' = rest)
  ∧ (∀ tags_text tags written number n rest,
       w_in w = [ej_name; site_dir; dir; "y"; tags_text; number] ++ rest →
       literal_eval ("[" +:+ tags_text +:+ "]") = Ok tags → py_int number = Ok n →
       open_error ej_name = None → json_of tags = Some written →
       ∃ w', generator.prompt_execution_values w = (Ok tt, w')
         ∧ w_written w'
           = w_written w ++
             [(ej_name, json_dumps (descriptor (globals.BASE_SITE +:+ "/" +:+ site_dir)
                                      (if String.eqb dir "" then "./" else dir)
                                      written n))]
         ∧ w_in w' = rest)
  ∧ (∀ use_tags number n rest e,
       w_in w = [ej_name; site_dir; dir; use_tags; number] ++ rest →
       use_tags ≠ "y" → py_int number = Ok n →
       open_error ej_name = Some e →
       generator.prompt_execution_values w = (Raise e, answered prompts_shown rest w)).
Proof.
  split; [|split].
  - intros use_tags number n rest Hin Hno Hint Hopen.
    rewrite prompt_split,
      (prompt_answers_no_tags ej_name site_dir dir use_tags number n rest w Hin Hno Hint).
    rewrite (create_execution_file_run ej_name _ _ (PList []) (JList []) n _ Hopen eq_refl).
    eexists. split; [reflexivity|]. split; reflexivity.
  - intros tags_text tags written number n rest Hin Hlit Hint Hopen Hwritten.
    destruct (prompt_answers_tags ej_name site_dir dir tags_text tags number n rest w
                Hin Hlit Hint) as (w1 & Hrun & Hw & _ & Hi).
    rewrite prompt_split, Hrun.
    rewrite (create_execution_file_run ej_name _ _ tags written n _ Hopen Hwritten).
    eexists. split; [reflexivity|]. cbn [w_written w_in put_file].
    rewrite Hw, Hi. split; reflexivity.
  - intros use_tags number n rest e Hin Hno Hint Hopen.
    rewrite prompt_split,
      (prompt_answers_no_tags ej_name site_dir dir use_tags number n rest w Hin Hno Hint).
    unfold generator.create_execution_file.
    apply dump_file_refused. exact Hopen.
Qed.

(** X6.  A descriptor the prompt has created passes the validation of
    [read_execution_file].  When [prompt_execution_values] returns, the
    file at the path typed first holds the text of a dict with the four
    fields, its site under the base site and its directory not empty; and
    with a codec that decodes this text back to the dict,
    [read_execution_file] on that path gives the empty message and the
    dict. *)
Theorem prompted_descriptor_passes_validation (w w' : world) :
  generator.prompt_execution_values w = (Ok tt, w') →
  ∃ path site_dir dir tags start,
    let written := descriptor (globals.BASE_SITE +:+ "/" +:+ site_dir) dir tags start in
    hd_error (w_in w) = Some path
    ∧ dir ≠ EmptyString
    ∧ w_files w' !! path = Some (json_dumps written)
    ∧ first_missing [("site", JStr (globals.BASE_SITE +:+ "/" +:+ site_dir));
                     ("dir", JStr dir); ("exclude_list", tags); ("start", JInt start)]
      = None
    ∧ (json_loads (json_dumps written) = Some written →
       generator.read_execution_file path w'
       = (Ok (EmptyString, Some written), said [loaded_line written] w')).
Proof.
  rewrite prompt_split.
  destruct (prompt_answers w) as [[[[[[ej_name site] dir] exclude_list] start]|e] w1] eqn:Hrun;
    [|discriminate].
  apply prompt_answers_ok_inv in Hrun as (Hhd & (site_dir & ->) & Hdir & _).
  intros Hwrite.
  apply create_execution_file_ok_inv in Hwrite as (Hopen & v & Hv & ->).
  exists ej_name, site_dir, dir, v, start. cbv zeta.
  split; [exact Hhd|]. split; [exact Hdir|].
  split; [cbn; apply lookup_insert_eq|].
  split; [reflexivity|].
  intros Hcodec.
  rewrite (read_execution_file_run ej_name
             (json_dumps (descriptor (globals.BASE_SITE +:+ "/" +:+ site_dir) dir v start))
             (descriptor (globals.BASE_SITE +:+ "/" +:+ site_dir) dir v start)).
  - reflexivity.
  - cbn. apply lookup_insert_eq.
  - exact Hcodec.
Qed.
End PromptProperties.

Lemma prompt_execution_values_writes_typed_values_witness :
  ∃ w', generator.prompt_execution_values (codec := sample.plain_json)
          (readers := sample.plain_readers) (disk := sample.out_disk)
          (scenario.console storefront.typed_descriptor)
        = (Ok tt, w')
    ∧ w_written w'
      = [("exec.json", sample.dumps storefront.exec_descriptor)]
    ∧ w_in w' = [].
Proof.
  apply (proj1 (proj2 (prompt_execution_values_writes_typed_values
                  (codec := sample.plain_json) (readers := sample.plain_readers)
                  (disk := sample.out_disk)
                  "exec.json" "air-jordans/air-jordan-1" "./out/"
                  (scenario.console storefront.typed_descriptor)))
           "'retro'" (PList [PStr "retro"]) (JList [JStr "retro"]) "1" 1%Z []).
  - reflexivity.
  - vm_compute. reflexivity.
  - vm_compute. reflexivity.
  - reflexivity.
  - reflexivity.
Defined.

(** Two runs of the prompt on the sample disk.  A user who gives no path:
    [open] raises [FileNotFoundError] after the last answer and nothing is
    written.  A user who gives the tag between braces: [json.dump] raises
    a [TypeError] on the set, and the descriptor file, which held another
    text, is left with what was written up to the tags. *)
Lemma prompt_runs_that_raise :
  let no_path := generator.prompt_execution_values (codec := sample.plain_json)
                   (readers := sample.plain_readers) (disk := sample.out_disk)
                   (scenario.console storefront.typed_no_path) in
  let braces := generator.prompt_execution_values (codec := sample.plain_json)
                  (readers := sample.plain_readers) (disk := sample.out_disk)
                  (answered [] storefront.typed_set
                     (scenario.disk "exec.json" "{}")) in
  let left := "{" +:+ sample.dumps_str "site" +:+ ": "
              +:+ sample.dumps_str "https://www.flightclub.com/air-jordans/air-jordan-1"
              +:+ ", " +:+ sample.dumps_str "dir" +:+ ": " +:+ sample.dumps_str "./out/"
              +:+ ", " +:+ sample.dumps_str "exclude_list" +:+ ": [" in
  no_path.1 = Raise FileNotFoundError
  ∧ w_written no_path.2 = []
  ∧ w_in no_path.2 = []
  ∧ literal_eval (Readers := sample.plain_readers) "[{'retro'}]"
    = Ok (PList [PSet [PStr "retro"]])
  ∧ braces.1 = Raise TypeError
  ∧ w_written braces.2 = [("exec.json", left)]
  ∧ w_files braces.2 !! "exec.json" = Some left.
Proof. vm_compute. repeat split. Qed.

Lemma prompted_descriptor_passes_validation_witness :
  let w := scenario.console storefront.typed_descriptor in
  let w' := (generator.prompt_execution_values (codec := sample.plain_json)
               (readers := sample.plain_readers) (disk := sample.out_disk) w).2 in
  (∃ path site_dir dir tags start,
     let written := descriptor (globals.BASE_SITE +:+ "/" +:+ site_dir) dir tags start in
     hd_error (w_in w) = Some path
     ∧ dir ≠ EmptyString
     ∧ w_files w' !! path = Some (json_dumps (JsonCodec := sample.plain_json) written)
     ∧ first_missing [("site", JStr (globals.BASE_SITE +:+ "/" +:+ site_dir));
                      ("dir", JStr dir); ("exclude_list", tags); ("start", JInt start)]
       = None
     ∧ (json_loads (JsonCodec := sample.plain_json)
          (json_dumps (JsonCodec := sample.plain_json) written) = Some written →
        generator.read_execution_file (codec := sample.plain_json) path w'
        = (Ok (EmptyString, Some written), said [loaded_line written] w')))
  ∧ (generator.read_execution_file (codec := sample.plain_json) "exec.json" w').1
    = Ok (EmptyString, Some storefront.exec_descriptor).
Proof.
  intros w w'. split; [|vm_compute; reflexivity].
  apply (prompted_descriptor_passes_validation (codec := sample.plain_json)
           (readers := sample.plain_readers) (disk := sample.out_disk) w w').
  vm_compute. reflexivity.
Defined.

(** ** execute *)
Section Execute.
Context {web : Web} {regex : Regex} {codec : JsonCodec} {readers : Readers}
        {disk : Disk} {http : Http} {reprs : Reprs} {decode_errors : DecodeErrors}.

Lemma execute_with_path_run nested path w :
  generator.execute_with nested (Some path) w =
  match generator.execute_load (Some path) (said [banner] w) with
  | (Ok (inl returned), w1) => (Ok returned, w1)
  | (Ok (inr loaded), w1) => generator.execute_generate loaded w1
  | (Raise e, w1) => (Raise e, w1)
  end.
Proof.
  unfold generator.execute_with. rewrite bind_run. unfold print at 1.
  rewrite bind_run, ret_run, bind_run.
  match goal with
  | |- context [generator.execute_load _ ?w0] => change w0 with (said [banner] w)
  end.
  destruct (generator.execute_load (Some path) (said [banner] w)) as [[[r|loaded]|e] w1];
    reflexivity.
Qed.

Lemma execute_path_run path w :
  generator.execute (Some path) w =
  match generator.execute_load (Some path) (said [banner] w) with
  | (Ok (inl returned), w1) => (Ok returned, w1)
  | (Ok (inr loaded), w1) => generator.execute_generate loaded w1
  | (Raise e, w1) => (Raise e, w1)
  end.
Proof.
  unfold generator.execute. destruct (length (w_in w)); apply execute_with_path_run.
Qed.

Lemma read_execution_file_message path content loaded w :
  w_files w !! path = Some content → json_loads content = Some loaded →
  generator.read_execution_file path w =
  (Ok (validation_message loaded,
       if String.eqb (validation_message loaded) "" then Some loaded else None),
   said [loaded_line loaded] w).
Proof.
  intros Hfile Hloads.
  rewrite (read_execution_file_run path content loaded w Hfile Hloads).
  unfold validation_message. destruct loaded; try reflexivity.
  destruct (first_missing d); reflexivity.
Qed.

Lemma read_file_run path content w :
  w_files w !! path = Some content → read_file path w = (Ok content, w).
Proof. intros Hfile. unfold read_file. rewrite Hfile. reflexivity. Qed.



Lemma said_said l1 l2 w : said l2 (said l1 w) = said (l1 ++ l2) w.
Proof. unfold said. cbn. rewrite app_assoc. reflexivity. Qed.

Lemma execute_load_decoded path content loaded w :
  w_files w !! path = Some content → json_loads content = Some loaded →
  generator.execute_load (Some path) w =
  if String.eqb (validation_message loaded) ""
  then (Ok (inr loaded), said [loaded_line loaded] w)
  else (Ok (inl (JBool false)),
        said [loaded_line loaded;
              Print [Lit "Error with execution JSON: "; Lit " ";
                     Lit (validation_message loaded)]] w).
Proof.
  intros Hfile Hloads. unfold generator.execute_load.
  rewrite bind_run, ret_run. unfold try_except.
  rewrite bind_run, (read_execution_file_message path content loaded w Hfile Hloads).
  cbn [fst snd].
  destruct (String.eqb (validation_message loaded) "") eqn:Hmsg; cbn [negb].
  - rewrite ret_run. reflexivity.
  - rewrite bind_run. unfold print at 1. rewrite ret_run.
    f_equal. unfold said. cbn. rewrite <- app_assoc. reflexivity.
Qed.

(** X7.  [execute(path)] on a descriptor that decodes but is not a dict with the
    four fields: it shows what it loaded and the message of
    [read_execution_file], returns [False], and does nothing else: no
    request is sent, no window opened, no file written. *)
Theorem execute_rejects_incomplete_descriptor
    (path content : string) (loaded : json) (w : world) :
  w_files w !! path = Some content →
  json_loads content = Some loaded →
  validation_message loaded ≠ EmptyString →
  generator.execute (Some path) w
  = (Ok (JBool false),
     said [banner; loaded_line loaded;
           Print [Lit "Error with execution JSON: "; Lit " ";
                  Lit (validation_message loaded)]] w).
Proof.
  intros Hfile Hloads Hmsg. rewrite execute_path_run.
  rewrite (execute_load_decoded path content loaded) by assumption.
  apply String.eqb_neq in Hmsg. rewrite Hmsg, said_said. reflexivity.
Qed.


Lemma execute_with_after_yes nested rest w :
  w_in w = "y" :: rest →
  generator.execute_with nested None w =
  match generator.prompt_execution_values
          (answered [banner; Prompt "Create execution JSON file? [y/N]: "] rest w) with
  | (Ok _, w2) =>
      match nested w2 with
      | (Ok _, w3) => (Raise TypeError, said [info_line [Lit "Retrieving site..."]] w3)
      | (Raise e, w3) => (Raise e, w3)
      end
  | (Raise e, w2) => (Raise e, w2)
  end.
Proof.
  intros Hin. unfold generator.execute_with.
  rewrite bind_run. unfold print at 1. rewrite bind_run, bind_run.
  unfold input at 1. cbn [w_in w_out w_sessions w_files w_written]. rewrite Hin.
  rewrite ret_run. cbn [String.eqb Ascii.eqb Bool.eqb negb].
  rewrite <- app_assoc. cbn [app]. fold banner.
  fold (answered [banner; Prompt "Create execution JSON file? [y/N]: "] rest w).
  rewrite !bind_run.
  match goal with
  | |- context [generator.prompt_execution_values ?w1] =>
      destruct (generator.prompt_execution_values w1) as [[[]|e] w2]
  end; [|reflexivity].
  rewrite !bind_run.
  destruct (nested w2) as [[r|e] w3]; [|reflexivity].
  rewrite ret_run. unfold generator.execute_generate.
  rewrite bind_run, print_info_run, bind_run, lift_run. reflexivity.
Qed.

(** X9.  With a path, [execute] reads nothing from the console, whatever
    happens; so does the script of run.py when started with an
    argument. *)
Theorem execute_with_path_reads_no_input (path : string) (w : world) :
  w_in (generator.execute (Some path) w).2 = w_in w
  ∧ ∀ program more, w_in (run.main (program :: path :: more) w).2 = w_in w.
Proof.
  assert (Hkeep : w_in (generator.execute (Some path) w).2 = w_in w).
  { apply (keeps_execute_path (untouched w_in)); try done. apply untouched_trans. }
  split; [exact Hkeep|]. intros program more. exact Hkeep.
Qed.

End Execute.

Lemma execute_rejects_incomplete_descriptor_witness :
  generator.execute (web := scenario.shop) (regex := sample.plain_regex)
    (codec := sample.plain_json) (readers := sample.plain_readers) (disk := sample.out_disk)
    (http := storefront.network) (reprs := sample_text.plain_repr)
    (decode_errors := sample_text.no_value_errors)
    (Some "exec.json")
    (scenario.disk "exec.json" (sample.dumps scenario.partial_descriptor))
  = (Ok (JBool false),
     said [banner; loaded_line scenario.partial_descriptor;
           Print [Lit "Error with execution JSON: "; Lit " ";
                  Lit "Missing exclude_list value"]]
       (scenario.disk "exec.json" (sample.dumps scenario.partial_descriptor))).
Proof.
  apply (execute_rejects_incomplete_descriptor (web := scenario.shop)
           (regex := sample.plain_regex) (codec := sample.plain_json)
           (readers := sample.plain_readers) (disk := sample.out_disk) (http := storefront.network)
           (reprs := sample_text.plain_repr) (decode_errors := sample_text.no_value_errors)
           "exec.json" (sample.dumps scenario.partial_descriptor)
           scenario.partial_descriptor).
  - vm_compute. reflexivity.
  - vm_compute. reflexivity.
  - vm_compute. discriminate.
Defined.


(** ** Room for nested calls *)

Lemma bind_ext_run {A B} (m : M A) (f g : A → M B) w :
  (∀ a w1, m w = (Ok a, w1) → f a w1 = g a w1) → (m ≫= f) w = (m ≫= g) w.
Proof.
  intros Hfg. rewrite !bind_run. destruct (m w) as [[a|e] w1]; [|reflexivity].
  apply Hfg. reflexivity.
Qed.

Lemma bind_same_run {A B} (m1 m2 : M A) (f : A → M B) w :
  m1 w = m2 w → (m1 ≫= f) w = (m2 ≫= f) w.
Proof. intros Hm. rewrite !bind_run, Hm. reflexivity. Qed.

Lemma input_shrinks_refl w : input_shrinks w w.
Proof. unfold input_shrinks. lia. Qed.

Lemma input_shrinks_trans a b c :
  input_shrinks a b → input_shrinks b c → input_shrinks a c.
Proof. unfold input_shrinks. lia. Qed.

Lemma input_shrinks_input prompt : keeps input_shrinks (input prompt).
Proof.
  intros w. unfold input, input_shrinks. destruct (w_in w); cbn; lia.
Qed.

Section Room.
Context {web : Web} {regex : Regex} {codec : JsonCodec} {readers : Readers}
        {disk : Disk} {http : Http} {reprs : Reprs} {decode_errors : DecodeErrors}.

Lemma prompt_input_shrinks w :
  length (w_in (generator.prompt_execution_values w).2) ≤ length (w_in w).
Proof.
  apply (keeps_prompt_execution_values input_shrinks input_shrinks_refl
           input_shrinks_trans);
    first [apply input_shrinks_input
          | intros ? ?; unfold input_shrinks; cbn; lia
          | intros ? ? ?; unfold input_shrinks; cbn; lia].
Qed.

(** The body of [execute] calls [nested] only after it has read a line:
    two bodies whose nested calls agree on shorter console inputs
    agree. *)
Lemma execute_with_agree nested1 nested2 expath w :
  (∀ w2, length (w_in w2) < length (w_in w) → nested1 w2 = nested2 w2) →
  generator.execute_with nested1 expath w = generator.execute_with nested2 expath w.
Proof.
  intros Hnested. unfold generator.execute_with.
  apply bind_ext_run. intros [] w0 Hprint.
  assert (Hw0 : w_in w0 = w_in w) by (injection Hprint as <-; reflexivity).
  apply bind_ext_run. intros gen_json w1 Hgen.
  apply bind_same_run.
  destruct gen_json; [|reflexivity].
  assert (Hw1 : length (w_in w1) < length (w_in w)).
  { destruct expath as [path|]; [rewrite ret_run in Hgen; discriminate|].
    apply bind_ok_inv in Hgen as (answer & w1' & Hinput & Hret).
    rewrite ret_run in Hret. injection Hret as _ <-.
    apply input_ok_inv in Hinput as (Hinput & _). rewrite <- Hw0, Hinput. cbn. lia. }
  apply bind_ext_run. intros [] w2 Hprompt.
  apply bind_same_run. apply Hnested.
  pose proof (prompt_input_shrinks w1) as Hshrink. rewrite Hprompt in Hshrink.
  cbn [snd] in Hshrink. lia.
Qed.

Lemma execute_loop_agree n :
  ∀ m expath w, length (w_in w) ≤ n → length (w_in w) ≤ m →
  generator.execute_loop n expath w = generator.execute_loop m expath w.
Proof.
  induction n as [|n IH]; intros m expath w Hn Hm.
  - destruct m; cbn [generator.execute_loop]; apply execute_with_agree;
      intros w2 Hw2; lia.
  - destruct m as [|m]; cbn [generator.execute_loop]; apply execute_with_agree;
      intros w2 Hw2; [lia|].
    apply IH; lia.
Qed.

(** A call with room for as many nested calls as the console has lines
    behaves as one with any more room. *)
Lemma execute_loop_room n expath w :
  length (w_in w) ≤ n → generator.execute_loop n expath w = generator.execute expath w.
Proof. intros Hn. unfold generator.execute. apply execute_loop_agree; lia. Qed.

End Room.

(** ** Calls with typed arguments *)
Section Typed.
Context {web : Web} {regex : Regex} {codec : JsonCodec} {readers : Readers}
        {disk : Disk} {http : Http} {reprs : Reprs} {decode_errors : DecodeErrors}.

Lemma create_shoe_pair_dyn_list idobj tags w :
  generator.create_shoe_pair_dyn idobj (JList tags) w
  = generator.create_shoe_pair idobj tags w.
Proof.
  unfold generator.create_shoe_pair_dyn, generator.create_shoe_pair.
  rewrite !bind_run, !lift_run. destruct (getitem idobj "name"); reflexivity.
Qed.

Lemma create_all_files_dyn_loop_typed directory tags shoelist :
  ∀ (n : Z) (w : world),
  generator.create_all_files_dyn_loop directory (JList tags) shoelist (JInt n) w
  = match generator.create_all_files_loop directory tags shoelist n w with
    | (Ok lf, w') => (Ok (JInt lf), w')
    | (Raise e, w') => (Raise e, w')
    end.
Proof.
  induction shoelist as [|shoe rest IH]; intros n w; [reflexivity|].
  cbn [generator.create_all_files_dyn_loop generator.create_all_files_loop].
  rewrite !bind_run, create_shoe_pair_dyn_list.
  destruct (generator.create_shoe_pair shoe tags w) as [[[made|]|e] w1];
    [|apply IH|reflexivity].
  rewrite bind_run, lift_run. cbn [py_plus_one str_text]. cbv zeta.
  rewrite !bind_run.
  destruct (generator.create_file _ _ _ _ w1) as [[[]|e] w2]; [|reflexivity].
  rewrite !bind_run, !print_info_run. apply IH.
Qed.

Lemma create_all_files_dyn_typed directory shoelist tags startnum w :
  generator.create_all_files_dyn directory (JList shoelist) (JList tags) (JInt startnum) w
  = match generator.create_all_files directory shoelist tags startnum w with
    | (Ok lf, w') => (Ok (JInt lf), w')
    | (Raise e, w') => (Raise e, w')
    end.
Proof.
  unfold generator.create_all_files_dyn, generator.create_all_files.
  rewrite !bind_run, !lift_run. cbn [py_minus_one py_iter].
  apply create_all_files_dyn_loop_typed.
Qed.

Lemma get_impressions_list_frame bsoup w :
  let w' := (generator.get_impressions_list bsoup w).2 in
  w_written w' = w_written w ∧ w_files w' = w_files w
  ∧ w_sessions w' = w_sessions w ∧ w_in w' = w_in w.
Proof.
  cbv zeta. repeat split.
  - apply (keeps_get_impressions_list (untouched w_written)); try done.
    apply untouched_trans.
  - apply (keeps_get_impressions_list (untouched w_files)); try done.
    apply untouched_trans.
  - apply (keeps_get_impressions_list (untouched w_sessions)); try done.
    apply untouched_trans.
  - apply (keeps_get_impressions_list (untouched w_in)); try done.
    apply untouched_trans.
Qed.

Lemma execute_path_generates
    (path content : string) (d : list (string * json)) (site : json) (dir : string)
    (tags : list string) (start : Z) (soup : page) (shoelist : list json) (w : world) :
  w_files w !! path = Some content →
  json_loads content = Some (JDict d) →
  dict_get "site" d = Some site →
  dict_get "dir" d = Some (JStr dir) →
  dict_get "exclude_list" d = Some (JList (JStr <$> tags)) →
  dict_get "start" d = Some (JInt start) →
  requests_get site = Ok soup →
  (∀ w0, (generator.get_impressions_list soup w0).1 = Ok (JList shoelist)) →
  Forall (λ t, re_valid t = true) tags →
  forallb (resolution.passes tags) shoelist = true →
  let kept := omap (resolution.kept_pair tags) shoelist in
  let files := imap (resolution.numbered_file dir start) kept in
  can_open files →
  ∃ w', generator.execute (Some path) w
        = (Ok (JList [JInt (start - 1 + Z.of_nat (length kept)); JBool true]), w')
    ∧ w_written w' = w_written w ++ files
    ∧ w_files w' = files_after (w_files w) files
    ∧ w_sessions w' = w_sessions w
    ∧ w_in w' = w_in w.
Proof.
  intros Hfile Hloads Hsite Hdir Htags Hstart Hget Hlist Hvalid Hpass kept files Hopen.
  rewrite execute_path_run.
  rewrite (execute_load_decoded path content (JDict d)) by assumption.
  assert (Hmsg : validation_message (JDict d) = EmptyString).
  { unfold validation_message, first_missing, required_fields, dict_has. cbn [List.find].
    rewrite Hsite, Hdir, Htags, Hstart. reflexivity. }
  rewrite Hmsg. cbn [String.eqb].
  unfold generator.execute_generate.
  rewrite bind_run, print_info_run, bind_run, lift_run. cbn [getitem]. rewrite Hsite.
  rewrite bind_run, lift_run, Hget, bind_run, print_info_run.
  rewrite bind_run, lift_run, Hdir, bind_run.
  match goal with
  | |- context [generator.get_impressions_list soup ?w1] =>
      pose proof (Hlist w1) as Hrun;
      pose proof (get_impressions_list_frame soup w1) as (Hw & Hf & Hs & Hi);
      destruct (generator.get_impressions_list soup w1) as [r w2]
  end.
  cbn [fst snd] in Hrun, Hw, Hf, Hs, Hi. subst r.
  rewrite bind_run, lift_run, Htags, bind_run, lift_run, Hstart, bind_run.
  cbn [str_text]. rewrite create_all_files_dyn_typed.
  unfold generator.create_all_files.
  destruct (create_all_files_loop_run dir tags shoelist Hvalid Hpass (start - 1)%Z w2)
    as (w' & Hloop & Hw' & Hf' & Hs' & Hi').
  { replace (start - 1 + 1)%Z with start by lia. exact Hopen. }
  rewrite Hloop, ret_run. exists w'.
  replace (start - 1 + 1)%Z with start in Hw', Hf' by lia.
  split; [reflexivity|].
  rewrite Hw', Hf', Hs', Hi', Hw, Hf, Hs, Hi. auto.
Qed.

(** X10.  [execute(path)] on a complete descriptor: the page of its site gives
    the catalog, and the run is that of [create_all_files] in the
    descriptor's directory, with its tags, from its start number.  For
    tags that are valid patterns, candidates that all pass, and files that
    can each be opened for writing in that directory, the call returns
    [[lf, True]] where [lf] is [start - 1] plus the number of kept
    candidates, and has written their files, numbered from [start], and
    closed every window it opened. *)
Theorem execute_generates_from_descriptor
    (path content : string) (d : list (string * json)) (site : json) (dir : string)
    (tags : list string) (start : Z) (soup : page) (shoelist : list json) (w : world) :
  w_files w !! path = Some content →
  json_loads content = Some (JDict d) →
  dict_get "site" d = Some site →
  dict_get "dir" d = Some (JStr dir) →
  dict_get "exclude_list" d = Some (JList (JStr <$> tags)) →
  dict_get "start" d = Some (JInt start) →
  requests_get site = Ok soup →
  (∀ w0, (generator.get_impressions_list soup w0).1 = Ok (JList shoelist)) →
  Forall (λ t, re_valid t = true) tags →
  forallb (resolution.passes tags) shoelist = true →
  let kept := omap (resolution.kept_pair tags) shoelist in
  let files := imap (resolution.numbered_file dir start) kept in
  can_open files →
  ∃ w', generator.execute (Some path) w
        = (Ok (JList [JInt (start - 1 + Z.of_nat (length kept)); JBool true]), w')
    ∧ w_written w' = w_written w ++ files
    ∧ w_files w' = files_after (w_files w) files
    ∧ w_sessions w' = w_sessions w.
Proof.
  intros Hfile Hloads Hsite Hdir Htags Hstart Hget Hlist Hvalid Hpass kept files Hopen.
  destruct (execute_path_generates path content d site dir tags start soup shoelist w)
    as (w' & Hrun & Hw & Hf & Hs & _); try assumption.
  exists w'. auto.
Qed.
End Typed.

Lemma execute_generates_from_descriptor_witness :
  ∃ w', generator.execute (web := scenario.shop) (regex := sample.plain_regex)
          (codec := sample.plain_json) (readers := sample.plain_readers) (disk := sample.out_disk)
          (http := storefront.network) (reprs := sample_text.plain_repr)
          (decode_errors := sample_text.no_value_errors)
          (Some "exec.json") storefront.with_descriptor
        = (Ok (JList [JInt 1; JBool true]), w')
    ∧ w_written w'
      = [("./out/1.json",
          sample.dumps (JDict [("name", JStr "Air Jordan 1 Low");
                               ("img", JStr "https://cdn.flightclub.com/012345.jpg")]))]
    ∧ w_files w'
      = files_after (w_files storefront.with_descriptor)
          [("./out/1.json",
            sample.dumps (JDict [("name", JStr "Air Jordan 1 Low");
                                 ("img", JStr "https://cdn.flightclub.com/012345.jpg")]))]
    ∧ w_sessions w' = ∅.
Proof.
  apply (execute_generates_from_descriptor (web := scenario.shop)
           (regex := sample.plain_regex) (codec := sample.plain_json)
           (readers := sample.plain_readers) (disk := sample.out_disk) (http := storefront.network)
           (reprs := sample_text.plain_repr) (decode_errors := sample_text.no_value_errors)
           "exec.json" (sample.dumps storefront.exec_descriptor)
           [("site", JStr storefront.catalog_url); ("dir", JStr "./out/");
            ("exclude_list", JList [JStr "retro"]); ("start", JInt 1)]
           (JStr storefront.catalog_url) "./out/" ["retro"] 1 storefront.catalog_page
           [scenario.retro_high; scenario.low] storefront.with_descriptor).
  - vm_compute. reflexivity.
  - vm_compute. reflexivity.
  - reflexivity.
  - reflexivity.
  - reflexivity.
  - reflexivity.
  - reflexivity.
  - intros w0. vm_compute. reflexivity.
  - repeat constructor.
  - vm_compute. reflexivity.
  - repeat constructor.
Defined.

(** ** execute, when it cannot finish *)
Section ExecuteMore.
Context {web : Web} {regex : Regex} {codec : JsonCodec} {readers : Readers}
        {disk : Disk} {http : Http} {reprs : Reprs} {decode_errors : DecodeErrors}.

(** X11.  After the answer [y] to its first question, [execute()] never returns:
    the prompt raises, or the nested call made once the descriptor is
    written raises, or else that call returns and the outer one, whose
    [loaded] is still [None], raises a [TypeError] at [loaded["site"]],
    whatever the nested call returned and wrote. *)
Theorem execute_never_returns_after_creating_descriptor (rest : list string) (w : world) :
  w_in w = "y" :: rest →
  (∃ e w', generator.execute None w = (Raise e, w'))
  ∧ (∀ w2 r w3,
       generator.prompt_execution_values
         (answered [banner; Prompt "Create execution JSON file? [y/N]: "] rest w)
       = (Ok tt, w2) →
       generator.execute None w2 = (Ok r, w3) →
       generator.execute None w
       = (Raise TypeError, said [info_line [Lit "Retrieving site..."]] w3)).
Proof.
  intros Hin.
  assert (Hrun : generator.execute None w
                 = generator.execute_with (generator.execute_loop (length rest) None) None w).
  { unfold generator.execute. rewrite Hin. reflexivity. }
  rewrite Hrun, (execute_with_after_yes _ rest w Hin).
  split.
  - destruct (generator.prompt_execution_values _) as [[[]|e] w2]; [|eauto].
    destruct (generator.execute_loop (length rest) None w2) as [[r|e] w3]; eauto.
  - intros w2 r w3 Hprompt Hnested. rewrite Hprompt.
    rewrite execute_loop_room, Hnested; [reflexivity|].
    pose proof (prompt_input_shrinks
                  (answered [banner; Prompt "Create execution JSON file? [y/N]: "] rest w))
      as Hshrink.
    rewrite Hprompt in Hshrink. exact Hshrink.
Qed.

(** X12.  [read_execution_file] checks that the fields are there, not what they
    hold.  On a descriptor with the four fields whose start is no number,
    [execute] fetches the catalog and then raises a [TypeError] at
    [startnum - 1], before any candidate is looked at: no file is
    written. *)
Theorem execute_raises_on_start_that_is_no_number
    (path content : string) (d : list (string * json)) (site dir tags start : json)
    (soup : page) (shoelist : json) (w : world) :
  w_files w !! path = Some content →
  json_loads content = Some (JDict d) →
  dict_get "site" d = Some site → dict_get "dir" d = Some dir →
  dict_get "exclude_list" d = Some tags → dict_get "start" d = Some start →
  py_minus_one start = Raise TypeError →
  requests_get site = Ok soup →
  (∀ w0, (generator.get_impressions_list soup w0).1 = Ok shoelist) →
  ∃ w', generator.execute (Some path) w = (Raise TypeError, w')
    ∧ w_written w' = w_written w ∧ w_sessions w' = w_sessions w.
Proof.
  intros Hfile Hloads Hsite Hdir Htags Hstart Hminus Hget Hlist.
  rewrite execute_path_run.
  rewrite (execute_load_decoded path content (JDict d)) by assumption.
  assert (Hmsg : validation_message (JDict d) = EmptyString).
  { unfold validation_message, first_missing, required_fields, dict_has. cbn [List.find].
    rewrite Hsite, Hdir, Htags, Hstart. reflexivity. }
  rewrite Hmsg. cbn [String.eqb].
  unfold generator.execute_generate.
  rewrite bind_run, print_info_run, bind_run, lift_run. cbn [getitem]. rewrite Hsite.
  rewrite bind_run, lift_run, Hget, bind_run, print_info_run.
  rewrite bind_run, lift_run, Hdir, bind_run.
  match goal with
  | |- context [generator.get_impressions_list soup ?w1] =>
      pose proof (Hlist w1) as Hrun;
      pose proof (get_impressions_list_frame soup w1) as (Hw & _ & Hs & _);
      destruct (generator.get_impressions_list soup w1) as [r w2]
  end.
  cbn [fst snd] in Hrun, Hw, Hs. subst r.
  rewrite bind_run, lift_run, Htags, bind_run, lift_run, Hstart, bind_run.
  unfold generator.create_all_files_dyn. rewrite bind_run, lift_run, Hminus.
  exists w2. split; [reflexivity|]. rewrite Hw, Hs. auto.
Qed.

End ExecuteMore.

Lemma execute_raises_on_start_that_is_no_number_witness :
  ∃ w', generator.execute (web := scenario.shop) (regex := sample.plain_regex)
          (codec := sample.plain_json) (readers := sample.plain_readers) (disk := sample.out_disk)
          (http := storefront.network) (reprs := sample_text.plain_repr)
          (decode_errors := sample_text.no_value_errors)
          (Some "exec.json")
          (scenario.disk "exec.json"
             (sample.dumps (JDict [("site", JStr storefront.catalog_url);
                                   ("dir", JStr "./out/");
                                   ("exclude_list", JList []);
                                   ("start", JStr "1")])))
        = (Raise TypeError, w')
    ∧ w_written w' = [] ∧ w_sessions w' = ∅.
Proof.
  apply (execute_raises_on_start_that_is_no_number (web := scenario.shop)
           (regex := sample.plain_regex) (codec := sample.plain_json)
           (readers := sample.plain_readers) (disk := sample.out_disk) (http := storefront.network)
           (reprs := sample_text.plain_repr) (decode_errors := sample_text.no_value_errors)
           "exec.json"
           (sample.dumps (JDict [("site", JStr storefront.catalog_url);
                                 ("dir", JStr "./out/");
                                 ("exclude_list", JList []);
                                 ("start", JStr "1")]))
           [("site", JStr storefront.catalog_url); ("dir", JStr "./out/");
            ("exclude_list", JList []); ("start", JStr "1")]
           (JStr storefront.catalog_url) (JStr "./out/") (JList []) (JStr "1")
           storefront.catalog_page (JList [scenario.retro_high; scenario.low])).
  - vm_compute. reflexivity.
  - vm_compute. reflexivity.
  - reflexivity.
  - reflexivity.
  - reflexivity.
  - reflexivity.
  - reflexivity.
  - reflexivity.
  - intros w0. vm_compute. reflexivity.
Defined.

Lemma execute_never_returns_after_creating_descriptor_witness :
  ∃ e w', generator.execute (web := scenario.shop) (regex := sample.plain_regex)
            (codec := sample.plain_json) (readers := sample.plain_readers) (disk := sample.out_disk)
            (http := storefront.network) (reprs := sample_text.plain_repr)
            (decode_errors := sample_text.no_value_errors)
            None (scenario.console ("y" :: storefront.typed_descriptor ++ ["n"; "exec.json"]))
          = (Raise e, w').
Proof.
  apply (proj1 (execute_never_returns_after_creating_descriptor (web := scenario.shop)
           (regex := sample.plain_regex) (codec := sample.plain_json)
           (readers := sample.plain_readers) (disk := sample.out_disk) (http := storefront.network)
           (reprs := sample_text.plain_repr) (decode_errors := sample_text.no_value_errors)
           (storefront.typed_descriptor ++ ["n"; "exec.json"])
           (scenario.console ("y" :: storefront.typed_descriptor ++ ["n"; "exec.json"]))
           eq_refl)).
Defined.


(** ** execute, when the request fails *)
Section RequestFails.
Context {web : Web} {regex : Regex} {codec : JsonCodec} {readers : Readers}
        {disk : Disk} {http : Http} {reprs : Reprs} {decode_errors : DecodeErrors}.

(** X13.  [execute(path)] has no handler around the request: on a complete
    descriptor whose site cannot be fetched, the exception of
    [requests.get] or [raise_for_status] leaves [execute] as it is, after
    the line [Retrieving site...]; the catalog is not looked for, no
    window is opened and no file is written. *)
Theorem execute_lets_request_errors_through
    (path content : string) (d : list (string * json)) (site : json) (e : exn) (w : world) :
  w_files w !! path = Some content →
  json_loads content = Some (JDict d) →
  first_missing d = None →
  dict_get "site" d = Some site →
  requests_get site = Raise e →
  generator.execute (Some path) w
  = (Raise e, said [banner; loaded_line (JDict d);
                    info_line [Lit "Retrieving site..."]] w).
Proof.
  intros Hfile Hloads Hcomplete Hsite Hget.
  rewrite execute_path_run.
  rewrite (execute_load_decoded path content (JDict d)) by assumption.
  unfold validation_message. rewrite Hcomplete. cbn [String.eqb].
  unfold generator.execute_generate.
  rewrite bind_run, print_info_run, bind_run, lift_run. cbn [getitem]. rewrite Hsite.
  rewrite bind_run, lift_run, Hget, !said_said. reflexivity.
Qed.
End RequestFails.

Lemma execute_lets_request_errors_through_witness :
  generator.execute (web := scenario.shop) (regex := sample.plain_regex)
    (codec := sample.plain_json) (readers := sample.plain_readers) (disk := sample.out_disk)
    (http := storefront.network) (reprs := sample_text.plain_repr)
    (decode_errors := sample_text.no_value_errors)
    (Some "exec.json")
    (scenario.disk "exec.json"
       (sample.dumps (descriptor "air-jordans/air-jordan-1" "./out/" (JList []) 1)))
  = (Raise ValueError,
     said [banner; loaded_line (descriptor "air-jordans/air-jordan-1" "./out/" (JList []) 1);
           info_line [Lit "Retrieving site..."]]
       (scenario.disk "exec.json"
          (sample.dumps (descriptor "air-jordans/air-jordan-1" "./out/" (JList []) 1)))).
Proof.
  apply (execute_lets_request_errors_through (web := scenario.shop)
           (regex := sample.plain_regex) (codec := sample.plain_json)
           (readers := sample.plain_readers) (disk := sample.out_disk) (http := storefront.network)
           (reprs := sample_text.plain_repr) (decode_errors := sample_text.no_value_errors)
           "exec.json"
           (sample.dumps (descriptor "air-jordans/air-jordan-1" "./out/" (JList []) 1))
           [("site", JStr "air-jordans/air-jordan-1"); ("dir", JStr "./out/");
            ("exclude_list", JList []); ("start", JInt 1)]
           (JStr "air-jordans/air-jordan-1") ValueError).
  - vm_compute. reflexivity.
  - vm_compute. reflexivity.
  - reflexivity.
  - reflexivity.
  - reflexivity.
Defined.

(** ** jordans.py *)

Lemma input_run prompt line rest w :
  w_in w = line :: rest → input prompt w = (Ok line, answered [Prompt prompt] rest w).
Proof. intros Hin. unfold input. rewrite Hin. reflexivity. Qed.

Lemma answered_answered s1 r1 s2 r2 w :
  answered s2 r2 (answered s1 r1 w) = answered (s1 ++ s2) r2 w.
Proof. unfold answered. cbn. rewrite app_assoc. reflexivity. Qed.

Lemma said_answered s1 r1 s2 w :
  said s2 (answered s1 r1 w) = answered (s1 ++ s2) r1 w.
Proof. unfold answered, said. cbn. rewrite app_assoc. reflexivity. Qed.

Lemma answered_said s1 s2 r2 w :
  answered s2 r2 (said s1 w) = answered (s1 ++ s2) r2 w.
Proof. unfold answered, said. cbn. rewrite app_assoc. reflexivity. Qed.

Section Jordans.
Context {web : Web} {regex : Regex} {codec : JsonCodec} {readers : Readers}
        {disk : Disk} {http : Http} {reprs : Reprs} {decode_errors : DecodeErrors}.

Lemma within_range_spec num minimum maximum :
  jordans.within_range num minimum maximum = true ↔ (minimum ≤ num ≤ maximum)%Z.
Proof.
  unfold jordans.within_range.
  destruct (minimum <=? num)%Z eqn:H1, (num <=? maximum)%Z eqn:H2; cbn;
    rewrite ?Z.leb_le, ?Z.leb_gt in *; split; intros; try lia; try discriminate; reflexivity.
Qed.

(** X14.  The script of jordans.py, once the two brand numbers are read as ints
    that are not both within 1..23 and in order: it raises a [TypeError]
    on the spot.  It has shown its first line and the two prompts only:
    the message of its handler is not shown, no further question is asked
    and nothing is written. *)
Theorem jordans_refuses_brands_out_of_range
    (low high : string) (min_jordans max_jordans : Z) (rest : list string) (w : world) :
  w_in w = low :: high :: rest →
  py_int low = Ok min_jordans → py_int high = Ok max_jordans →
  ¬ (1 ≤ min_jordans ≤ max_jordans ∧ max_jordans ≤ 23)%Z →
  jordans.main w
  = (Raise TypeError,
     answered [Print [Lit "Air Jordans GYS shoe file generator."];
               Prompt "Min Jordans brand #(1-23): ";
               Prompt "Max Jordans brand #(1-23): "] rest w).
Proof.
  intros Hin Hlow Hhigh Hrange. unfold jordans.main.
  rewrite bind_run. unfold print at 1. rewrite bind_run.
  unfold jordans.try_except_Ellipsis.
  rewrite bind_run, (input_run _ low (high :: rest)) by exact Hin.
  rewrite bind_run, lift_run, Hlow.
  rewrite bind_run, (input_run _ high rest) by reflexivity.
  rewrite bind_run, lift_run, Hhigh, bind_run.
  assert (Hguard : negb (jordans.within_range min_jordans 1 23)
                   || negb (jordans.within_range max_jordans 1 23)
                   || (max_jordans <? min_jordans)%Z = true).
  { destruct (jordans.within_range min_jordans 1 23) eqn:H1; [|reflexivity].
    destruct (jordans.within_range max_jordans 1 23) eqn:H2; [|reflexivity].
    apply within_range_spec in H1, H2. cbn. apply Z.ltb_lt. lia. }
  rewrite Hguard. unfold raise at 1.
  f_equal. unfold answered. cbn. rewrite <- !app_assoc. reflexivity.
Qed.

End Jordans.

Lemma jordans_refuses_brands_out_of_range_witness :
  jordans.main (web := scenario.shop) (regex := sample.plain_regex)
    (codec := sample.plain_json) (readers := sample.plain_readers) (disk := sample.out_disk)
    (http := storefront.network) (reprs := sample_text.plain_repr)
    (decode_errors := sample_text.no_value_errors)
    (scenario.console ["3"; "24"; "exec.json"; "1"])
  = (Raise TypeError,
     answered [Print [Lit "Air Jordans GYS shoe file generator."];
               Prompt "Min Jordans brand #(1-23): ";
               Prompt "Max Jordans brand #(1-23): "] ["exec.json"; "1"]
       (scenario.console ["3"; "24"; "exec.json"; "1"])).
Proof.
  apply (jordans_refuses_brands_out_of_range (web := scenario.shop)
           (regex := sample.plain_regex) (codec := sample.plain_json)
           (readers := sample.plain_readers) (disk := sample.out_disk) (http := storefront.network)
           (reprs := sample_text.plain_repr) (decode_errors := sample_text.no_value_errors)
           "3" "24" 3 24 ["exec.json"; "1"]).
  - reflexivity.
  - vm_compute. reflexivity.
  - vm_compute. reflexivity.
  - lia.
Defined.

(** ** The brands of a run *)
Section Brands.
Context {web : Web} {regex : Regex} {codec : JsonCodec} {readers : Readers}
        {disk : Disk} {http : Http} {reprs : Reprs} {decode_errors : DecodeErrors}.

Variables (path dir : string) (tags : list string) (d : list (string * json)).
Variables (soup : Z → page) (catalog : Z → list json).

Hypothesis d_dir : dict_get "dir" d = Some (JStr dir).
Hypothesis d_tags : dict_get "exclude_list" d = Some (JList (JStr <$> tags)).
Hypothesis tags_valid : Forall (λ t, re_valid t = true) tags.
Hypothesis codec_inverts : ∀ brand_num start,
  json_loads (json_dumps (descriptor (brand_site brand_num) dir (JList (JStr <$> tags)) start))
  = Some (descriptor (brand_site brand_num) dir (JList (JStr <$> tags)) start).

Lemma create_execution_file_dyn_run name site dir0 exclude_list start w :
  open_error name = None →
  generator.create_execution_file_dyn name site dir0 exclude_list (JInt start) w
  = (Ok tt, put_file name (json_dumps (descriptor site dir0 exclude_list start)) w).
Proof.
  intros Hopen. unfold generator.create_execution_file_dyn.
  apply dump_file_run; [exact Hopen|].
  cbn. rewrite json_of_py_of_json. reflexivity.
Qed.

Lemma brands_loop_run brands :
  Forall (brand_served tags soup catalog) brands →
  ∀ (start : Z) (w : world),
  can_open (brand_writes path dir tags catalog brands start) →
  ∃ w', jordans.brands_loop path (JDict d) brands (JInt start) w = (Ok tt, w')
    ∧ w_written w' = w_written w ++ brand_writes path dir tags catalog brands start
    ∧ w_in w' = w_in w.
Proof.
  induction 1 as [|brand_num rest (Hget & Hlist & Hpass) _ IH]; intros start w Hopen.
  - exists w. cbn. rewrite app_nil_r. auto.
  - cbn [jordans.brands_loop brand_writes] in Hopen |- *.
    apply Forall_cons in Hopen as [Hpath Hopen]. cbn [fst] in Hpath.
    apply Forall_app in Hopen as [Hitems Hmore].
    rewrite bind_run, print_info_run, bind_run, lift_run. cbn [getitem]. rewrite d_dir.
    rewrite bind_run, lift_run, d_tags, bind_run.
    cbn [str_text]. fold (brand_site brand_num).
    rewrite (create_execution_file_dyn_run path _ _ _ start _ Hpath).
    rewrite bind_run.
    match goal with
    | |- context [generator.execute (Some path) ?w1] =>
        destruct (execute_path_generates path
                    (json_dumps (descriptor (brand_site brand_num) dir
                                   (JList (JStr <$> tags)) start))
                    [("site", JStr (brand_site brand_num)); ("dir", JStr dir);
                     ("exclude_list", JList (JStr <$> tags)); ("start", JInt start)]
                    (JStr (brand_site brand_num)) dir tags start (soup brand_num)
                    (catalog brand_num) w1)
          as (w2 & Hrun & Hw & _ & _ & Hi);
          [apply lookup_insert_eq | apply codec_inverts | reflexivity | reflexivity
          | reflexivity | reflexivity | exact Hget | exact Hlist | exact tags_valid
          | exact Hpass | exact Hitems |]
    end.
    rewrite Hrun, bind_run, lift_run. cbn [py_iter].
    rewrite bind_run, lift_run. cbn [py_plus_one].
    destruct (IH (start - 1 + Z.of_nat (length (omap (resolution.kept_pair tags)
                                                  (catalog brand_num))) + 1)%Z w2)
      as (w' & Hloop & Hw' & Hi').
    { replace (start - 1 + Z.of_nat (length (omap (resolution.kept_pair tags)
                                               (catalog brand_num))) + 1)%Z
        with (start + Z.of_nat (length (omap (resolution.kept_pair tags)
                                          (catalog brand_num))))%Z by lia.
      exact Hmore. }
    exists w'. split; [exact Hloop|]. split.
    + rewrite Hw', Hw. cbn [w_written said put_file]. rewrite <- !app_assoc. cbn [app].
      do 4 f_equal. lia.
    + rewrite Hi', Hi. reflexivity.
Qed.

Lemma range_served lo hi :
  (∀ brand_num, (lo ≤ brand_num ≤ hi)%Z → brand_served tags soup catalog brand_num) →
  Forall (brand_served tags soup catalog) (jordans.range lo (hi + 1)).
Proof.
  intros Hserved. unfold jordans.range. apply Forall_fmap, Forall_forall.
  intros i Hi%elem_of_seq. cbn. apply Hserved. lia.
Qed.

(** X15.  A run of jordans.py over the brands [min_jordans] to [max_jordans],
    on a descriptor with the four fields, with tags that are valid
    patterns, pages that are served, candidates that all pass, and a
    descriptor and item files that can each be opened for writing: it
    completes, and for each brand in turn it rewrites the descriptor, with
    the brand's site and the number to start from, and writes the files of
    the candidates kept from the brand's catalog.  The first brand starts
    at the number typed, each later one at the number after the last file
    of the brand before it: the files of the whole run are numbered
    without a gap or a repeat. *)
Theorem jordans_numbers_files_across_brands
    (low high start_text content : string) (min_jordans max_jordans start : Z)
    (rest : list string) (w : world) :
  w_in w = [low; high; path; start_text] ++ rest →
  py_int low = Ok min_jordans → py_int high = Ok max_jordans →
  py_int start_text = Ok start →
  (1 ≤ min_jordans ≤ max_jordans ∧ max_jordans ≤ 23)%Z →
  w_files w !! path = Some content → json_loads content = Some (JDict d) →
  first_missing d = None →
  (∀ brand_num, (min_jordans ≤ brand_num ≤ max_jordans)%Z → brand_served tags soup catalog brand_num) →
  can_open (brand_writes path dir tags catalog
              (jordans.range min_jordans (max_jordans + 1)) start) →
  ∃ w', jordans.main w = (Ok tt, w')
    ∧ w_written w'
      = w_written w ++ brand_writes path dir tags catalog
                         (jordans.range min_jordans (max_jordans + 1)) start
    ∧ w_in w' = rest.
Proof.
  intros Hin Hlow Hhigh Hstart Hrange Hfile Hloads Hcomplete Hserved Hopen.
  unfold jordans.main.
  rewrite bind_run. unfold print at 1. rewrite bind_run.
  unfold jordans.try_except_Ellipsis.
  rewrite bind_run, (input_run _ low ([high; path; start_text] ++ rest)) by exact Hin.
  rewrite bind_run, lift_run, Hlow.
  rewrite bind_run, (input_run _ high ([path; start_text] ++ rest)) by reflexivity.
  rewrite bind_run, lift_run, Hhigh, bind_run.
  assert (Hguard : negb (jordans.within_range min_jordans 1 23)
                   || negb (jordans.within_range max_jordans 1 23)
                   || (max_jordans <? min_jordans)%Z = false).
  { rewrite (proj2 (within_range_spec min_jordans 1 23)) by lia.
    rewrite (proj2 (within_range_spec max_jordans 1 23)) by lia.
    cbn. apply Z.ltb_ge. lia. }
  rewrite Hguard, ret_run.
  rewrite bind_run, (input_run _ path ([start_text] ++ rest)) by reflexivity.
  rewrite bind_run,
    (read_execution_file_run path content (JDict d)) by (cbn; assumption).
  rewrite Hcomplete, ret_run. cbn [snd default].
  rewrite bind_run, (input_run _ start_text rest) by reflexivity.
  rewrite bind_run, lift_run, Hstart.
  match goal with
  | |- context [jordans.brands_loop _ _ _ _ ?w1] =>
      destruct (brands_loop_run (jordans.range min_jordans (max_jordans + 1))
                  (range_served min_jordans max_jordans Hserved) start w1 Hopen)
        as (w' & Hloop & Hw & Hi)
  end.
  exists w'. split; [exact Hloop|]. split; [exact Hw | exact Hi].
Qed.

End Brands.

Lemma jordans_numbers_files_across_brands_witness :
  ∃ w', jordans.main (web := scenario.shop) (regex := sample.plain_regex)
          (codec := sample.plain_json) (readers := sample.plain_readers) (disk := sample.out_disk)
          (http := storefront.network) (reprs := sample_text.plain_repr)
          (decode_errors := sample_text.no_value_errors)
          (answered [] ["1"; "2"; "exec.json"; "1"] storefront.with_descriptor)
        = (Ok tt, w')
    ∧ w_written w'
      = [("exec.json",
          sample.dumps (descriptor (brand_site 1) "./out/" (JList [JStr "retro"]) 1));
         ("./out/1.json",
          sample.dumps (JDict [("name", JStr "Air Jordan 1 Low");
                               ("img", JStr "https://cdn.flightclub.com/012345.jpg")]));
         ("exec.json",
          sample.dumps (descriptor (brand_site 2) "./out/" (JList [JStr "retro"]) 2));
         ("./out/2.json",
          sample.dumps (JDict [("name", JStr "Air Jordan 1 Low");
                               ("img", JStr "https://cdn.flightclub.com/012345.jpg")]))]
    ∧ w_in w' = [].
Proof.
  apply (jordans_numbers_files_across_brands (web := scenario.shop)
           (regex := sample.plain_regex) (codec := sample.plain_json)
           (readers := sample.plain_readers) (disk := sample.out_disk) (http := storefront.network)
           (reprs := sample_text.plain_repr) (decode_errors := sample_text.no_value_errors)
           "exec.json" "./out/" ["retro"]
           [("site", JStr storefront.catalog_url); ("dir", JStr "./out/");
            ("exclude_list", JList [JStr "retro"]); ("start", JInt 1)]
           (λ brand_num, if (brand_num =? 1)%Z then storefront.catalog_page
                         else storefront.catalog_page_2)
           (λ brand_num, if (brand_num =? 1)%Z then [scenario.retro_high; scenario.low]
                         else [scenario.low])
           eq_refl eq_refl ltac:(repeat constructor)
           ltac:(intros; apply sample_loads_dumps; reflexivity)
           "1" "2" "1" (sample.dumps storefront.exec_descriptor) 1 2 1 []
           (answered [] ["1"; "2"; "exec.json"; "1"] storefront.with_descriptor)).
  - reflexivity.
  - vm_compute. reflexivity.
  - vm_compute. reflexivity.
  - vm_compute. reflexivity.
  - lia.
  - vm_compute. reflexivity.
  - vm_compute. reflexivity.
  - reflexivity.
  - intros brand_num Hrange.
    assert (Hcases : brand_num = 1%Z ∨ brand_num = 2%Z) by lia.
    destruct Hcases as [-> | ->]; (split; [|split]).
    + vm_compute. reflexivity.
    + intros w0. vm_compute. reflexivity.
    + vm_compute. reflexivity.
    + vm_compute. reflexivity.
    + intros w0. vm_compute. reflexivity.
    + vm_compute. reflexivity.
  - repeat constructor.
Defined.

(** ** jordans.py on a descriptor that is refused *)
Section JordansRefused.
Context {web : Web} {regex : Regex} {codec : JsonCodec} {readers : Readers}
        {disk : Disk} {http : Http} {reprs : Reprs} {decode_errors : DecodeErrors}.

(** X16.  The script of jordans.py does not look at the message
    [read_execution_file] returns.  On a descriptor that is refused, with
    brand numbers in range, it goes on to ask for the starting file
    number, and then raises a [TypeError] at [loaded["dir"]] in the first
    round of its loop, [loaded] being [None]; it has written nothing. *)
Theorem jordans_ignores_refused_descriptor
    (low high path start_text content : string) (loaded : json)
    (min_jordans max_jordans start : Z) (rest : list string) (w : world) :
  w_in w = [low; high; path; start_text] ++ rest →
  py_int low = Ok min_jordans → py_int high = Ok max_jordans →
  py_int start_text = Ok start →
  (1 ≤ min_jordans ≤ max_jordans ∧ max_jordans ≤ 23)%Z →
  w_files w !! path = Some content → json_loads content = Some loaded →
  validation_message loaded ≠ EmptyString →
  jordans.main w
  = (Raise TypeError,
     answered [Print [Lit "Air Jordans GYS shoe file generator."];
               Prompt "Min Jordans brand #(1-23): ";
               Prompt "Max Jordans brand #(1-23): ";
               Prompt "Execution JSON file to use and modify: ";
               loaded_line loaded;
               Prompt "Starting file #: ";
               info_line [Lit "Preparing to generate next shoe files for Air Jordans ";
                          Lit (pretty min_jordans)]] rest w).
Proof.
  intros Hin Hlow Hhigh Hstart Hrange Hfile Hloads Hmsg.
  unfold jordans.main.
  rewrite bind_run. unfold print at 1. rewrite bind_run.
  unfold jordans.try_except_Ellipsis.
  rewrite bind_run, (input_run _ low ([high; path; start_text] ++ rest)) by exact Hin.
  rewrite bind_run, lift_run, Hlow.
  rewrite bind_run, (input_run _ high ([path; start_text] ++ rest)) by reflexivity.
  rewrite bind_run, lift_run, Hhigh, bind_run.
  assert (Hguard : negb (jordans.within_range min_jordans 1 23)
                   || negb (jordans.within_range max_jordans 1 23)
                   || (max_jordans <? min_jordans)%Z = false).
  { rewrite (proj2 (within_range_spec min_jordans 1 23)) by lia.
    rewrite (proj2 (within_range_spec max_jordans 1 23)) by lia.
    cbn. apply Z.ltb_ge. lia. }
  rewrite Hguard, ret_run.
  rewrite bind_run, (input_run _ path ([start_text] ++ rest)) by reflexivity.
  rewrite bind_run,
    (read_execution_file_message path content loaded) by (cbn; assumption).
  apply String.eqb_neq in Hmsg. rewrite Hmsg, ret_run. cbn [snd default].
  rewrite bind_run, (input_run _ start_text rest) by reflexivity.
  rewrite bind_run, lift_run, Hstart.
  assert (Hrange_cons : ∃ more, jordans.range min_jordans (max_jordans + 1)
                                = min_jordans :: more).
  { unfold jordans.range.
    destruct (Z.to_nat (max_jordans + 1 - min_jordans)) as [|n] eqn:Hn; [lia|].
    cbn [seq fmap list_fmap]. rewrite Z.add_0_r. eauto. }
  destruct Hrange_cons as [more ->].
  cbn [jordans.brands_loop].
  rewrite bind_run, print_info_run, bind_run, lift_run. cbn [getitem].
  f_equal. unfold answered, said. cbn. rewrite <- !app_assoc. reflexivity.
Qed.
End JordansRefused.

Lemma jordans_ignores_refused_descriptor_witness :
  jordans.main (web := scenario.shop) (regex := sample.plain_regex)
    (codec := sample.plain_json) (readers := sample.plain_readers) (disk := sample.out_disk)
    (http := storefront.network) (reprs := sample_text.plain_repr)
    (decode_errors := sample_text.no_value_errors)
    (answered [] ["1"; "2"; "exec.json"; "1"]
       (scenario.disk "exec.json" (sample.dumps scenario.partial_descriptor)))
  = (Raise TypeError,
     answered [Print [Lit "Air Jordans GYS shoe file generator."];
               Prompt "Min Jordans brand #(1-23): ";
               Prompt "Max Jordans brand #(1-23): ";
               Prompt "Execution JSON file to use and modify: ";
               loaded_line scenario.partial_descriptor;
               Prompt "Starting file #: ";
               info_line [Lit "Preparing to generate next shoe files for Air Jordans ";
                          Lit "1"]] []
       (answered [] ["1"; "2"; "exec.json"; "1"]
          (scenario.disk "exec.json" (sample.dumps scenario.partial_descriptor)))).
Proof.
  apply (jordans_ignores_refused_descriptor (web := scenario.shop)
           (regex := sample.plain_regex) (codec := sample.plain_json)
           (readers := sample.plain_readers) (disk := sample.out_disk) (http := storefront.network)
           (reprs := sample_text.plain_repr) (decode_errors := sample_text.no_value_errors)
           "1" "2" "exec.json" "1" (sample.dumps scenario.partial_descriptor)
           scenario.partial_descriptor 1 2 1 []).
  - reflexivity.
  - vm_compute. reflexivity.
  - vm_compute. reflexivity.
  - vm_compute. reflexivity.
  - lia.
  - vm_compute. reflexivity.
  - vm_compute. reflexivity.
  - vm_compute. discriminate.
Defined.

(** ** gys-generator.py *)
Section Gys.
Context {web : Web} {regex : Regex} {codec : JsonCodec} {readers : Readers}
        {disk : Disk} {http : Http} {reprs : Reprs} {decode_errors : DecodeErrors}.

Lemma gys_read_execution_file_run path content loaded w :
  w_files w !! path = Some content → json_loads content = Some loaded →
  gys_generator.read_execution_file path w =
  (Ok (gys_validation_message loaded,
       if String.eqb (gys_validation_message loaded) "" then Some loaded else None),
   said [loaded_line loaded] w).
Proof.
  intros Hfile Hloads. unfold gys_generator.read_execution_file.
  rewrite bind_run, (read_file_run path content w Hfile).
  rewrite bind_run. unfold loads at 1. rewrite Hloads, ret_run.
  rewrite bind_run. unfold print at 1. cbv zeta.
  destruct loaded; try reflexivity.
  unfold gys_validation_message, gys_required_fields. cbn [List.find].
  destruct (dict_has "site" d); [|reflexivity].
  destruct (dict_has "dir" d); [|reflexivity].
  destruct (dict_has "exclude_list" d); reflexivity.
Qed.

(** X17.  The two readers of descriptors, on the same file.
    [read_execution_file] of gys-generator.py checks site, dir and
    exclude_list, in that order, and not start.  Whatever
    [read_execution_file] of generator.py accepts, it accepts, with the
    same result; what it refuses, generator.py refuses with the same
    message; and a dict without start that it accepts is refused by
    generator.py, as missing its start. *)
Theorem gys_read_execution_file_checks_three_fields
    (path content : string) (loaded : json) (w : world) :
  w_files w !! path = Some content →
  json_loads content = Some loaded →
  let gys := gys_generator.read_execution_file path w in
  let gen := generator.read_execution_file path w in
  gys = (Ok (gys_validation_message loaded,
             if String.eqb (gys_validation_message loaded) "" then Some loaded else None),
         said [loaded_line loaded] w)
  ∧ (∀ accepted, gen.1 = Ok (EmptyString, Some accepted) → gys = gen)
  ∧ (∀ message, message ≠ EmptyString → gys.1 = Ok (message, None) → gen = gys)
  ∧ (∀ d, loaded = JDict d → dict_has "start" d = false →
          gys.1 = Ok (EmptyString, Some loaded) →
          gen = (Ok ("Missing start value", None), said [loaded_line loaded] w))
  ∧ (∀ d, loaded = JDict d → dict_has "start" d = true → gen = gys).
Proof.
  intros Hfile Hloads gys gen. subst gys gen.
  rewrite (gys_read_execution_file_run path content loaded w Hfile Hloads).
  rewrite (read_execution_file_message path content loaded w Hfile Hloads).
  cbn [fst]. split; [reflexivity|].
  unfold validation_message, gys_validation_message, first_missing, required_fields,
    gys_required_fields.
  destruct loaded as [| | | | | |d];
    try (cbn; repeat split; intros; (discriminate || congruence || reflexivity)).
  cbn [List.find].
  destruct (dict_has "site" d); cbn [negb];
    [|cbn; repeat split; intros; (discriminate || congruence || reflexivity)].
  destruct (dict_has "dir" d); cbn [negb];
    [|cbn; repeat split; intros; (discriminate || congruence || reflexivity)].
  destruct (dict_has "exclude_list" d); cbn [negb];
    [|cbn; repeat split; intros; (discriminate || congruence || reflexivity)].
  destruct (dict_has "start" d) eqn:Hstart; cbn [negb];
    cbn; repeat split; intros; try (discriminate || congruence || reflexivity).
  all: match goal with H : JDict _ = JDict _ |- _ => injection H as <- end; congruence.
Qed.

Lemma gys_create_execution_file_run name site dir exclude_list w :
  open_error name = None →
  gys_generator.create_execution_file name site dir (py_of_json exclude_list) w
  = (Ok tt, put_file name (json_dumps (gys_descriptor site dir exclude_list)) w).
Proof.
  intros Hopen. unfold gys_generator.create_execution_file.
  apply dump_file_run; [exact Hopen|].
  cbn. rewrite json_of_py_of_json. reflexivity.
Qed.

(** X18.  A descriptor written by gys-generator.py, on a path that opens,
    has no start: read back on the same path, gys-generator.py accepts it
    and returns the values written, and generator.py refuses it, as missing
    its start. *)
Theorem gys_descriptor_is_refused_by_generator
    (name site dir : string) (exclude_list : json) (w : world) :
  open_error name = None →
  json_loads (json_dumps (gys_descriptor site dir exclude_list))
  = Some (gys_descriptor site dir exclude_list) →
  let w1 := (gys_generator.create_execution_file name site dir
               (py_of_json exclude_list) w).2 in
  gys_generator.read_execution_file name w1
  = (Ok (EmptyString, Some (gys_descriptor site dir exclude_list)),
     said [loaded_line (gys_descriptor site dir exclude_list)] w1)
  ∧ generator.read_execution_file name w1
    = (Ok ("Missing start value", None),
       said [loaded_line (gys_descriptor site dir exclude_list)] w1).
Proof.
  intros Hopen Hcodec w1.
  assert (Hfile : w_files w1 !! name
                  = Some (json_dumps (gys_descriptor site dir exclude_list))).
  { unfold w1. rewrite (gys_create_execution_file_run _ _ _ _ _ Hopen). cbn.
    apply lookup_insert_eq. }
  split.
  - rewrite (gys_read_execution_file_run name _ _ w1 Hfile Hcodec). reflexivity.
  - rewrite (read_execution_file_run name _ _ w1 Hfile Hcodec). reflexivity.
Qed.

Lemma gys_search_run name w :
  gys_generator._search (JStr name) w =
  let b := fresh (dom (w_sessions w)) in
  match web_get (gys_generator.BASE_SEARCH_SITE +:+ name) with
  | Some p => (Ok b, with_sessions (<[b := p]> (w_sessions w)) w)
  | None => (Raise WebDriverException, with_sessions (<[b := blank_page]> (w_sessions w)) w)
  end.
Proof.
  unfold gys_generator._search. rewrite bind_run. unfold Browser at 1.
  rewrite bind_run, lift_run, str_add_str, bind_run. unfold visit at 1.
  cbn [w_sessions with_sessions]. rewrite lookup_insert_eq.
  destruct (web_get (gys_generator.BASE_SEARCH_SITE +:+ name)); [|reflexivity].
  rewrite ret_run. cbn [w_sessions with_sessions]. rewrite insert_insert_eq. reflexivity.
Qed.

Lemma gys_init_run name tags p (w : world) :
  web_get (gys_generator.BASE_SEARCH_SITE +:+ name) = Some p →
  gys_generator.__init__ (JStr name) tags w =
  let b := fresh (dom (w_sessions w)) in
  let shown := [Print [ReprElements (pg_select p "p[class='result-title text-ellipsis']")];
                Print [ReprElements (pg_select p "img[class='product-img']")]] in
  match gys_image_on p with
  | Ok image =>
      (Ok {| gys_generator._name := gys_name_on p; gys_generator._image := image |},
       said (shown ++ [info_line [Lit "Constructed shoe with "; Lit "
Name: "; Lit (gys_name_on p); Lit "
Img URL: "; Lit image]]) w)
  | Raise e =>
      (Raise e, with_sessions (<[b := p]> (w_sessions w)) (said shown w))
  end.
Proof.
  intros Hp. unfold gys_generator.__init__.
  rewrite bind_run, gys_search_run, Hp. cbv zeta.
  pose proof (fresh_session_closed (w_sessions w)) as Hb.
  set (b := fresh (dom (w_sessions w))) in *.
  unfold gys_generator._get_shoe_name, gys_generator._get_shoe_image.
  rewrite bind_run, bind_run. unfold html at 1.
  cbn [w_sessions with_sessions]. rewrite lookup_insert_eq.
  unfold gys_generator._evaluate_soup_select at 1.
  rewrite bind_run, bind_run. unfold print at 1.
  unfold gys_name_on, gys_image_on.
  set (names := pg_select p "p[class='result-title text-ellipsis']").
  set (images := pg_select p "img[class='product-img']").
  assert (Hfinish : ∀ (found : string) (w1 : world),
    w_sessions w1 = <[b := p]> (w_sessions w) →
    (image ← gys_generator._get_shoe_image b;
     gys_generator.print_info [Lit "Constructed shoe with "; Lit "
Name: "; Lit found; Lit "
Img URL: "; Lit image];;
     quit b;;
     mret {| gys_generator._name := found; gys_generator._image := image |}) w1
    = match match images with
            | [] => Ok gys_generator.NULL_IMAGE_STRING
            | e :: _ => tag_getitem (el_attrs e) "src"
            end with
      | Ok image =>
          (Ok {| gys_generator._name := found; gys_generator._image := image |},
           with_sessions (w_sessions w)
             (said [Print [ReprElements images];
                    info_line [Lit "Constructed shoe with "; Lit "
Name: "; Lit found; Lit "
Img URL: "; Lit image]] w1))
      | Raise e => (Raise e, said [Print [ReprElements images]] w1)
      end).
  { intros found w1 Hw1. unfold gys_generator._get_shoe_image.
    rewrite bind_run, bind_run. unfold html at 1. rewrite Hw1, lookup_insert_eq.
    unfold gys_generator._evaluate_soup_select at 1.
    rewrite bind_run, bind_run. unfold print at 1. fold images.
    destruct images as [|e rest].
    - rewrite ret_run, ret_run, bind_run, gys_print_info_run, bind_run.
      unfold quit at 1. rewrite ret_run. f_equal.
      apply world_eq; cbn; try reflexivity.
      + rewrite Hw1. apply delete_insert_id. exact Hb.
      + rewrite <- !app_assoc. reflexivity.
    - rewrite ret_run, lift_run.
      destruct (tag_getitem (el_attrs e) "src") as [image|err].
      + rewrite bind_run, gys_print_info_run, bind_run.
        unfold quit at 1. rewrite ret_run. f_equal.
        apply world_eq; cbn; try reflexivity.
        * rewrite Hw1. apply delete_insert_id. exact Hb.
        * rewrite <- !app_assoc. reflexivity.
      + reflexivity. }
  unfold gys_generator._get_shoe_image in Hfinish.
  destruct names as [|e rest].
  - rewrite ret_run, ret_run. rewrite Hfinish by reflexivity.
    destruct (match images with
              | [] => Ok gys_generator.NULL_IMAGE_STRING
              | e :: _ => tag_getitem (el_attrs e) "src"
              end) as [image|err].
    + f_equal. apply world_eq; cbn; try reflexivity. rewrite <- !app_assoc. reflexivity.
    + f_equal. apply world_eq; cbn; try reflexivity. rewrite <- !app_assoc. reflexivity.
  - rewrite ret_run, ret_run. rewrite Hfinish by reflexivity.
    destruct (match images with
              | [] => Ok gys_generator.NULL_IMAGE_STRING
              | e :: _ => tag_getitem (el_attrs e) "src"
              end) as [image|err].
    + f_equal. apply world_eq; cbn; try reflexivity. rewrite <- !app_assoc. reflexivity.
    + f_equal. apply world_eq; cbn; try reflexivity. rewrite <- !app_assoc. reflexivity.
Qed.

Lemma gys_loop_no_match name (tags : list string) after w :
  Forall (λ t, re_valid t = true) tags →
  resolution.excluded_by name tags = false →
  gys_generator.create_shoe_pair_loop (JStr name) (JStr <$> tags) after w = after w.
Proof.
  intros Hv. induction Hv as [|t tags Ht _ IH]; [reflexivity|].
  unfold resolution.excluded_by. cbn [existsb]. intros [Hf Hrest]%orb_false_iff.
  cbn [fmap list_fmap gys_generator.create_shoe_pair_loop].
  rewrite bind_run, lift_run. cbn [re_search]. rewrite Ht, Hf. apply IH. exact Hrest.
Qed.

(** X19.  [create_shoe_pair] of gys-generator.py resolves a candidate by its
    name: it reads no id, opens one window, on the results page of the
    search for the name, follows no link, and takes name and image from
    that page.  So a candidate without an id, such as the fallback record
    of the catalog, is resolved there, while generator.py raises
    [KeyError('id')] on it. *)
Theorem gys_create_shoe_pair_searches_by_name
    (idobj : json) (name : string) (tags : list string) (p : page) (image : string)
    (w : world) :
  getitem idobj "name" = Ok (JStr name) →
  Forall (λ t, re_valid t = true) tags →
  resolution.excluded_by name tags = false →
  web_get (gys_generator.BASE_SEARCH_SITE +:+ name) = Some p →
  gys_image_on p = Ok image →
  (∃ w', gys_generator.create_shoe_pair idobj (JStr <$> tags) w
         = (Ok (Some {| gys_generator._name := gys_name_on p;
                        gys_generator._image := image |}), w')
         ∧ w_sessions w' = w_sessions w ∧ w_written w' = w_written w)
  ∧ (getitem idobj "id" = Raise (KeyError "id") →
     generator.create_shoe_pair idobj (JStr <$> tags) w = (Raise (KeyError "id"), w)).
Proof.
  intros Hname Hvalid Hex Hp Himage. split.
  - unfold gys_generator.create_shoe_pair.
    rewrite bind_run, lift_run, Hname.
    rewrite gys_loop_no_match by assumption.
    rewrite bind_run, (gys_init_run name _ p w Hp). cbv zeta. rewrite Himage, ret_run.
    eexists. split; [reflexivity|]. split; reflexivity.
  - intros Hid. unfold generator.create_shoe_pair.
    rewrite bind_run, lift_run, Hname.
    rewrite loop_no_match; [|exact Hvalid|].
    + rewrite bind_run, lift_run, Hid. reflexivity.
    + intros Hm. apply excluded_by_spec in Hm. congruence.
Qed.

Lemma gys_execute_with_declined nested path rest w :
  ∀ answer, w_in w = answer :: path :: rest → answer ≠ "y" →
  gys_generator.execute_with nested w =
  match gys_generator.read_execution_file path
          (answered [banner; Prompt "Create execution JSON file? [y/N]: ";
                     Prompt "Path to read execution JSON: "] rest w) with
  | (Ok r, w1) =>
      if negb (String.eqb r.1 "")
      then nested (said [Print [Lit "Error with execution JSON: "; Lit " "; Lit r.1]] w1)
      else gys_generator.execute_generate (default JNull r.2) w1
  | (Raise e, w1) =>
      if is_JSONDecodeError e
      then match read_file path w1 with
           | (Ok text, w2) =>
               gys_generator.execute_generate JNull
                 (said [Print [Lit "JSON Decode Error: "; Lit " ";
                               Lit (decode_error_text text)]] w2)
           | (Raise e', w2) => (Raise e', w2)
           end
      else (Raise e, w1)
  end.
Proof.
  intros answer Hin Hno. unfold gys_generator.execute_with.
  rewrite bind_run. unfold print at 1.
  rewrite bind_run, (input_run _ answer (path :: rest)) by exact Hin.
  apply String.eqb_neq in Hno. rewrite Hno. cbn [negb]. cbv zeta.
  rewrite bind_run. unfold gys_generator.execute_load.
  rewrite bind_run, (input_run _ path rest) by reflexivity.
  unfold try_except. rewrite bind_run.
  rewrite !answered_answered. cbn [app]. fold banner.
  match goal with
  | |- context [gys_generator.read_execution_file path ?w0] =>
      replace w0 with
        (answered [banner; Prompt "Create execution JSON file? [y/N]: ";
                   Prompt "Path to read execution JSON: "] rest w)
        by (unfold answered; cbn; rewrite <- ?app_assoc; reflexivity)
  end.
  destruct (gys_generator.read_execution_file path _) as [[r|e] w1].
  - destruct (negb (String.eqb r.1 "")).
    + rewrite bind_run. unfold print at 1. rewrite ret_run. reflexivity.
    + rewrite ret_run. reflexivity.
  - destruct (is_JSONDecodeError e); [|reflexivity].
    rewrite bind_run. destruct (read_file path w1) as [[text|e'] w2]; [|reflexivity].
    rewrite bind_run. unfold print at 1. rewrite ret_run. reflexivity.
Qed.

(** X20.  [execute] of gys-generator.py on a descriptor whose text does not
    decode: the handler shows the decoder's message and lets the call go
    on with no descriptor, so that it raises a [TypeError] at
    [loaded["site"]], without asking again and without writing
    anything. *)
Theorem gys_execute_raises_after_decode_error
    (answer path content : string) (rest : list string) (w : world) :
  w_in w = answer :: path :: rest → answer ≠ "y" →
  w_files w !! path = Some content → json_loads content = None →
  gys_generator.execute w
  = (Raise TypeError,
     answered [banner; Prompt "Create execution JSON file? [y/N]: ";
               Prompt "Path to read execution JSON: ";
               Print [Lit "JSON Decode Error: "; Lit " "; Lit (decode_error_text content)];
               info_line [Lit "Retrieving site..."]] rest w).
Proof.
  intros Hin Hno Hfile Hloads. unfold gys_generator.execute. rewrite Hin.
  cbn [length gys_generator.execute_loop].
  rewrite (gys_execute_with_declined _ path rest w answer Hin Hno).
  assert (Hread : ∀ w0, w_files w0 = w_files w →
            gys_generator.read_execution_file path w0 = (Raise JSONDecodeError, w0)).
  { intros w0 Hw0. unfold gys_generator.read_execution_file.
    rewrite bind_run, (read_file_run path content w0) by (rewrite Hw0; exact Hfile).
    rewrite bind_run. unfold loads. rewrite Hloads. reflexivity. }
  rewrite Hread by reflexivity. cbn [is_JSONDecodeError].
  rewrite (read_file_run path content) by exact Hfile.
  unfold gys_generator.execute_generate.
  rewrite bind_run, gys_print_info_run, bind_run, lift_run. cbn [getitem].
  f_equal. unfold answered, said. cbn. rewrite <- !app_assoc. reflexivity.
Qed.

End Gys.

Lemma gys_read_execution_file_checks_three_fields_witness :
  let w := scenario.disk "exec.json"
             (sample.dumps (gys_descriptor storefront.catalog_url "./out/" (JList []))) in
  gys_generator.read_execution_file (codec := sample.plain_json) "exec.json" w
  = (Ok (EmptyString, Some (gys_descriptor storefront.catalog_url "./out/" (JList []))),
     said [loaded_line (gys_descriptor storefront.catalog_url "./out/" (JList []))] w)
  ∧ generator.read_execution_file (codec := sample.plain_json) "exec.json" w
    = (Ok ("Missing start value", None),
       said [loaded_line (gys_descriptor storefront.catalog_url "./out/" (JList []))] w).
Proof.
  intros w.
  pose proof (gys_read_execution_file_checks_three_fields (codec := sample.plain_json)
                "exec.json"
                (sample.dumps (gys_descriptor storefront.catalog_url "./out/" (JList [])))
                (gys_descriptor storefront.catalog_url "./out/" (JList [])) w
                ltac:(vm_compute; reflexivity) ltac:(vm_compute; reflexivity))
    as (Hgys & _ & _ & Hstart & _).
  split; [exact Hgys|].
  apply (Hstart [("site", JStr storefront.catalog_url); ("dir", JStr "./out/");
                 ("exclude_list", JList [])] eq_refl eq_refl).
  rewrite Hgys. reflexivity.
Defined.

Lemma gys_descriptor_is_refused_by_generator_witness :
  generator.read_execution_file (codec := sample.plain_json) "exec.json"
    (gys_generator.create_execution_file (codec := sample.plain_json)
       (disk := sample.out_disk) "exec.json"
       storefront.catalog_url "./out/" (py_of_json (JList [JStr "retro"]))
       scenario.empty_world).2
  = (Ok ("Missing start value", None),
     said [loaded_line (gys_descriptor storefront.catalog_url "./out/"
                          (JList [JStr "retro"]))]
       (gys_generator.create_execution_file (codec := sample.plain_json)
          (disk := sample.out_disk) "exec.json"
          storefront.catalog_url "./out/" (py_of_json (JList [JStr "retro"]))
          scenario.empty_world).2).
Proof.
  apply (proj2 (gys_descriptor_is_refused_by_generator (codec := sample.plain_json)
                  (disk := sample.out_disk)
                  "exec.json" storefront.catalog_url "./out/" (JList [JStr "retro"])
                  scenario.empty_world eq_refl
                  ltac:(apply sample_loads_dumps; reflexivity))).
Defined.

Lemma gys_create_shoe_pair_searches_by_name_witness :
  ∃ w', gys_generator.create_shoe_pair (web := storefront.site)
          (regex := sample.plain_regex)
          (JDict [("name", JStr "Air Jordan 1 Low")]) [JStr "retro"] scenario.empty_world
        = (Ok (Some {| gys_generator._name := "Air Jordan 1 Low";
                       gys_generator._image
                         := "https://cdn.flightclub.com/012345-thumb.jpg" |}), w')
    ∧ w_sessions w' = ∅ ∧ w_written w' = [].
Proof.
  apply (proj1 (gys_create_shoe_pair_searches_by_name (web := storefront.site)
                  (regex := sample.plain_regex)
                  (JDict [("name", JStr "Air Jordan 1 Low")]) "Air Jordan 1 Low"
                  ["retro"] storefront.results_by_name
                  "https://cdn.flightclub.com/012345-thumb.jpg" scenario.empty_world
                  eq_refl ltac:(repeat constructor) eq_refl eq_refl eq_refl)).
Defined.

Lemma gys_execute_raises_after_decode_error_witness :
  gys_generator.execute (web := storefront.site) (regex := sample.plain_regex)
    (codec := sample.plain_json) (readers := sample.plain_readers) (disk := sample.out_disk)
    (http := storefront.network) (reprs := sample_text.plain_repr)
    (decode_errors := sample_text.no_value_errors)
    (answered [] ["n"; "exec.json"] (scenario.disk "exec.json" "site: air-jordan-1"))
  = (Raise TypeError,
     answered [banner; Prompt "Create execution JSON file? [y/N]: ";
               Prompt "Path to read execution JSON: ";
               Print [Lit "JSON Decode Error: "; Lit " ";
                      Lit "Expecting value: line 1 column 1 (char 0)"];
               info_line [Lit "Retrieving site..."]] []
       (answered [] ["n"; "exec.json"] (scenario.disk "exec.json" "site: air-jordan-1"))).
Proof.
  apply (gys_execute_raises_after_decode_error (web := storefront.site)
           (regex := sample.plain_regex) (codec := sample.plain_json)
           (readers := sample.plain_readers) (disk := sample.out_disk) (http := storefront.network)
           (reprs := sample_text.plain_repr) (decode_errors := sample_text.no_value_errors)
           "n" "exec.json" "site: air-jordan-1" []).
  - reflexivity.
  - discriminate.
  - vm_compute. reflexivity.
  - vm_compute. reflexivity.
Defined.

(** ** gys-generator.py asks again *)

(** Steps that put no line back on the console input. *)
Ltac shrinks :=
  repeat first
    [ apply (keeps_ret input_shrinks input_shrinks_refl)
    | apply (keeps_lift input_shrinks input_shrinks_refl)
    | apply (keeps_read_file input_shrinks input_shrinks_refl)
    | apply (keeps_loads input_shrinks input_shrinks_refl)
    | apply input_shrinks_input
    | apply (keeps_dump_file input_shrinks input_shrinks_refl);
      [intros ? ? ?; unfold input_shrinks; cbn; lia]
    | apply (keeps_bind input_shrinks input_shrinks_trans); [|intros ?]
    | apply (keeps_try_except input_shrinks input_shrinks_trans)
    | match goal with
      | |- keeps _ (match ?x with _ => _ end) => destruct x
      | |- keeps _ (if ?x then _ else _) => destruct x
      end
    | (intros ?; unfold input_shrinks; cbn; lia) ].

Section GysRoom.
Context {web : Web} {regex : Regex} {codec : JsonCodec} {readers : Readers}
        {disk : Disk} {http : Http} {reprs : Reprs} {decode_errors : DecodeErrors}.

Lemma gys_prompt_input_shrinks : keeps input_shrinks gys_generator.prompt_execution_values.
Proof.
  unfold gys_generator.prompt_execution_values, gys_generator.create_execution_file.
  shrinks.
Qed.

Lemma gys_execute_load_input_shrinks : keeps input_shrinks gys_generator.execute_load.
Proof.
  unfold gys_generator.execute_load, gys_generator.read_execution_file. shrinks.
Qed.

Lemma gys_execute_with_agree nested1 nested2 w :
  (∀ w2, length (w_in w2) < length (w_in w) → nested1 w2 = nested2 w2) →
  gys_generator.execute_with nested1 w = gys_generator.execute_with nested2 w.
Proof.
  intros Hnested. unfold gys_generator.execute_with.
  apply bind_ext_run. intros [] w0 Hprint.
  assert (Hw0 : w_in w0 = w_in w) by (injection Hprint as <-; reflexivity).
  apply bind_ext_run. intros answer w1 Hinput. cbv zeta.
  apply input_ok_inv in Hinput as (Hinput & _).
  apply bind_ext_run. intros [again loaded] w2 Hstate.
  cbn [fst snd]. destruct again; [|reflexivity].
  apply Hnested.
  assert (Hshrink : length (w_in w2) ≤ length (w_in w1)).
  { destruct (if negb (String.eqb answer "y") then false else true).
    - pose proof (keeps_bind input_shrinks input_shrinks_trans _
                    (λ _ : (), mret (true, JNull) : M (bool * json))
                    gys_prompt_input_shrinks
                    (λ _, keeps_ret input_shrinks input_shrinks_refl _) w1) as Hk.
      rewrite Hstate in Hk. exact Hk.
    - pose proof (gys_execute_load_input_shrinks w1) as Hk.
      rewrite Hstate in Hk. exact Hk. }
  rewrite <- Hw0, Hinput. cbn [length]. lia.
Qed.

Lemma gys_execute_loop_agree n :
  ∀ m w, length (w_in w) ≤ n → length (w_in w) ≤ m →
  gys_generator.execute_loop n w = gys_generator.execute_loop m w.
Proof.
  induction n as [|n IH]; intros m w Hn Hm.
  - destruct m; cbn [gys_generator.execute_loop]; apply gys_execute_with_agree;
      intros w2 Hw2; lia.
  - destruct m as [|m]; cbn [gys_generator.execute_loop]; apply gys_execute_with_agree;
      intros w2 Hw2; [lia|].
    apply IH; lia.
Qed.

Lemma gys_execute_loop_room n w :
  length (w_in w) ≤ n → gys_generator.execute_loop n w = gys_generator.execute w.
Proof. intros Hn. unfold gys_generator.execute. apply gys_execute_loop_agree; lia. Qed.

(** X21.  [execute] of gys-generator.py on a descriptor that its
    [read_execution_file] refuses: it shows the message and calls itself,
    so the run goes on as a new call of [execute] on what is left of the
    console input, where generator.py would return [False]. *)
Theorem gys_execute_asks_again_after_refused_descriptor
    (answer path content : string) (loaded : json) (rest : list string) (w : world) :
  w_in w = answer :: path :: rest → answer ≠ "y" →
  w_files w !! path = Some content → json_loads content = Some loaded →
  gys_validation_message loaded ≠ EmptyString →
  gys_generator.execute w
  = gys_generator.execute
      (answered [banner; Prompt "Create execution JSON file? [y/N]: ";
                 Prompt "Path to read execution JSON: ";
                 loaded_line loaded;
                 Print [Lit "Error with execution JSON: "; Lit " ";
                        Lit (gys_validation_message loaded)]] rest w).
Proof.
  intros Hin Hno Hfile Hloads Hmsg. unfold gys_generator.execute at 1. rewrite Hin.
  change (length (answer :: path :: rest)) with (S (S (length rest))).
  change (gys_generator.execute_loop (S (S (length rest))))
    with (gys_generator.execute_with (gys_generator.execute_loop (S (length rest)))).
  rewrite (gys_execute_with_declined _ path rest w answer Hin Hno).
  rewrite (gys_read_execution_file_run path content loaded) by (cbn; assumption).
  apply String.eqb_neq in Hmsg. cbn [fst snd]. rewrite Hmsg. cbn [negb].
  match goal with
  | |- gys_generator.execute_loop _ ?w1 = gys_generator.execute ?w2 =>
      replace w1 with w2
        by (unfold answered, said; cbn; rewrite <- !app_assoc; reflexivity)
  end.
  apply gys_execute_loop_room. cbn. lia.
Qed.
End GysRoom.

Lemma gys_execute_asks_again_after_refused_descriptor_witness :
  gys_generator.execute (web := storefront.site) (regex := sample.plain_regex)
    (codec := sample.plain_json) (readers := sample.plain_readers) (disk := sample.out_disk)
    (http := storefront.network) (reprs := sample_text.plain_repr)
    (decode_errors := sample_text.no_value_errors)
    (answered [] ["n"; "exec.json"; "n"; "other.json"]
       (scenario.disk "exec.json" (sample.dumps scenario.partial_descriptor)))
  = gys_generator.execute (web := storefront.site) (regex := sample.plain_regex)
      (codec := sample.plain_json) (readers := sample.plain_readers) (disk := sample.out_disk)
      (http := storefront.network) (reprs := sample_text.plain_repr)
      (decode_errors := sample_text.no_value_errors)
      (answered [banner; Prompt "Create execution JSON file? [y/N]: ";
                 Prompt "Path to read execution JSON: ";
                 loaded_line scenario.partial_descriptor;
                 Print [Lit "Error with execution JSON: "; Lit " ";
                        Lit "Missing exclude_list value"]] ["n"; "other.json"]
         (answered [] ["n"; "exec.json"; "n"; "other.json"]
            (scenario.disk "exec.json" (sample.dumps scenario.partial_descriptor)))).
Proof.
  apply (gys_execute_asks_again_after_refused_descriptor (web := storefront.site)
           (regex := sample.plain_regex) (codec := sample.plain_json)
           (readers := sample.plain_readers) (disk := sample.out_disk) (http := storefront.network)
           (reprs := sample_text.plain_repr) (decode_errors := sample_text.no_value_errors)
           "n" "exec.json" (sample.dumps scenario.partial_descriptor)
           scenario.partial_descriptor ["n"; "other.json"]).
  - reflexivity.
  - discriminate.
  - vm_compute. reflexivity.
  - vm_compute. reflexivity.
  - vm_compute. discriminate.
Defined.
